(** * Adventure Works data pipeline: bronze -> silver -> gold -> charts

    A shallow embedding of [src/bronze_to_silver.py], [src/silver_to_gold.py],
    [src/visualize.py] and [src/main.py].

    - A DataFrame is a list of records, one per row; the fields are the
      columns the code names, with the dtypes of the data model: float64
      columns are IEEE-754 binary64 numbers (a null is NaN), int64 columns
      are integers with their wrap-around, string columns are strings
      (optional where a null can stand), [datetime64] is a timestamp or
      NaT.  The key columns a transformer coerces with [astype(int)] hold
      the values [pd.read_csv] left in them.
    - The directories are maps from file names to tables, the console a
      list of lines, in a [world]; a function of the pipeline runs in a
      world and returns or raises.
    - The pandas calls are functions with the behaviour pandas documents:
      [merge] keeps the order of the left rows, [groupby] sorts the groups
      by key and drops rows with a null key, ['sum'] and ['mean'] pass
      over NaN, [sort_values] on one column sorts with numpy's default
      kind and puts NaN last, [qcut] refuses bin edges that are not
      unique. *)

From Stdlib Require Import ZArith QArith List String Ascii Bool Lia.
From Stdlib Require Import DecimalString.
From Stdlib Require DecimalPos DecimalZ.
From Stdlib Require Import Permutation Sorted.
From Corelib Require SpecFloat.
Import ListNotations.
Open Scope Z_scope.

Abbreviation length := List.length.
Abbreviation concat := List.concat.

Set Implicit Arguments.

(** ** float64 *)

Module F64.

Definition float := SpecFloat.spec_float.
Definition prec : Z := 53.
Definition emax : Z := 1024.

Definition nan : float := SpecFloat.S754_nan.
Definition zero : float := SpecFloat.S754_zero false.

Definition add : float -> float -> float := SpecFloat.SFadd prec emax.
Definition sub : float -> float -> float := SpecFloat.SFsub prec emax.
Definition mul : float -> float -> float := SpecFloat.SFmul prec emax.
Definition div : float -> float -> float := SpecFloat.SFdiv prec emax.

(** The conversion of an integer to the nearest float64 (ties to even),
    which numpy applies to an int64 operand of a float64 operation. *)
Definition of_int (z : Z) : float :=
  SpecFloat.binary_normalize prec emax z 0 false.

Definition is_nan (x : float) : bool :=
  match x with SpecFloat.S754_nan => true | _ => false end.

Definition is_finite (x : float) : bool :=
  match x with
  | SpecFloat.S754_zero _ | SpecFloat.S754_finite _ _ _ => true
  | _ => false
  end.


(** The literal [0.7]: the float64 nearest to 7/10. *)
Definition lit_0_7 : float := div (of_int 7) (of_int 10).

(** The value of a number on the extended rational line; comparisons of
    floats are comparisons of their values ([-0.0 == 0.0]). *)
Inductive ext : Type := NegInf | Fin (q : Q) | PosInf.

Definition value (x : float) : ext :=
  match x with
  | SpecFloat.S754_zero _ => Fin 0
  | SpecFloat.S754_infinity s => if s then NegInf else PosInf
  | SpecFloat.S754_nan => Fin 0
  | SpecFloat.S754_finite s m e =>
      Fin (inject_Z (if s then Z.neg m else Z.pos m) * Qpower 2 e)
  end.

Definition ext_leb (a b : ext) : bool :=
  match a, b with
  | NegInf, _ => true
  | _, PosInf => true
  | Fin p, Fin q => Qle_bool p q
  | _, _ => false
  end.

(** [x <= y] by value; it is applied to numbers, and counts a NaN as
    zero. *)
Definition leb (x y : float) : bool := ext_leb (value x) (value y).

(** [x == y] and [x < y]: false when either side is NaN. *)
Definition eqb (x y : float) : bool :=
  negb (is_nan x || is_nan y) && (leb x y && leb y x).
Definition ltb (x y : float) : bool :=
  negb (is_nan x || is_nan y) && negb (leb y x).

(** Truncation toward zero of a finite number. *)
Definition trunc (x : float) : Z :=
  match x with
  | SpecFloat.S754_finite s m e =>
      let a := if (0 <=? e) then Z.pos m * 2 ^ e else Z.pos m / 2 ^ (- e) in
      if s then - a else a
  | _ => 0
  end.

End F64.

Abbreviation float := F64.float.

(** ** int64 *)

Definition min_int64 : Z := - 2 ^ 63.
Definition max_int64 : Z := 2 ^ 63 - 1.

Definition in_int64 (z : Z) : bool := (min_int64 <=? z) && (z <=? max_int64).

(** Two's-complement wrap-around of int64 arithmetic. *)
Definition wrap64 (z : Z) : Z := (z + 2 ^ 63) mod 2 ^ 64 - 2 ^ 63.

(** ** Exceptions and the result of a call *)

Inductive exn : Type :=
| FileNotFoundError
| ValueError
| OverflowError
| TypeError
| KeyError.

Inductive result (A : Type) : Type :=
| Ok (a : A)
| Raise (e : exn).

Arguments Ok {A} a.
Arguments Raise {A} e.

Definition exn_eqb (a b : exn) : bool :=
  match a, b with
  | FileNotFoundError, FileNotFoundError
  | ValueError, ValueError
  | OverflowError, OverflowError
  | TypeError, TypeError
  | KeyError, KeyError => true
  | _, _ => false
  end.

Definition rbind {A B} (r : result A) (k : A -> result B) : result B :=
  match r with
  | Ok a => k a
  | Raise e => Raise e
  end.

(** Element-wise conversion, left to right: the first failure is raised. *)
Fixpoint mapM {A B} (f : A -> result B) (l : list A) : result (list B) :=
  match l with
  | [] => Ok []
  | x :: l' => rbind (f x) (fun y => rbind (mapM f l') (fun ys => Ok (y :: ys)))
  end.

(** ** Values of a column that [pd.read_csv] returns

    A parsed column is int64 when every field is an integer, float64 when
    every field is a number or missing (NaN), and object (Python strings,
    NaN for a missing field) otherwise.  A concatenation of such columns
    keeps the Python values and promotes the dtype the same way. *)

Inductive cell : Type :=
| PyInt (z : Z)
| PyFloat (f : float)
| PyStr (s : string).

Inductive dtype : Type := int64 | float64 | object.

Definition is_int (c : cell) : bool :=
  match c with PyInt _ => true | _ => false end.

Definition is_number (c : cell) : bool :=
  match c with PyInt _ | PyFloat _ => true | PyStr _ => false end.

Definition dtype_of (col : list cell) : dtype :=
  if forallb is_int col then int64
  else if forallb is_number col then float64
  else object.

Definition int_value (c : cell) : Z :=
  match c with PyInt z => z | PyFloat f => F64.trunc f | PyStr _ => 0 end.

Definition float_value (c : cell) : float :=
  match c with PyInt z => F64.of_int z | PyFloat f => f | PyStr _ => F64.nan end.

(** *** Python's [int(str)] *)

Definition is_space (c : ascii) : bool :=
  let n := N_of_ascii c in
  ((9 <=? n) && (n <=? 13) || (28 <=? n) && (n <=? 32)
   || (n =? 133) || (n =? 160))%N.

Definition digit_of (c : ascii) : option Z :=
  let n := N_of_ascii c in
  if ((48 <=? n) && (n <=? 57))%N then Some (Z.of_N n - 48) else None.

Definition is_digit (c : ascii) : bool :=
  match digit_of c with Some _ => true | None => false end.

Fixpoint lstrip (l : list ascii) : list ascii :=
  match l with
  | c :: l' => if is_space c then lstrip l' else l
  | [] => []
  end.

Definition strip (l : list ascii) : list ascii :=
  rev (lstrip (rev (lstrip l))).

(** Decimal digits, single underscores allowed between two digits. *)
Fixpoint digits (acc : Z) (l : list ascii) : option Z :=
  match l with
  | [] => Some acc
  | c :: l' =>
      match digit_of c with
      | Some d => digits (10 * acc + d) l'
      | None =>
          if Ascii.eqb c "_"%char
          then match l' with
               | d :: _ => if is_digit d then digits acc l' else None
               | [] => None
               end
          else None
      end
  end.

Definition unsigned_literal (l : list ascii) : option Z :=
  match l with
  | c :: _ => if is_digit c then digits 0 l else None
  | [] => None
  end.

Definition int_literal (s : string) : option Z :=
  match strip (list_ascii_of_string s) with
  | c :: l =>
      if Ascii.eqb c "-"%char then option_map Z.opp (unsigned_literal l)
      else if Ascii.eqb c "+"%char then unsigned_literal l
      else unsigned_literal (c :: l)
  | [] => None
  end.

(** *** [Series.astype(int)] *)

(** A Python integer stored into an int64 array. *)
Definition to_c_long (z : Z) : result Z :=
  if in_int64 z then Ok z else Raise OverflowError.

(** [int(x)] on one element of an object column. *)
Definition py_int (c : cell) : result Z :=
  match c with
  | PyInt z => to_c_long z
  | PyFloat f =>
      if F64.is_nan f then Raise ValueError
      else if F64.is_finite f then to_c_long (F64.trunc f)
      else Raise OverflowError
  | PyStr s =>
      match int_literal s with
      | Some z => to_c_long z
      | None => Raise ValueError
      end
  end.

(** The C cast of a finite float64 to int64; outside the int64 range the
    x86-64 conversion yields the minimum int64. *)
Definition float_to_int64 (f : float) : Z :=
  let z := F64.trunc f in if in_int64 z then z else min_int64.

(** Whether an element of a float64 column is neither NaN nor infinite
    (an integer gathered into the column is a finite float). *)
Definition is_finite_number (c : cell) : bool :=
  match c with
  | PyInt _ => true
  | PyFloat f => F64.is_finite f
  | PyStr _ => false
  end.

Definition astype_int (col : list cell) : result (list Z) :=
  match dtype_of col with
  | int64 => Ok (map int_value col)
  | float64 =>
      if forallb is_finite_number col
      then Ok (map (fun c => float_to_int64 (float_value c)) col)
      else Raise ValueError
  | object => mapM py_int col
  end.

(** [Series.fillna(value)] on one element of a string column. *)
Definition fillna (value : string) (x : option string) : string :=
  match x with Some s => s | None => value end.

(** ** [DataFrame.merge] *)

Section Merge.

Context {L R KL KR : Type}.
Variable eqb : KL -> KR -> bool.
Variable left_on : L -> KL.
Variable right_on : R -> KR.

(** The rows of [right] whose key equals the key of [l], in their order. *)
Definition matches (right : list R) (l : L) : list R :=
  filter (fun r => eqb (left_on l) (right_on r)) right.

(** [left.merge(right, on=key)]: the inner join, in the order of the left
    rows; a left row without a match is dropped. *)
Definition merge (left : list L) (right : list R) : list (L * R) :=
  flat_map (fun l => map (pair l) (matches right l)) left.

(** [left.merge(right, on=key, how='left')]: a left row without a match
    is kept once, its right columns null. *)
Definition merge_left (left : list L) (right : list R)
  : list (L * option R) :=
  flat_map
    (fun l =>
       match matches right l with
       | [] => [(l, None)]
       | rs => map (fun r => (l, Some r)) rs
       end)
    left.

End Merge.

(** ** [DataFrame.groupby(keys)] with its defaults [sort=True, dropna=True] *)

Class Ord (K : Type) : Type := cmp : K -> K -> comparison.

#[export] Instance Ord_Z : Ord Z := Z.compare.
#[export] Instance Ord_string : Ord string := String.compare.
#[export] Instance Ord_prod {A B : Type} `{Ord A} `{Ord B} : Ord (A * B) :=
  fun x y =>
    match cmp (fst x) (fst y) with
    | Eq => cmp (snd x) (snd y)
    | c => c
    end.

Section GroupBy.

Context {R K : Type} `{Ord K}.
(** The group key of a row; [None] when a key column is null. *)
Variable by_ : R -> option K.

(** The groups so far are kept in ascending key order; a row joins its
    group at the end, or opens a new group at the key's place. *)
Fixpoint add_to_group (k : K) (r : R) (gs : list (K * list R))
  : list (K * list R) :=
  match gs with
  | [] => [(k, [r])]
  | (k', rs) :: gs' =>
      match cmp k k' with
      | Eq => (k', rs ++ [r]) :: gs'
      | Lt => (k, [r]) :: gs
      | Gt => (k', rs) :: add_to_group k r gs'
      end
  end.

Definition groupby_step (gs : list (K * list R)) (r : R)
  : list (K * list R) :=
  match by_ r with
  | Some k => add_to_group k r gs
  | None => gs
  end.

Definition groupby (rows : list R) : list (K * list R) :=
  fold_left groupby_step rows [].

End GroupBy.

(** ** Aggregations of [GroupBy.agg] *)

(** ['count'] of an int64 column: it has no null. *)
Definition agg_count {A : Type} (values : list A) : Z :=
  Z.of_nat (length values).

(** ['sum'] of an int64 column. *)
Definition agg_sum_int (values : list Z) : Z :=
  fold_left (fun sumx val => wrap64 (sumx + val)) values 0.

(** The summation loop of ['sum'] and ['mean'] on a float64 column: NaN
    entries are skipped, the others added with Kahan's compensation. *)
Fixpoint kahan (sumx compensation : float) (values : list float) : float :=
  match values with
  | [] => sumx
  | val :: rest =>
      if F64.is_nan val then kahan sumx compensation rest
      else
        let y := F64.sub val compensation in
        let t := F64.add sumx y in
        let c := F64.sub (F64.sub t sumx) y in
        kahan t (if F64.is_nan c then F64.zero else c) rest
  end.

(** The number of entries that are not NaN. *)
Definition nobs (values : list float) : Z :=
  Z.of_nat (length (filter (fun v => negb (F64.is_nan v)) values)).

(** ['sum'] of a float64 column ([min_count=0]: an all-NaN group sums to 0). *)
Definition agg_sum (values : list float) : float :=
  kahan F64.zero F64.zero values.

(** ['mean'] of a float64 column: NaN for a group without a number. *)
Definition agg_mean (values : list float) : float :=
  if nobs values =? 0 then F64.nan
  else F64.div (kahan F64.zero F64.zero values) (F64.of_int (nobs values)).

(** ** [DataFrame.sort_values] *)

(** [by=column] with the default [kind='quicksort']: numpy's argsort of the
    keys.  What numpy promises of it is all that is known here: the result
    lists every position once, and the keys read in that order ascend. *)
Record argsort_kind : Type := {
  argsort : list float -> list nat;
  argsort_perm :
    forall keys, Permutation (argsort keys) (seq 0 (length keys));
  argsort_sorted :
    forall keys,
      forallb (fun k => negb (F64.is_nan k)) keys = true ->
      StronglySorted (fun x y => F64.leb x y = true)
        (map (fun i => nth i keys F64.nan) (argsort keys))
}.

(** [nargsort(items, kind, ascending, na_position='last')]. *)
Definition nargsort (kind : argsort_kind) (items : list float)
  (ascending : bool) : list nat :=
  let idx := seq 0 (length items) in
  let mask := fun i => F64.is_nan (nth i items F64.nan) in
  let non_nan_idx := filter (fun i => negb (mask i)) idx in
  let nan_idx := filter mask idx in
  let non_nan_idx := if ascending then non_nan_idx else rev non_nan_idx in
  let non_nans := map (fun i => nth i items F64.nan) non_nan_idx in
  let indexer := map (fun j => nth j non_nan_idx 0%nat) (argsort kind non_nans) in
  let indexer := if ascending then indexer else rev indexer in
  indexer ++ nan_idx.

(** [DataFrame.take(indexer)]. *)
Definition take {A : Type} (indexer : list nat) (rows : list A) : list A :=
  flat_map
    (fun i => match nth_error rows i with Some r => [r] | None => [] end)
    indexer.

Definition sort_values {A : Type} (kind : argsort_kind) (by_ : A -> float)
  (ascending : bool) (rows : list A) : list A :=
  take (nargsort kind (map by_ rows) ascending) rows.

(** Insertion into a sorted list, before the first element that is not
    smaller: the sort built on it keeps equal elements in their order. *)
Section Insertion.

Context {A : Type}.
Variable le : A -> A -> bool.

Fixpoint insert (x : A) (l : list A) : list A :=
  match l with
  | [] => [x]
  | y :: l' => if le x y then x :: l else y :: insert x l'
  end.

Definition insertion_sort (l : list A) : list A :=
  fold_right insert [] l.

End Insertion.

Definition le_by {A K : Type} `{Ord K} (by_ : A -> K) (x y : A) : bool :=
  match cmp (by_ x) (by_ y) with
  | Gt => false
  | _ => true
  end.

(** [by=[columns]], ascending: the lexicographic sort of the key tuples
    ([lexsort_indexer]), which keeps rows of equal keys in their order. *)
Definition sort_values_lex {A K : Type} `{Ord K} (by_ : A -> K)
  (rows : list A) : list A :=
  insertion_sort (le_by by_) rows.

(** ** [pd.qcut(x, q, labels)] *)

Definition linspace_0_1 (q : nat) : list float :=
  map (fun k => F64.div (F64.of_int (Z.of_nat k)) (F64.of_int (Z.of_nat q)))
    (seq 0 (S q)).

Definition sort_floats (l : list float) : list float :=
  insertion_sort F64.leb l.

(** numpy's linear interpolation between two neighbours. *)
Definition lerp (a b t : float) : float :=
  let diff_b_a := F64.sub b a in
  if F64.leb (F64.div (F64.of_int 1) (F64.of_int 2)) t
  then F64.sub b (F64.mul diff_b_a (F64.sub (F64.of_int 1) t))
  else F64.add a (F64.mul diff_b_a t).

(** [np.percentile(values, 100 q, method='linear')] on sorted values. *)
Definition quantile (sorted : list float) (q : float) : float :=
  match sorted with
  | [] => F64.nan
  | _ =>
      let n := Z.of_nat (length sorted) in
      let virtual_index := F64.mul (F64.of_int (n - 1)) q in
      let previous := F64.trunc virtual_index in
      if n - 1 <=? previous
      then
        let v := last sorted F64.nan in
        lerp v v (F64.sub virtual_index (F64.of_int (-1)))
      else
        lerp (nth (Z.to_nat previous) sorted F64.nan)
             (nth (Z.to_nat (previous + 1)) sorted F64.nan)
             (F64.sub virtual_index (F64.of_int previous))
  end.

(** [x.dropna().quantile(linspace(0, 1, q + 1))]. *)
Definition qcut_bins (x : list float) (q : nat) : list float :=
  let values := sort_floats (filter (fun v => negb (F64.is_nan v)) x) in
  map (quantile values) (linspace_0_1 q).

(** Equality of two values of a float64 column, NaN being equal to NaN
    (as [algos.unique] sees two bin edges). *)
Definition same_value (a b : float) : bool :=
  if F64.is_nan a then F64.is_nan b
  else negb (F64.is_nan b) && F64.eqb a b.

Fixpoint unique (bins : list float) : list float :=
  match bins with
  | [] => []
  | b :: rest => b :: filter (fun c => negb (same_value b c)) (unique rest)
  end.

(** [bins.searchsorted(x, side='left')] with [include_lowest=True]. *)
Definition bin_id (bins : list float) (x : float) : nat :=
  if F64.eqb x (hd F64.nan bins) then 1%nat
  else length (filter (fun b => F64.ltb b x) bins).

Definition qcut {Lbl : Type} (x : list float) (q : nat) (labels : list Lbl)
  : result (list (option Lbl)) :=
  let bins := qcut_bins x q in
  if (length (unique bins) <? length bins)%nat && negb (length bins =? 2)%nat
  then Raise ValueError
  else
    Ok (map
          (fun v =>
             if F64.is_nan v then None
             else
               let id := bin_id bins v in
               if (id =? 0)%nat || (id =? length bins)%nat then None
               else nth_error labels (id - 1))
          x).

(** ** The tables of the three layers *)

(** A date field of a CSV file, as [pd.to_datetime] reads it: a timestamp
    (nanoseconds since the epoch), an empty field, or text that is no date. *)
Inductive csv_date : Type :=
| CsvDate (ns : Z)
| CsvMissing
| CsvNoDate (text : string).

(** [datetime64[ns]]: [None] is NaT. *)
Definition datetime : Type := option Z.

Module Bronze.

Module Customer.
Record row : Type := mk {
  CustomerKey : cell;
  FirstName : option string;
  LastName : option string;
  Gender : option string;
  MaritalStatus : option string
}.
End Customer.

Module Product.
Record row : Type := mk {
  ProductKey : cell;
  ProductSubcategoryKey : float;
  ProductName : option string;
  ModelName : option string;
  ProductPrice : float
}.
End Product.

Module Sales.
Record row : Type := mk {
  OrderDate : csv_date;
  StockDate : csv_date;
  OrderNumber : option string;
  ProductKey : cell;
  CustomerKey : cell;
  TerritoryKey : cell;
  OrderLineItem : cell;
  OrderQuantity : cell
}.
End Sales.

Inductive file : Type :=
| Customers (df : list Customer.row)
| Products (df : list Product.row)
| Sales (df : list Sales.row).

End Bronze.

Module Silver.

Module Calendar.
Record row : Type := mk {
  Date : datetime;
  Year : option Z;
  Month : option Z;
  Day : option Z;
  DayOfWeek : option Z;
  DayName : option string;
  MonthName : option string;
  Quarter : option Z
}.
End Calendar.

Module Customer.
Record row : Type := mk {
  CustomerKey : Z;
  FirstName : option string;
  LastName : option string;
  Gender : string;
  MaritalStatus : string
}.
End Customer.

Module Product.
Record row : Type := mk {
  ProductKey : Z;
  ProductSubcategoryKey : float;
  ProductName : string;
  ModelName : string;
  ProductPrice : float
}.
End Product.

Module Sales.
Record row : Type := mk {
  OrderDate : datetime;
  StockDate : datetime;
  OrderNumber : option string;
  ProductKey : Z;
  CustomerKey : Z;
  TerritoryKey : cell;
  OrderLineItem : cell;
  OrderQuantity : Z;
  UnitPrice : float;
  SalesAmount : float;
  TotalProductCost : float;
  Profit : float;
  ProfitMargin : float
}.
End Sales.

Inductive file : Type :=
| Calendar (df : list Calendar.row)
| Customers (df : list Customer.row)
| Products (df : list Product.row)
| Sales (df : list Sales.row).

End Silver.

Module Gold.

Module SalesSummary.
Record row : Type := mk {
  ProductKey : Z;
  ProductName : string;
  ModelName : string;
  TotalQuantity : Z;
  TotalSales : float;
  AvgUnitPrice : float;
  OrderCount : Z
}.
End SalesSummary.

Module CustomerInsights.
Record row : Type := mk {
  CustomerKey : Z;
  FirstName : string;
  LastName : string;
  Gender : string;
  MaritalStatus : string;
  TotalSpend : float;
  OrderCount : Z;
  AvgOrderValue : float
}.
End CustomerInsights.

Module MonthlySales.
Record row : Type := mk {
  Year : Z;
  Month : Z;
  MonthlySales : float;
  OrderCount : Z;
  AvgOrderValue : float
}.
End MonthlySales.

Inductive file : Type :=
| SalesSummary (df : list SalesSummary.row)
| CustomerInsights (df : list CustomerInsights.row)
| MonthlySales (df : list MonthlySales.row).

End Gold.

(** ** The file system and the console *)

Abbreviation dir F := (string -> option F).

Definition empty_dir {F : Type} : dir F := fun _ => None.

Definition put {F : Type} (d : dir F) (name : string) (f : F) : dir F :=
  fun n => if String.eqb n name then Some f else d n.

Record world : Type := mkWorld {
  Data : dir Bronze.file;
  silver : dir Silver.file;
  gold : dir Gold.file;
  visualizations : list string;
  stdout : list string
}.

(** A call runs in a world and returns or raises; what it wrote and
    printed before raising stays. *)
Definition M (A : Type) : Type := world -> result A * world.

Definition ret {A} (a : A) : M A := fun w => (Ok a, w).

Definition raise {A} (e : exn) : M A := fun w => (Raise e, w).

Definition bind {A B} (m : M A) (k : A -> M B) : M B :=
  fun w =>
    match m w with
    | (Ok a, w') => k a w'
    | (Raise e, w') => (Raise e, w')
    end.

Notation "x <- m ;; k" := (bind m (fun x => k))
  (at level 61, m at next level, right associativity).
Notation "m ;;; k" := (bind m (fun _ => k))
  (at level 61, right associativity).

Definition lift {A} (r : result A) : M A := fun w => (r, w).

Definition print (line : string) : M unit :=
  fun w =>
    (Ok tt, mkWorld (Data w) (silver w) (gold w) (visualizations w)
              (stdout w ++ [line])).

Definition string_of_nat (n : nat) : string :=
  NilEmpty.string_of_uint (Nat.to_uint n).

Definition path_exists (name : string) : M bool :=
  fun w => (Ok (match Data w name with Some _ => true | None => false end), w).

(** [pd.read_csv(path)] followed by the access to the columns of the
    expected table: a missing file raises [FileNotFoundError], a file
    with other columns [KeyError]. *)
Definition read_csv {A} (name : string) (columns : Bronze.file -> option A)
  : M A :=
  fun w =>
    match Data w name with
    | None => (Raise FileNotFoundError, w)
    | Some f =>
        match columns f with
        | Some df => (Ok df, w)
        | None => (Raise KeyError, w)
        end
    end.

Definition read_parquet {A} (name : string) (columns : Silver.file -> option A)
  : M A :=
  fun w =>
    match silver w name with
    | None => (Raise FileNotFoundError, w)
    | Some f =>
        match columns f with
        | Some df => (Ok df, w)
        | None => (Raise KeyError, w)
        end
    end.

Definition read_gold {A} (name : string) (columns : Gold.file -> option A)
  : M A :=
  fun w =>
    match gold w name with
    | None => (Raise FileNotFoundError, w)
    | Some f =>
        match columns f with
        | Some df => (Ok df, w)
        | None => (Raise KeyError, w)
        end
    end.

Definition to_silver (name : string) (f : Silver.file) : M unit :=
  fun w =>
    (Ok tt, mkWorld (Data w) (put (silver w) name f) (gold w)
              (visualizations w) (stdout w)).

Definition to_gold (name : string) (f : Gold.file) : M unit :=
  fun w =>
    (Ok tt, mkWorld (Data w) (silver w) (put (gold w) name f)
              (visualizations w) (stdout w)).

Definition savefig (name : string) : M unit :=
  fun w =>
    (Ok tt, mkWorld (Data w) (silver w) (gold w)
              (visualizations w ++ [name]) (stdout w)).

Definition customers_csv (f : Bronze.file) :=
  match f with Bronze.Customers df => Some df | _ => None end.
Definition products_csv (f : Bronze.file) :=
  match f with Bronze.Products df => Some df | _ => None end.
Definition sales_csv (f : Bronze.file) :=
  match f with Bronze.Sales df => Some df | _ => None end.

Definition calendar_parquet (f : Silver.file) :=
  match f with Silver.Calendar df => Some df | _ => None end.
Definition customers_parquet (f : Silver.file) :=
  match f with Silver.Customers df => Some df | _ => None end.
Definition products_parquet (f : Silver.file) :=
  match f with Silver.Products df => Some df | _ => None end.
Definition sales_parquet (f : Silver.file) :=
  match f with Silver.Sales df => Some df | _ => None end.

Definition customer_insights_parquet (f : Gold.file) :=
  match f with Gold.CustomerInsights df => Some df | _ => None end.

Definition sales_summary_parquet (f : Gold.file) :=
  match f with Gold.SalesSummary df => Some df | _ => None end.
Definition monthly_sales_parquet (f : Gold.file) :=
  match f with Gold.MonthlySales df => Some df | _ => None end.

(** ** The fields of a timestamp: [Series.dt]

    pandas splits a [datetime64[ns]] value into the days since 1970-01-01
    and the time of the day, and reads the fields of the date off the day
    count.  The divisions round down, as the code has them on a day count
    before the year 2000 and on the years of [datetime64[ns]], which are
    positive. *)

Module dt.

Definition perday : Z := 24 * 60 * 60 * 1000 * 1000 * 1000.

Definition is_leapyear (year : Z) : bool :=
  (year mod 4 =? 0) && (negb (year mod 100 =? 0) || (year mod 400 =? 0)).

Definition days_per_month_table (leap : bool) : list Z :=
  if leap then [31; 29; 31; 30; 31; 30; 31; 31; 30; 31; 30; 31]
  else [31; 28; 31; 30; 31; 30; 31; 31; 30; 31; 30; 31].

(** The year of a day count, and the day within that year (from 0): the
    count is taken from the year 2000 and broken down by the cycles of
    400, 100 and 4 years. *)
Definition days_to_yearsdays (days_ : Z) : Z * Z :=
  let days_per_400years := 400 * 365 + 100 - 4 + 1 in
  let days := days_ - (365 * 30 + 7) in
  let year := 400 * (days / days_per_400years) in
  let days := days mod days_per_400years in
  let '(year, days) :=
    if 366 <=? days then
      let year := year + 100 * ((days - 1) / (100 * 365 + 25 - 1)) in
      let days := (days - 1) mod (100 * 365 + 25 - 1) in
      if 365 <=? days then
        let year := year + 4 * ((days + 1) / (4 * 365 + 1)) in
        let days := (days + 1) mod (4 * 365 + 1) in
        if 366 <=? days then (year + (days - 1) / 365, (days - 1) mod 365)
        else (year, days)
      else (year, days)
    else (year, days) in
  (year + 2000, days).

(** The loop over the months of the year: the first month the day count
    falls into ([i] months are passed). *)
Fixpoint month_and_day (month_lengths : list Z) (i days : Z) : Z * Z :=
  match month_lengths with
  | [] => (1, 1)
  | length_i :: rest =>
      if days <? length_i then (i + 1, days + 1)
      else month_and_day rest (i + 1) (days - length_i)
  end.

Record datetimestruct : Type := mkDts {
  dts_year : Z;
  dts_month : Z;
  dts_day : Z
}.

Definition set_datetimestruct_days (days : Z) : datetimestruct :=
  let '(year, days) := days_to_yearsdays days in
  let '(month, day) :=
    month_and_day (days_per_month_table (is_leapyear year)) 0 days in
  mkDts year month day.

(** The date of a timestamp in nanoseconds. *)
Definition fields (ns : Z) : datetimestruct :=
  set_datetimestruct_days (ns / perday).

Definition sakamoto_arr : list Z := [0; 3; 2; 5; 0; 3; 5; 1; 4; 6; 2; 4].

(** The day of the week of a date, Monday being 0. *)
Definition weekday (y m d : Z) : Z :=
  let y := if m <? 3 then y - 1 else y in
  let day :=
    (y + y / 4 - y / 100 + y / 400
     + nth (Z.to_nat (m - 1)) sakamoto_arr 0 + d) mod 7 in
  (day + 6) mod 7.

Definition DAYS_FULL : list string :=
  [ "Monday"; "Tuesday"; "Wednesday"; "Thursday"; "Friday"; "Saturday";
    "Sunday" ]%string.

Definition MONTHS_FULL : list string :=
  [ ""; "January"; "February"; "March"; "April"; "May"; "June"; "July";
    "August"; "September"; "October"; "November"; "December" ]%string.

Definition year (ns : Z) : Z := dts_year (fields ns).
Definition month (ns : Z) : Z := dts_month (fields ns).
Definition day (ns : Z) : Z := dts_day (fields ns).
Definition dayofweek (ns : Z) : Z := weekday (year ns) (month ns) (day ns).
Definition day_name (ns : Z) : string :=
  nth (Z.to_nat (dayofweek ns)) DAYS_FULL ""%string.
Definition month_name (ns : Z) : string :=
  nth (Z.to_nat (month ns)) MONTHS_FULL ""%string.
Definition quarter (ns : Z) : Z := (month ns - 1) / 3 + 1.

End dt.

(** ** The calendar file

    [Data/AdventureWorks_Calendar.csv] is handed to the calendar
    transformer beside the world, whose [Data] holds the tables of the
    other transformers: the file is missing, or has a [Date] column, or is
    a table without one. *)
Inductive calendar_csv : Type :=
| NoCalendarFile
| CalendarDates (Date : list csv_date)
| NoDateColumn.

(** ** bronze_to_silver.py *)

Module bronze_to_silver.

(** [pd.to_datetime(column)]: an empty field becomes NaT, text that is
    no date raises. *)
Definition to_timestamp (d : csv_date) : result datetime :=
  match d with
  | CsvDate ns => Ok (Some ns)
  | CsvMissing => Ok None
  | CsvNoDate _ => Raise ValueError
  end.

Definition to_datetime (column : list csv_date) : result (list datetime) :=
  mapM to_timestamp column.

(** The calendar row of a date; the fields of NaT are null. *)
Definition calendar_row (Date : datetime) : Silver.Calendar.row :=
  Silver.Calendar.mk Date
    (option_map dt.year Date)
    (option_map dt.month Date)
    (option_map dt.day Date)
    (option_map dt.dayofweek Date)
    (option_map dt.day_name Date)
    (option_map dt.month_name Date)
    (option_map dt.quarter Date).

Definition read_calendar_csv (file : calendar_csv) : M (list csv_date) :=
  match file with
  | NoCalendarFile => raise FileNotFoundError
  | CalendarDates Date => ret Date
  | NoDateColumn => raise KeyError
  end.

Definition process_calendar_data (file : calendar_csv)
  : M (list Silver.Calendar.row) :=
  calendar_df <- read_calendar_csv file ;;
  Date <- lift (to_datetime calendar_df) ;;
  let calendar_df := map calendar_row Date in
  to_silver "AdventureWorks_Calendar.parquet"
    (Silver.Calendar calendar_df) ;;;
  print ("Calendar data processed: "
         ++ string_of_nat (length calendar_df) ++ " rows")%string ;;;
  ret calendar_df.

Definition process_customer_data : M (list Silver.Customer.row) :=
  customer_df <- read_csv "AdventureWorks_Customers.csv" customers_csv ;;
  CustomerKey <-
    lift (astype_int (map Bronze.Customer.CustomerKey customer_df)) ;;
  let customer_df :=
    map
      (fun '(r, key) =>
         Silver.Customer.mk key
           (Bronze.Customer.FirstName r)
           (Bronze.Customer.LastName r)
           (fillna "Unknown" (Bronze.Customer.Gender r))
           (fillna "Unknown" (Bronze.Customer.MaritalStatus r)))
      (combine customer_df CustomerKey) in
  to_silver "AdventureWorks_Customers.parquet"
    (Silver.Customers customer_df) ;;;
  print ("Customer data processed: "
         ++ string_of_nat (length customer_df) ++ " rows")%string ;;;
  ret customer_df.

Definition process_product_data : M (list Silver.Product.row) :=
  product_df <- read_csv "AdventureWorks_Products.csv" products_csv ;;
  ProductKey <-
    lift (astype_int (map Bronze.Product.ProductKey product_df)) ;;
  let product_df :=
    map
      (fun '(r, key) =>
         Silver.Product.mk key
           (let k := Bronze.Product.ProductSubcategoryKey r in
            if F64.is_nan k then F64.of_int (-1) else k)
           (fillna "Unknown Product" (Bronze.Product.ProductName r))
           (fillna "Unknown Model" (Bronze.Product.ModelName r))
           (Bronze.Product.ProductPrice r))
      (combine product_df ProductKey) in
  to_silver "AdventureWorks_Products.parquet"
    (Silver.Products product_df) ;;;
  print ("Product data processed: "
         ++ string_of_nat (length product_df) ++ " rows")%string ;;;
  ret product_df.

Definition sales_files : list string :=
  [ "AdventureWorks_Sales_2015.csv";
    "AdventureWorks_Sales_2016.csv";
    "AdventureWorks_Sales_2017.csv" ]%string.

(** The loop over [sales_files]: a file that exists is read and
    appended, one that does not is passed over. *)
Fixpoint read_sales_files (files : list string)
  : M (list (list Bronze.Sales.row)) :=
  match files with
  | [] => ret []
  | file :: files' =>
      found <- path_exists file ;;
      if found : bool
      then
        print ("Processing " ++ file ++ "...")%string ;;;
        sales_df <- read_csv file sales_csv ;;
        all_sales_dfs <- read_sales_files files' ;;
        ret (sales_df :: all_sales_dfs)
      else read_sales_files files'
  end.

(** The sales columns after the five coercions. *)
Record coerced : Type := mkCoerced {
  c_row : Bronze.Sales.row;
  c_OrderDate : datetime;
  c_StockDate : datetime;
  c_OrderQuantity : Z;
  c_CustomerKey : Z;
  c_ProductKey : Z
}.

(** The frame with the five columns replaced by their coerced values. *)
Definition assign (sales_df : list Bronze.Sales.row)
  (OrderDate StockDate : list datetime)
  (OrderQuantity CustomerKey ProductKey : list Z) : list coerced :=
  map
    (fun '(r, (od, (sd, (oq, (ck, pk))))) => mkCoerced r od sd oq ck pk)
    (combine sales_df
       (combine OrderDate
          (combine StockDate
             (combine OrderQuantity (combine CustomerKey ProductKey))))).

(** Equality of an int64 sales key and a product key of the given
    dtype: pandas compares them in their common dtype, and refuses to
    merge an int64 column with an object column. *)
Definition key_matches (d : dtype) (key : Z) (c : cell) : bool :=
  match d with
  | int64 => key =? int_value c
  | _ =>
      negb (F64.is_nan (float_value c))
      && F64.eqb (F64.of_int key) (float_value c)
  end.

(** The calculated fields of one merged row; [ProductPrice] is NaN when
    the left join found no product. *)
Definition calculate (s : coerced) (ProductPrice : float)
  : Silver.Sales.row :=
  let UnitPrice := ProductPrice in
  let SalesAmount := F64.mul (F64.of_int (c_OrderQuantity s)) UnitPrice in
  let TotalProductCost := F64.mul SalesAmount F64.lit_0_7 in
  let Profit := F64.sub SalesAmount TotalProductCost in
  let ProfitMargin := F64.div Profit SalesAmount in
  Silver.Sales.mk
    (c_OrderDate s) (c_StockDate s)
    (Bronze.Sales.OrderNumber (c_row s))
    (c_ProductKey s) (c_CustomerKey s)
    (Bronze.Sales.TerritoryKey (c_row s))
    (Bronze.Sales.OrderLineItem (c_row s))
    (c_OrderQuantity s)
    UnitPrice SalesAmount TotalProductCost Profit ProfitMargin.

Definition price_of (p : option Bronze.Product.row) : float :=
  match p with
  | Some p => Bronze.Product.ProductPrice p
  | None => F64.nan
  end.

Definition process_sales_data : M (option (list Silver.Sales.row)) :=
  all_sales_dfs <- read_sales_files sales_files ;;
  match all_sales_dfs with
  | _ :: _ =>
      let sales_df := concat all_sales_dfs in
      OrderDate <-
        lift (to_datetime (map Bronze.Sales.OrderDate sales_df)) ;;
      StockDate <-
        lift (to_datetime (map Bronze.Sales.StockDate sales_df)) ;;
      OrderQuantity <-
        lift (astype_int (map Bronze.Sales.OrderQuantity sales_df)) ;;
      CustomerKey <-
        lift (astype_int (map Bronze.Sales.CustomerKey sales_df)) ;;
      ProductKey <-
        lift (astype_int (map Bronze.Sales.ProductKey sales_df)) ;;
      let sales_df :=
        assign sales_df OrderDate StockDate OrderQuantity CustomerKey
          ProductKey in
      product_df <- read_csv "AdventureWorks_Products.csv" products_csv ;;
      let d := dtype_of (map Bronze.Product.ProductKey product_df) in
      merged_df <-
        match d, sales_df with
        | object, _ :: _ => raise ValueError
        | _, _ =>
            ret (merge_left (key_matches d)
                   c_ProductKey Bronze.Product.ProductKey
                   sales_df product_df)
        end ;;
      let final_df :=
        map (fun '(s, p) => calculate s (price_of p)) merged_df in
      to_silver "AdventureWorks_Sales.parquet" (Silver.Sales final_df) ;;;
      print ("Sales data processed: "
             ++ string_of_nat (length final_df) ++ " rows")%string ;;;
      ret (Some final_df)
  | [] =>
      print "No sales data found" ;;;
      ret None
  end.

(** [main]: the silver directory exists in every world; the four
    transformers run in turn, and the first that raises ends the run. *)
Definition main (calendar : calendar_csv) : M unit :=
  process_calendar_data calendar ;;;
  process_customer_data ;;;
  process_product_data ;;;
  process_sales_data ;;;
  print "All bronze data processed to silver layer successfully".

End bronze_to_silver.

(** ** silver_to_gold.py *)

Module silver_to_gold.

(** Equality of two [datetime64] keys in a merge: NaT matches NaT. *)
Definition datetime_eqb (a b : datetime) : bool :=
  match a, b with
  | Some x, Some y => x =? y
  | None, None => true
  | _, _ => false
  end.

(** *** Sales summary *)

Definition product_group (j : Silver.Sales.row * Silver.Product.row)
  : option (Z * string * string) :=
  Some (Silver.Sales.ProductKey (fst j),
        Silver.Product.ProductName (snd j),
        Silver.Product.ModelName (snd j)).

Definition sales_summary_row
  (g : Z * string * string * list (Silver.Sales.row * Silver.Product.row))
  : Gold.SalesSummary.row :=
  let '(ProductKey, ProductName, ModelName, rows) := g in
  Gold.SalesSummary.mk ProductKey ProductName ModelName
    (agg_sum_int (map (fun j => Silver.Sales.OrderQuantity (fst j)) rows))
    (agg_sum (map (fun j => Silver.Sales.SalesAmount (fst j)) rows))
    (agg_mean (map (fun j => Silver.Sales.UnitPrice (fst j)) rows))
    (agg_count (map (fun j => Silver.Sales.OrderQuantity (fst j)) rows)).

Definition create_sales_summary (kind : argsort_kind)
  : M (list Gold.SalesSummary.row) :=
  sales_df <- read_parquet "AdventureWorks_Sales.parquet" sales_parquet ;;
  products_df <-
    read_parquet "AdventureWorks_Products.parquet" products_parquet ;;
  let joined_df :=
    merge Z.eqb Silver.Sales.ProductKey Silver.Product.ProductKey
      sales_df products_df in
  let sales_summary :=
    sort_values kind Gold.SalesSummary.TotalSales false
      (map sales_summary_row (groupby product_group joined_df)) in
  to_gold "sales_summary.parquet" (Gold.SalesSummary sales_summary) ;;;
  ret sales_summary.

(** *** Customer insights *)

Definition customer_group (j : Silver.Sales.row * Silver.Customer.row)
  : option (Z * string * string * string * string) :=
  match Silver.Customer.FirstName (snd j),
        Silver.Customer.LastName (snd j) with
  | Some FirstName, Some LastName =>
      Some (Silver.Sales.CustomerKey (fst j), FirstName, LastName,
            Silver.Customer.Gender (snd j),
            Silver.Customer.MaritalStatus (snd j))
  | _, _ => None
  end.

Definition customer_insights_row
  (g : Z * string * string * string * string
       * list (Silver.Sales.row * Silver.Customer.row))
  : Gold.CustomerInsights.row :=
  let '(CustomerKey, FirstName, LastName, Gender, MaritalStatus, rows) :=
    g in
  Gold.CustomerInsights.mk CustomerKey FirstName LastName Gender
    MaritalStatus
    (agg_sum (map (fun j => Silver.Sales.SalesAmount (fst j)) rows))
    (agg_count (map (fun j => Silver.Sales.OrderQuantity (fst j)) rows))
    (agg_mean (map (fun j => Silver.Sales.SalesAmount (fst j)) rows)).

Definition create_customer_insights (kind : argsort_kind)
  : M (list Gold.CustomerInsights.row) :=
  customers_df <-
    read_parquet "AdventureWorks_Customers.parquet" customers_parquet ;;
  sales_df <- read_parquet "AdventureWorks_Sales.parquet" sales_parquet ;;
  let joined_df :=
    merge Z.eqb Silver.Sales.CustomerKey Silver.Customer.CustomerKey
      sales_df customers_df in
  let customer_insights :=
    sort_values kind Gold.CustomerInsights.TotalSpend false
      (map customer_insights_row (groupby customer_group joined_df)) in
  to_gold "customer_insights.parquet"
    (Gold.CustomerInsights customer_insights) ;;;
  ret customer_insights.

(** *** Monthly sales *)

Definition month_group (j : Silver.Sales.row * Silver.Calendar.row)
  : option (Z * Z) :=
  match Silver.Calendar.Year (snd j), Silver.Calendar.Month (snd j) with
  | Some Year, Some Month => Some (Year, Month)
  | _, _ => None
  end.

Definition monthly_sales_row
  (g : Z * Z * list (Silver.Sales.row * Silver.Calendar.row))
  : Gold.MonthlySales.row :=
  let '(Year, Month, rows) := g in
  Gold.MonthlySales.mk Year Month
    (agg_sum (map (fun j => Silver.Sales.SalesAmount (fst j)) rows))
    (agg_count (map (fun j => Silver.Sales.OrderQuantity (fst j)) rows))
    (agg_mean (map (fun j => Silver.Sales.SalesAmount (fst j)) rows)).

Definition year_month (r : Gold.MonthlySales.row) : Z * Z :=
  (Gold.MonthlySales.Year r, Gold.MonthlySales.Month r).

Definition create_time_series_analysis : M (list Gold.MonthlySales.row) :=
  sales_df <- read_parquet "AdventureWorks_Sales.parquet" sales_parquet ;;
  calendar_df <-
    read_parquet "AdventureWorks_Calendar.parquet" calendar_parquet ;;
  let joined_df :=
    merge datetime_eqb Silver.Sales.OrderDate Silver.Calendar.Date
      sales_df calendar_df in
  let monthly_sales :=
    sort_values_lex year_month
      (map monthly_sales_row (groupby month_group joined_df)) in
  to_gold "monthly_sales.parquet" (Gold.MonthlySales monthly_sales) ;;;
  ret monthly_sales.

Definition main (kind : argsort_kind) : M unit :=
  create_sales_summary kind ;;;
  print "Sales summary created successfully" ;;;
  create_customer_insights kind ;;;
  print "Customer insights created successfully" ;;;
  create_time_series_analysis ;;;
  print "Time series analysis created successfully".

End silver_to_gold.

(** ** visualize.py *)

Module visualize.

Inductive SpendingSegment : Type := Low | Medium | High | Premium.

(** The segments of the view's rows; the aggregation by segment and the
    drawing that follow consume them and are not modelled beyond the
    image they save. *)
Definition create_customer_segments : M unit :=
  customer_insights_df <-
    read_gold "customer_insights.parquet" customer_insights_parquet ;;
  SpendingSegment <-
    lift (qcut (map Gold.CustomerInsights.TotalSpend customer_insights_df)
            4 [Low; Medium; High; Premium]) ;;
  savefig "customer_segments.png" ;;;
  print "Customer segments visualization saved to customer_segments.png".

(** [Series.astype(str)] on an int64 column: Python's [str(int)]. *)
Definition astype_str (z : Z) : string := NilZero.string_of_int (Z.to_int z).

Fixpoint zeros (n : nat) : string :=
  match n with
  | O => EmptyString
  | S n' => String "0" (zeros n')
  end.

(** [str.zfill(width)]: zeros on the left up to [width] characters, put
    after a sign. *)
Definition zfill (width : nat) (s : string) : string :=
  if (width <=? String.length s)%nat then s
  else
    let fill := zeros (width - String.length s) in
    match s with
    | String c rest =>
        if Ascii.eqb c "+"%char || Ascii.eqb c "-"%char
        then String c (fill ++ rest)%string
        else (fill ++ s)%string
    | EmptyString => fill
    end.

(** The label of a month on the chart, [Year] and [Month] being the int64
    columns of the monthly view. *)
Definition YearMonth (r : Gold.MonthlySales.row) : string :=
  (astype_str (Gold.MonthlySales.Year r) ++ "-"
   ++ zfill 2 (astype_str (Gold.MonthlySales.Month r)))%string.

(** The line drawn: a point per row of the view, at its label. *)
Definition monthly_sales_trend (monthly_sales_df : list Gold.MonthlySales.row)
  : list (string * float) :=
  map (fun r => (YearMonth r, Gold.MonthlySales.MonthlySales r))
    monthly_sales_df.

(** The chart is saved under its name in the output directory, and the
    line printed names it so. *)
Definition create_monthly_sales_trend : M unit :=
  monthly_sales_df <- read_gold "monthly_sales.parquet" monthly_sales_parquet ;;
  let line := monthly_sales_trend monthly_sales_df in
  savefig "monthly_sales_trend.png" ;;;
  print "Monthly sales trend visualization saved to monthly_sales_trend.png".

(** [sort_values('TotalSales', ascending=False).head(10)]. *)
Definition top_products (kind : argsort_kind)
  (sales_summary_df : list Gold.SalesSummary.row)
  : list Gold.SalesSummary.row :=
  firstn 10
    (sort_values kind Gold.SalesSummary.TotalSales false sales_summary_df).

(** The bars drawn: the name and the sales of each of the top products. *)
Definition create_top_products_chart (kind : argsort_kind) : M unit :=
  sales_summary_df <-
    read_gold "sales_summary.parquet" sales_summary_parquet ;;
  let bars :=
    map (fun r => (Gold.SalesSummary.ProductName r,
                   Gold.SalesSummary.TotalSales r))
      (top_products kind sales_summary_df) in
  savefig "top_products.png" ;;;
  print "Top products visualization saved to top_products.png".

Definition main (kind : argsort_kind) : M unit :=
  create_monthly_sales_trend ;;;
  create_top_products_chart kind ;;;
  create_customer_segments ;;;
  print "All visualizations created successfully".

End visualize.

(** ** main.py *)

Module main.

(** The values [--layers] can take; [all] is the default. *)
Inductive layers : Type := bronze_to_silver | silver_to_gold | visualize | all.

Definition layers_eqb (a b : layers) : bool :=
  match a, b with
  | bronze_to_silver, bronze_to_silver
  | silver_to_gold, silver_to_gold
  | visualize, visualize
  | all, all => true
  | _, _ => false
  end.

Definition layers_name (l : layers) : string :=
  match l with
  | bronze_to_silver => "bronze_to_silver"
  | silver_to_gold => "silver_to_gold"
  | visualize => "visualize"
  | all => "all"
  end.

(** The line feed that opens a banner. *)
Definition nl : string := String (ascii_of_nat 10) EmptyString.

Definition run_bronze_to_silver (calendar : calendar_csv) : M unit :=
  print (nl ++ "===== Running Bronze to Silver Layer Transformation =====") ;;;
  bronze_to_silver.main calendar.

Definition run_silver_to_gold (kind : argsort_kind) : M unit :=
  print (nl ++ "===== Running Silver to Gold Layer Transformation =====") ;;;
  silver_to_gold.main kind.

Definition run_visualizations (kind : argsort_kind) : M unit :=
  print (nl ++ "===== Creating Visualizations =====") ;;;
  visualize.main kind.

Definition main (args_layers : layers) (calendar : calendar_csv)
  (kind : argsort_kind) : M unit :=
  print (nl ++ "===== Adventure Works Data Pipeline =====") ;;;
  print ("Running layers: " ++ layers_name args_layers) ;;;
  (if layers_eqb args_layers all || layers_eqb args_layers bronze_to_silver
   then run_bronze_to_silver calendar else ret tt) ;;;
  (if layers_eqb args_layers all || layers_eqb args_layers silver_to_gold
   then run_silver_to_gold kind else ret tt) ;;;
  (if layers_eqb args_layers all || layers_eqb args_layers visualize
   then run_visualizations kind else ret tt) ;;;
  print (nl ++ "===== Data Pipeline Completed Successfully =====").

End main.

(** * Properties *)

Unset Implicit Arguments.

(** ** The order of float64 values *)

Module F64Facts.

Lemma ext_leb_total (a b : F64.ext) :
  F64.ext_leb a b = true \/ F64.ext_leb b a = true.
Proof.
  destruct a as [|p|], b as [|q|]; simpl; auto.
  destruct (Qlt_le_dec p q) as [Hlt | Hle].
  - left. apply Qle_bool_iff. now apply Qlt_le_weak.
  - right. now apply Qle_bool_iff.
Qed.

Lemma ext_leb_trans (a b c : F64.ext) :
  F64.ext_leb a b = true -> F64.ext_leb b c = true ->
  F64.ext_leb a c = true.
Proof.
  destruct a as [|p|], b as [|q|], c as [|r|]; simpl;
    try reflexivity; try discriminate.
  rewrite !Qle_bool_iff. apply Qle_trans.
Qed.

Lemma leb_total (x y : float) :
  F64.leb x y = true \/ F64.leb y x = true.
Proof. apply ext_leb_total. Qed.

Lemma leb_trans (x y z : float) :
  F64.leb x y = true -> F64.leb y z = true -> F64.leb x z = true.
Proof. apply ext_leb_trans. Qed.


End F64Facts.

(** ** Insertion sort *)

Section InsertionFacts.

Context {A : Type}.
Variable le : A -> A -> bool.

Lemma insert_perm (x : A) (l : list A) :
  Permutation (insert le x l) (x :: l).
Proof.
  induction l as [|y l IH]; simpl.
  - reflexivity.
  - destruct (le x y).
    + reflexivity.
    + rewrite IH. apply perm_swap.
Qed.

Lemma insertion_sort_perm (l : list A) :
  Permutation (insertion_sort le l) l.
Proof.
  induction l as [|x l IH]; simpl.
  - reflexivity.
  - rewrite insert_perm. now apply perm_skip.
Qed.

Hypothesis le_total : forall x y, le x y = true \/ le y x = true.
Hypothesis le_trans :
  forall x y z, le x y = true -> le y z = true -> le x z = true.

Let R (x y : A) : Prop := le x y = true.

Lemma insert_sorted (x : A) (l : list A) :
  StronglySorted R l -> StronglySorted R (insert le x l).
Proof.
  induction 1 as [|y l Hs IH Hy]; simpl.
  - repeat constructor.
  - destruct (le x y) eqn:Hxy.
    + constructor.
      * now constructor.
      * constructor; [exact Hxy|].
        eapply Forall_impl; [|exact Hy].
        intros z Hz. exact (le_trans _ _ _ Hxy Hz).
    + constructor; [exact IH|].
      eapply Permutation_Forall.
      * symmetry. apply insert_perm.
      * constructor; [|exact Hy].
        destruct (le_total x y) as [H|H]; [congruence|exact H].
Qed.

Lemma insertion_sort_sorted (l : list A) :
  StronglySorted R (insertion_sort le l).
Proof.
  induction l as [|x l IH]; simpl.
  - constructor.
  - now apply insert_sorted.
Qed.



End InsertionFacts.

(** ** Two sorting kinds that meet numpy's contract

    Both sort the (key, position) pairs by insertion.  The first takes the
    keys from the last to the first, the second from the first to the
    last, which leaves equal keys in the opposite order. *)

Definition le_key (p q : float * nat) : bool := F64.leb (fst p) (fst q).

Lemma combine_seq_nth (keys : list float) (start : nat) :
  Forall
    (fun p => (start <= snd p)%nat /\ nth (snd p - start) keys F64.nan = fst p)
    (combine keys (seq start (length keys))).
Proof.
  revert start. induction keys as [|k keys IH]; intros start; simpl.
  - constructor.
  - constructor.
    + simpl. rewrite Nat.sub_diag. split; [lia | reflexivity].
    + eapply Forall_impl; [|apply (IH (S start))].
      intros [k' i] [Hle Hnth]; simpl in *.
      split; [lia|].
      replace (i - start)%nat with (S (i - S start)) by lia.
      exact Hnth.
Qed.

Lemma map_snd_combine_seq (keys : list float) (start : nat) :
  map snd (combine keys (seq start (length keys))) = seq start (length keys).
Proof.
  revert start. induction keys as [|k keys IH]; intros start; simpl.
  - reflexivity.
  - now rewrite IH.
Qed.

Lemma StronglySorted_map_fst (l : list (float * nat)) :
  StronglySorted (fun p q => le_key p q = true) l ->
  StronglySorted (fun x y => F64.leb x y = true) (map fst l).
Proof.
  induction 1 as [|p l Hs IH Hp]; simpl; constructor.
  - exact IH.
  - rewrite Forall_map. exact Hp.
Qed.

Section ArgsortBy.

Variable arrange : list (float * nat) -> list (float * nat).
Hypothesis arrange_perm : forall l, Permutation (arrange l) l.

Definition pairs_sorted (keys : list float) : list (float * nat) :=
  insertion_sort le_key (arrange (combine keys (seq 0 (length keys)))).

Definition argsort_by (keys : list float) : list nat :=
  map snd (pairs_sorted keys).

Lemma pairs_sorted_perm (keys : list float) :
  Permutation (pairs_sorted keys) (combine keys (seq 0 (length keys))).
Proof.
  unfold pairs_sorted. rewrite insertion_sort_perm. apply arrange_perm.
Qed.

Lemma argsort_by_perm (keys : list float) :
  Permutation (argsort_by keys) (seq 0 (length keys)).
Proof.
  unfold argsort_by. rewrite pairs_sorted_perm.
  now rewrite map_snd_combine_seq.
Qed.

Lemma argsort_by_keys (keys : list float) :
  map (fun i => nth i keys F64.nan) (argsort_by keys)
  = map fst (pairs_sorted keys).
Proof.
  unfold argsort_by. rewrite map_map. apply map_ext_in.
  intros [k i] Hin; simpl.
  pose proof (combine_seq_nth keys 0) as Hall.
  rewrite Forall_forall in Hall.
  destruct (Hall (k, i)) as [_ Hnth].
  - eapply Permutation_in; [apply pairs_sorted_perm | exact Hin].
  - simpl in Hnth. now rewrite Nat.sub_0_r in Hnth.
Qed.

Lemma argsort_by_sorted (keys : list float) :
  forallb (fun k => negb (F64.is_nan k)) keys = true ->
  StronglySorted (fun x y => F64.leb x y = true)
    (map (fun i => nth i keys F64.nan) (argsort_by keys)).
Proof.
  intros _. rewrite argsort_by_keys.
  apply StronglySorted_map_fst. unfold pairs_sorted.
  apply insertion_sort_sorted.
  - intros p q. apply F64Facts.leb_total.
  - intros p q r. apply F64Facts.leb_trans.
Qed.

Definition kind_by : argsort_kind :=
  Build_argsort_kind argsort_by argsort_by_perm argsort_by_sorted.

End ArgsortBy.

Definition insertion_kind : argsort_kind :=
  kind_by (fun l => l) (fun l => Permutation_refl l).


(** ** The order of group keys *)

Class OrdLaws (K : Type) `{Ord K} : Prop := {
  cmp_eq : forall a b : K, cmp a b = Eq <-> a = b;
  cmp_antisym : forall a b : K, cmp b a = CompOpp (cmp a b);
  cmp_lt_trans :
    forall a b c : K, cmp a b = Lt -> cmp b c = Lt -> cmp a c = Lt
}.

#[export] Instance OrdLaws_Z : OrdLaws Z.
Proof.
  split; unfold cmp, Ord_Z.
  - apply Z.compare_eq_iff.
  - intros a b. apply Z.compare_antisym.
  - intros a b c. rewrite !Z.compare_lt_iff. lia.
Qed.

Lemma ascii_compare_refl (a : ascii) : Ascii.compare a a = Eq.
Proof. apply N.compare_refl. Qed.

Lemma ascii_compare_lt_trans (a b c : ascii) :
  Ascii.compare a b = Lt -> Ascii.compare b c = Lt -> Ascii.compare a c = Lt.
Proof. unfold Ascii.compare. rewrite !N.compare_lt_iff. lia. Qed.

Lemma string_compare_refl (s : string) : String.compare s s = Eq.
Proof.
  induction s as [|a s IH]; simpl.
  - reflexivity.
  - now rewrite ascii_compare_refl.
Qed.

Lemma string_compare_lt_trans (s t u : string) :
  String.compare s t = Lt -> String.compare t u = Lt ->
  String.compare s u = Lt.
Proof.
  revert t u. induction s as [|a s IH]; intros [|b t] [|c u]; simpl;
    try discriminate; try reflexivity.
  destruct (Ascii.compare a b) eqn:Hab; try discriminate;
    destruct (Ascii.compare b c) eqn:Hbc; try discriminate; intros Hst Htu.
  - apply Ascii.compare_eq_iff in Hab, Hbc. subst.
    rewrite ascii_compare_refl. now apply (IH t u).
  - apply Ascii.compare_eq_iff in Hab. subst. now rewrite Hbc.
  - apply Ascii.compare_eq_iff in Hbc. subst. now rewrite Hab.
  - now rewrite (ascii_compare_lt_trans a b c).
Qed.

#[export] Instance OrdLaws_string : OrdLaws string.
Proof.
  split; unfold cmp, Ord_string.
  - intros a b. split.
    + apply String.compare_eq_iff.
    + intros ->. apply string_compare_refl.
  - intros a b. apply String.compare_antisym.
  - apply string_compare_lt_trans.
Qed.

#[export] Instance OrdLaws_prod (A B : Type) `{OrdLaws A} `{OrdLaws B} :
  OrdLaws (A * B).
Proof.
  split; unfold cmp, Ord_prod.
  - intros [a1 b1] [a2 b2]; simpl.
    destruct (cmp a1 a2) eqn:Ha; split; try discriminate.
    + intros Hb. apply cmp_eq in Ha, Hb. now subst.
    + intros [= -> ->]. now apply cmp_eq.
    + intros [= -> _]. assert (cmp a2 a2 = Eq) by now apply cmp_eq.
      congruence.
    + intros [= -> _]. assert (cmp a2 a2 = Eq) by now apply cmp_eq.
      congruence.
  - intros [a1 b1] [a2 b2]; simpl.
    rewrite (cmp_antisym a1 a2).
    destruct (cmp a1 a2); simpl; try reflexivity. apply cmp_antisym.
  - intros [a1 b1] [a2 b2] [a3 b3]; simpl.
    destruct (cmp a1 a2) eqn:H12; try discriminate;
      destruct (cmp a2 a3) eqn:H23; try discriminate; intros Hx Hy.
    + apply cmp_eq in H12, H23. subst.
      assert (cmp a3 a3 = Eq) as -> by now apply cmp_eq.
      now apply (cmp_lt_trans b1 b2 b3).
    + apply cmp_eq in H12. subst. now rewrite H23.
    + apply cmp_eq in H23. subst. now rewrite H12.
    + now rewrite (cmp_lt_trans a1 a2 a3).
Qed.

Section OrdFacts.

Context {K : Type} `{OrdLaws K}.

Lemma cmp_refl (a : K) : cmp a a = Eq.
Proof. now apply cmp_eq. Qed.

Lemma cmp_gt_lt (a b : K) : cmp a b = Gt -> cmp b a = Lt.
Proof. intros Hab. rewrite cmp_antisym, Hab. reflexivity. Qed.

Lemma cmp_lt_gt (a b : K) : cmp a b = Lt -> cmp b a = Gt.
Proof. intros Hab. rewrite cmp_antisym, Hab. reflexivity. Qed.

Lemma cmp_lt_neq (a b : K) : cmp a b = Lt -> a <> b.
Proof. intros Hab ->. rewrite cmp_refl in Hab. discriminate. Qed.

Definition key_lt (a b : K) : Prop := cmp a b = Lt.

Lemma key_lt_sorted_NoDup (l : list K) :
  StronglySorted key_lt l -> NoDup l.
Proof.
  induction 1 as [|a l Hs IH Ha]; constructor; [|exact IH].
  intros Hin. rewrite Forall_forall in Ha.
  exact (cmp_lt_neq a a (Ha a Hin) eq_refl).
Qed.

End OrdFacts.

(** ** groupby *)

Section GroupByFacts.

Context {R K : Type} `{OrdLaws K}.
Variable by_ : R -> option K.

Definition keys_of (gs : list (K * list R)) : list K := map fst gs.

(** The rows listed under a key, none when the key has no group. *)
Fixpoint rows_of (k : K) (gs : list (K * list R)) : list R :=
  match gs with
  | [] => []
  | (k', rs) :: gs' =>
      match cmp k k' with
      | Eq => rs
      | _ => rows_of k gs'
      end
  end.

(** Whether a row belongs to the group of a key. *)
Definition in_group (k : K) (r : R) : bool :=
  match by_ r with
  | Some k' => match cmp k k' with Eq => true | _ => false end
  | None => false
  end.

Lemma in_group_iff (k : K) (r : R) :
  in_group k r = true <-> by_ r = Some k.
Proof.
  unfold in_group. destruct (by_ r) as [k'|]; [|split; discriminate].
  destruct (cmp k k') eqn:Hc; split; try discriminate.
  - intros _. apply cmp_eq in Hc. now subst.
  - reflexivity.
  - intros [= ->]. rewrite cmp_refl in Hc. discriminate.
  - intros [= ->]. rewrite cmp_refl in Hc. discriminate.
Qed.

Lemma rows_of_below (k : K) (gs : list (K * list R)) :
  Forall (key_lt k) (keys_of gs) -> rows_of k gs = [].
Proof.
  induction gs as [|[k' rs] gs IH]; simpl; intros Hall.
  - reflexivity.
  - inversion Hall as [|? ? Hk Hrest]; subst.
    unfold key_lt in Hk. rewrite Hk. now apply IH.
Qed.

Lemma add_to_group_keys (k : K) (r : R) (gs : list (K * list R)) :
  forall k', In k' (keys_of (add_to_group k r gs)) <->
             k' = k \/ In k' (keys_of gs).
Proof.
  intros k'. induction gs as [|[k1 rs] gs IH]; simpl.
  - intuition congruence.
  - destruct (cmp k k1) eqn:Hc; simpl.
    + apply cmp_eq in Hc. subst. intuition congruence.
    + intuition congruence.
    + rewrite IH. intuition congruence.
Qed.

Lemma add_to_group_sorted (k : K) (r : R) (gs : list (K * list R)) :
  StronglySorted key_lt (keys_of gs) ->
  StronglySorted key_lt (keys_of (add_to_group k r gs)).
Proof.
  induction gs as [|[k1 rs] gs IH]; simpl; intros Hs.
  - repeat constructor.
  - inversion Hs as [|? ? Hs' Hk1]; subst.
    destruct (cmp k k1) eqn:Hc; simpl.
    + now constructor.
    + constructor; [exact Hs|].
      constructor; [exact Hc|].
      eapply Forall_impl; [|exact Hk1].
      intros k2 H12. exact (cmp_lt_trans k k1 k2 Hc H12).
    + constructor; [now apply IH|].
      rewrite Forall_forall. intros k2 Hin.
      apply add_to_group_keys in Hin. destruct Hin as [-> | Hin].
      * now apply cmp_gt_lt.
      * rewrite Forall_forall in Hk1. now apply Hk1.
Qed.

Lemma rows_of_add (k k' : K) (r : R) (gs : list (K * list R)) :
  StronglySorted key_lt (keys_of gs) ->
  rows_of k' (add_to_group k r gs)
  = match cmp k' k with
    | Eq => rows_of k' gs ++ [r]
    | _ => rows_of k' gs
    end.
Proof.
  induction gs as [|[k1 rs] gs IH]; simpl; intros Hs.
  - destruct (cmp k' k); reflexivity.
  - inversion Hs as [|? ? Hs' Hk1]; subst.
    destruct (cmp k k1) eqn:Hc; simpl.
    + apply cmp_eq in Hc. subst k1.
      destruct (cmp k' k); reflexivity.
    + destruct (cmp k' k) eqn:Hc'; try reflexivity.
      apply cmp_eq in Hc'. subst k'. rewrite Hc.
      rewrite rows_of_below; [reflexivity|].
      eapply Forall_impl; [|exact Hk1].
      intros k2 H12. exact (cmp_lt_trans k k1 k2 Hc H12).
    + destruct (cmp k' k1) eqn:Hc1.
      * apply cmp_eq in Hc1. subst k'.
        rewrite (cmp_antisym k k1), Hc. reflexivity.
      * now apply IH.
      * now apply IH.
Qed.

Lemma groupby_step_sorted (gs : list (K * list R)) (r : R) :
  StronglySorted key_lt (keys_of gs) ->
  StronglySorted key_lt (keys_of (groupby_step by_ gs r)).
Proof.
  unfold groupby_step. destruct (by_ r); [apply add_to_group_sorted|auto].
Qed.

Lemma fold_groupby_sorted (rows : list R) (gs : list (K * list R)) :
  StronglySorted key_lt (keys_of gs) ->
  StronglySorted key_lt (keys_of (fold_left (groupby_step by_) rows gs)).
Proof.
  revert gs. induction rows as [|r rows IH]; simpl; intros gs Hs.
  - exact Hs.
  - apply IH. now apply groupby_step_sorted.
Qed.

Lemma rows_of_fold (k : K) (rows : list R) (gs : list (K * list R)) :
  StronglySorted key_lt (keys_of gs) ->
  rows_of k (fold_left (groupby_step by_) rows gs)
  = rows_of k gs ++ filter (in_group k) rows.
Proof.
  revert gs. induction rows as [|r rows IH]; simpl; intros gs Hs.
  - now rewrite app_nil_r.
  - rewrite IH by now apply groupby_step_sorted.
    unfold groupby_step, in_group.
    destruct (by_ r) as [k'|]; [|reflexivity].
    rewrite rows_of_add by exact Hs.
    destruct (cmp k k'); try reflexivity.
    now rewrite <- app_assoc.
Qed.

(** The group keys come out strictly ascending. *)
Lemma groupby_sorted (rows : list R) :
  StronglySorted key_lt (keys_of (groupby by_ rows)).
Proof. apply fold_groupby_sorted. constructor. Qed.

Lemma groupby_NoDup (rows : list R) : NoDup (keys_of (groupby by_ rows)).
Proof. apply key_lt_sorted_NoDup, groupby_sorted. Qed.

Lemma rows_of_groupby (k : K) (rows : list R) :
  rows_of k (groupby by_ rows) = filter (in_group k) rows.
Proof. unfold groupby. rewrite rows_of_fold; [reflexivity | constructor]. Qed.

Lemma rows_of_In (k : K) (rs : list R) (gs : list (K * list R)) :
  StronglySorted key_lt (keys_of gs) ->
  In (k, rs) gs -> rows_of k gs = rs.
Proof.
  induction gs as [|[k1 rs1] gs IH]; simpl; intros Hs Hin.
  - contradiction.
  - inversion Hs as [|? ? Hs' Hk1]; subst.
    destruct Hin as [[= -> ->] | Hin].
    + now rewrite cmp_refl.
    + assert (cmp k1 k = Lt) as Hlt.
      { rewrite Forall_forall in Hk1. apply Hk1.
        change k with (fst (k, rs)). now apply in_map. }
      rewrite (cmp_lt_gt k1 k Hlt). now apply IH.
Qed.

Lemma rows_of_nonempty (k : K) (gs : list (K * list R)) :
  rows_of k gs <> [] -> In (k, rows_of k gs) gs.
Proof.
  induction gs as [|[k1 rs1] gs IH]; simpl; intros Hne.
  - contradiction.
  - destruct (cmp k k1) eqn:Hc.
    + apply cmp_eq in Hc. subst. now left.
    + right. now apply IH.
    + right. now apply IH.
Qed.

Lemma add_to_group_nonempty (k : K) (r : R) (gs : list (K * list R)) :
  Forall (fun g => snd g <> []) gs ->
  Forall (fun g => snd g <> []) (add_to_group k r gs).
Proof.
  induction 1 as [|[k1 rs] gs Hg Hgs IH]; simpl.
  - repeat constructor. discriminate.
  - destruct (cmp k k1).
    + constructor; [|exact Hgs]. simpl. now destruct rs.
    + repeat constructor; try assumption. discriminate.
    + now constructor.
Qed.

Lemma fold_groupby_nonempty (rows : list R) (gs : list (K * list R)) :
  Forall (fun g => snd g <> []) gs ->
  Forall (fun g => snd g <> []) (fold_left (groupby_step by_) rows gs).
Proof.
  revert gs. induction rows as [|r rows IH]; simpl; intros gs Hgs.
  - exact Hgs.
  - apply IH. unfold groupby_step.
    destruct (by_ r); [now apply add_to_group_nonempty | exact Hgs].
Qed.

(** A group is the rows of its key, in their order, and has one. *)
Lemma groupby_In (k : K) (rs : list R) (rows : list R) :
  In (k, rs) (groupby by_ rows) ->
  rs = filter (in_group k) rows /\ rs <> [].
Proof.
  intros Hin. split.
  - rewrite <- rows_of_groupby. symmetry.
    apply rows_of_In; [apply groupby_sorted | exact Hin].
  - pose proof (fold_groupby_nonempty rows [] (Forall_nil _)) as Hall.
    rewrite Forall_forall in Hall. exact (Hall (k, rs) Hin).
Qed.

(** Every row with a key is in the group of its key. *)
Lemma groupby_covers (k : K) (r : R) (rows : list R) :
  In r rows -> by_ r = Some k ->
  In (k, filter (in_group k) rows) (groupby by_ rows).
Proof.
  intros Hin Hk. rewrite <- rows_of_groupby.
  apply rows_of_nonempty. rewrite rows_of_groupby.
  intros Hnil.
  assert (In r (filter (in_group k) rows)) as Hr.
  { apply filter_In. split; [exact Hin | now apply in_group_iff]. }
  rewrite Hnil in Hr. contradiction.
Qed.

(** Summing a measure group by group sums it over the rows with a key. *)
Variable measure : R -> Z.

Definition sum_of (rs : list R) : Z := fold_right Z.add 0 (map measure rs).

Definition sum_of_groups (gs : list (K * list R)) : Z :=
  fold_right Z.add 0 (map (fun g => sum_of (snd g)) gs).

Lemma sum_of_app (a b : list R) : sum_of (a ++ b) = sum_of a + sum_of b.
Proof.
  unfold sum_of. induction a as [|x a IH]; simpl.
  - reflexivity.
  - fold (sum_of (a ++ b)) in *. lia.
Qed.

Lemma sum_of_groups_add (k : K) (r : R) (gs : list (K * list R)) :
  sum_of_groups (add_to_group k r gs) = sum_of_groups gs + measure r.
Proof.
  unfold sum_of_groups.
  induction gs as [|[k1 rs] gs IH]; simpl.
  - unfold sum_of. simpl. lia.
  - destruct (cmp k k1); simpl.
    + rewrite sum_of_app. unfold sum_of at 2. simpl. lia.
    + unfold sum_of at 1. simpl. lia.
    + rewrite IH. lia.
Qed.

Lemma sum_of_groups_fold (rows : list R) (gs : list (K * list R)) :
  sum_of_groups (fold_left (groupby_step by_) rows gs)
  = sum_of_groups gs
    + sum_of (filter (fun r => match by_ r with Some _ => true | None => false end) rows).
Proof.
  revert gs. induction rows as [|r rows IH]; simpl; intros gs.
  - unfold sum_of. simpl. lia.
  - rewrite IH. unfold groupby_step.
    destruct (by_ r) as [k|].
    + rewrite sum_of_groups_add. unfold sum_of. simpl. lia.
    + reflexivity.
Qed.

End GroupByFacts.

(** ** take, nargsort and sort_values *)

Section TakeFacts.

Context {A : Type}.

Lemma take_app (a b : list nat) (rows : list A) :
  take (a ++ b) rows = take a rows ++ take b rows.
Proof. apply flat_map_app. Qed.

Lemma take_perm (a b : list nat) (rows : list A) :
  Permutation a b -> Permutation (take a rows) (take b rows).
Proof. apply Permutation_flat_map. Qed.

Lemma take_nth (d : A) (idx : list nat) (rows : list A) :
  Forall (fun i => (i < length rows)%nat) idx ->
  take idx rows = map (fun i => nth i rows d) idx.
Proof.
  induction 1 as [|i idx Hi Hidx IH]; simpl.
  - reflexivity.
  - rewrite (nth_error_nth' rows d Hi). simpl. now rewrite IH.
Qed.

Lemma take_seq_app (front rows : list A) :
  take (seq (length front) (length rows)) (front ++ rows) = rows.
Proof.
  revert front. induction rows as [|r rows IH]; intros front; simpl.
  - reflexivity.
  - rewrite nth_error_app2 by lia. rewrite Nat.sub_diag. simpl.
    f_equal.
    specialize (IH (front ++ [r])).
    rewrite length_app, <- app_assoc in IH. simpl in IH.
    now rewrite Nat.add_1_r in IH.
Qed.

Lemma take_seq (rows : list A) : take (seq 0 (length rows)) rows = rows.
Proof. exact (take_seq_app [] rows). Qed.

End TakeFacts.

Lemma take_map {A B : Type} (f : A -> B) (idx : list nat) (rows : list A) :
  map f (take idx rows) = take idx (map f rows).
Proof.
  induction idx as [|i idx IH]; simpl.
  - reflexivity.
  - rewrite map_app, IH, nth_error_map.
    now destruct (nth_error rows i).
Qed.

Lemma map_nth_seq {A : Type} (d : A) (l : list A) :
  map (fun i => nth i l d) (seq 0 (length l)) = l.
Proof.
  rewrite <- (take_nth d).
  - apply take_seq.
  - rewrite Forall_forall. intros i Hi. apply in_seq in Hi. lia.
Qed.

Lemma filter_split_perm {A : Type} (f : A -> bool) (l : list A) :
  Permutation (filter (fun x => negb (f x)) l ++ filter f l) l.
Proof.
  induction l as [|x l IH]; simpl.
  - reflexivity.
  - destruct (f x); simpl.
    + symmetry. apply Permutation_cons_app. now symmetry.
    + now apply perm_skip.
Qed.

Lemma StronglySorted_app {A : Type} (R : A -> A -> Prop) (a b : list A) :
  StronglySorted R a -> StronglySorted R b ->
  (forall x y, In x a -> In y b -> R x y) ->
  StronglySorted R (a ++ b).
Proof.
  induction 1 as [|x a Ha IH Hx]; simpl; intros Hb Hab.
  - exact Hb.
  - constructor.
    + apply IH; [exact Hb|]. intros; apply Hab; simpl; auto.
    + apply Forall_app. split; [exact Hx|].
      rewrite Forall_forall. intros y Hy. apply Hab; simpl; auto.
Qed.

Lemma StronglySorted_rev {A : Type} (R : A -> A -> Prop) (l : list A) :
  StronglySorted R l -> StronglySorted (fun x y => R y x) (rev l).
Proof.
  induction 1 as [|x l Hl IH Hx]; simpl.
  - constructor.
  - apply StronglySorted_app.
    + exact IH.
    + repeat constructor.
    + intros y z Hy [<- | []]. apply in_rev in Hy.
      rewrite Forall_forall in Hx. now apply Hx.
Qed.

Section NargsortFacts.

Variable kind : argsort_kind.

Lemma argsort_bound (keys : list float) :
  Forall (fun j => (j < length keys)%nat) (argsort kind keys).
Proof.
  rewrite Forall_forall. intros j Hj.
  apply (Permutation_in _ (argsort_perm kind keys)) in Hj.
  apply in_seq in Hj. lia.
Qed.

(** The positions [nargsort] lists before the NaN positions. *)
Definition ordered_positions (items : list float) (ascending : bool)
  : list nat :=
  let idx := seq 0 (length items) in
  let mask := fun i => F64.is_nan (nth i items F64.nan) in
  let non_nan_idx := filter (fun i => negb (mask i)) idx in
  let non_nan_idx := if ascending then non_nan_idx else rev non_nan_idx in
  let non_nans := map (fun i => nth i items F64.nan) non_nan_idx in
  let indexer :=
    map (fun j => nth j non_nan_idx 0%nat) (argsort kind non_nans) in
  if ascending then indexer else rev indexer.

Definition nan_positions (items : list float) : list nat :=
  filter (fun i => F64.is_nan (nth i items F64.nan))
    (seq 0 (length items)).

Lemma nargsort_eq (items : list float) (ascending : bool) :
  nargsort kind items ascending
  = ordered_positions items ascending ++ nan_positions items.
Proof. reflexivity. Qed.

Lemma ordered_positions_perm (items : list float) (ascending : bool) :
  Permutation (ordered_positions items ascending)
    (filter (fun i => negb (F64.is_nan (nth i items F64.nan)))
       (seq 0 (length items))).
Proof.
  unfold ordered_positions.
  set (nn := filter _ (seq 0 (length items))).
  set (nn' := if ascending then nn else rev nn).
  assert (Permutation nn' nn) as Hnn.
  { unfold nn'. destruct ascending; [reflexivity|].
    symmetry. apply Permutation_rev. }
  set (vals := map (fun i => nth i items F64.nan) nn').
  assert (Permutation
            (map (fun j => nth j nn' 0%nat) (argsort kind vals)) nn') as Hp.
  { rewrite (argsort_perm kind vals). unfold vals.
    rewrite length_map. now rewrite map_nth_seq. }
  destruct ascending.
  - now rewrite Hp.
  - rewrite <- Permutation_rev. now rewrite Hp.
Qed.

Lemma nargsort_perm (items : list float) (ascending : bool) :
  Permutation (nargsort kind items ascending) (seq 0 (length items)).
Proof.
  rewrite nargsort_eq, ordered_positions_perm.
  apply (filter_split_perm (fun i => F64.is_nan (nth i items F64.nan))).
Qed.

Lemma sort_values_perm {A : Type} (by_ : A -> float) (ascending : bool)
  (rows : list A) :
  Permutation (sort_values kind by_ ascending rows) rows.
Proof.
  unfold sort_values.
  rewrite (take_perm _ _ rows (nargsort_perm (map by_ rows) ascending)).
  rewrite length_map. now rewrite take_seq.
Qed.

(** The keys read at the ordered positions, descending. *)
Lemma ordered_positions_desc (items : list float) :
  let keys :=
    map (fun i => nth i items F64.nan) (ordered_positions items false) in
  StronglySorted (fun x y => F64.leb y x = true) keys
  /\ forallb (fun k => negb (F64.is_nan k)) keys = true.
Proof.
  unfold ordered_positions.
  set (nn' := rev (filter _ (seq 0 (length items)))).
  set (vals := map (fun i => nth i items F64.nan) nn').
  assert (forallb (fun k => negb (F64.is_nan k)) vals = true) as Hvals.
  { apply forallb_forall. intros k Hk. unfold vals in Hk.
    apply in_map_iff in Hk. destruct Hk as [i [<- Hi]].
    unfold nn' in Hi. apply in_rev in Hi. apply filter_In in Hi.
    exact (proj2 Hi). }
  assert (map (fun i => nth i items F64.nan)
            (map (fun j => nth j nn' 0%nat) (argsort kind vals))
          = map (fun j => nth j vals F64.nan) (argsort kind vals)) as Hk.
  { rewrite map_map. apply map_ext_in. intros j Hj.
    pose proof (argsort_bound vals) as Hb.
    rewrite Forall_forall in Hb. specialize (Hb j Hj).
    unfold vals in *.
    rewrite (nth_indep _ F64.nan (nth 0%nat items F64.nan) Hb).
    now rewrite (map_nth (fun i => nth i items F64.nan)). }
  simpl. rewrite map_rev, Hk. split.
  - apply (StronglySorted_rev (fun x y => F64.leb x y = true)).
    now apply argsort_sorted.
  - apply forallb_forall. intros k Hin. apply in_rev in Hin.
    apply in_map_iff in Hin. destruct Hin as [j [<- Hj]].
    rewrite forallb_forall in Hvals. apply Hvals.
    apply nth_In.
    pose proof (argsort_bound vals) as Hb.
    rewrite Forall_forall in Hb. exact (Hb j Hj).
Qed.

End NargsortFacts.

(** A column sorted descending with [na_position='last']: the numbers,
    each one at most the ones before it, and then the NaNs. *)
Definition descending_nan_last (keys : list float) : Prop :=
  exists numbers nans,
    keys = numbers ++ nans
    /\ forallb (fun k => negb (F64.is_nan k)) numbers = true
    /\ forallb F64.is_nan nans = true
    /\ StronglySorted (fun x y => F64.leb y x = true) numbers.

Lemma sort_values_descending {A : Type} (kind : argsort_kind)
  (by_ : A -> float) (rows : list A) :
  descending_nan_last (map by_ (sort_values kind by_ false rows)).
Proof.
  unfold sort_values. rewrite take_map.
  set (items := map by_ rows).
  assert (Forall (fun i => (i < length items)%nat)
            (nargsort kind items false)) as Hb.
  { rewrite Forall_forall. intros i Hi.
    apply (Permutation_in _ (nargsort_perm kind items false)) in Hi.
    apply in_seq in Hi. lia. }
  rewrite (take_nth F64.nan) by exact Hb.
  rewrite nargsort_eq, map_app.
  destruct (ordered_positions_desc kind items) as [Hs Hn].
  eexists _, _. split; [reflexivity|].
  split; [exact Hn|]. split; [|exact Hs].
  apply forallb_forall. intros k Hk. apply in_map_iff in Hk.
  destruct Hk as [i [<- Hi]]. unfold nan_positions in Hi.
  apply filter_In in Hi. exact (proj2 Hi).
Qed.

Lemma sort_values_singleton {A : Type} (kind : argsort_kind)
  (by_ : A -> float) (ascending : bool) (r : A) :
  sort_values kind by_ ascending [r] = [r].
Proof.
  apply Permutation_length_1_inv. symmetry. apply sort_values_perm.
Qed.

(** ** sort_values on several columns *)

Section SortValuesLexFacts.

Context {A K : Type} `{OrdLaws K}.
Variable by_ : A -> K.

Lemma le_by_total (x y : A) : le_by by_ x y = true \/ le_by by_ y x = true.
Proof.
  unfold le_by. rewrite (cmp_antisym (by_ x) (by_ y)).
  destruct (cmp (by_ x) (by_ y)); simpl; auto.
Qed.

Lemma le_by_trans (x y z : A) :
  le_by by_ x y = true -> le_by by_ y z = true -> le_by by_ x z = true.
Proof.
  unfold le_by.
  destruct (cmp (by_ x) (by_ y)) eqn:Hxy; try discriminate;
    destruct (cmp (by_ y) (by_ z)) eqn:Hyz; try discriminate; intros _ _.
  - apply cmp_eq in Hxy, Hyz. rewrite Hxy, Hyz, cmp_refl. reflexivity.
  - apply cmp_eq in Hxy. rewrite Hxy, Hyz. reflexivity.
  - apply cmp_eq in Hyz. rewrite <- Hyz, Hxy. reflexivity.
  - rewrite (cmp_lt_trans _ _ _ Hxy Hyz). reflexivity.
Qed.

Lemma sort_values_lex_perm (rows : list A) :
  Permutation (sort_values_lex by_ rows) rows.
Proof. apply insertion_sort_perm. Qed.

Lemma sort_values_lex_sorted (rows : list A) :
  StronglySorted (fun x y => le_by by_ x y = true)
    (sort_values_lex by_ rows).
Proof.
  apply insertion_sort_sorted; [apply le_by_total | apply le_by_trans].
Qed.


(** Rows whose keys already ascend strictly are left as they are. *)
Lemma sort_values_lex_ascending (rows : list A) :
  StronglySorted key_lt (map by_ rows) ->
  sort_values_lex by_ rows = rows.
Proof.
  unfold sort_values_lex.
  induction rows as [|x rows IH]; simpl; intros Hs.
  - reflexivity.
  - inversion Hs as [|? ? Hs' Hx]; subst.
    rewrite IH by exact Hs'.
    destruct rows as [|y rows]; simpl.
    + reflexivity.
    + inversion Hx as [|? ? Hxy _]; subst.
      unfold le_by. unfold key_lt in Hxy. now rewrite Hxy.
Qed.

End SortValuesLexFacts.

(** ** Joins *)

Section MergeFacts.

Context {L R KL KR : Type}.
Variable eqb : KL -> KR -> bool.
Variable left_on : L -> KL.
Variable right_on : R -> KR.

(** The inner join holds the pairs of a left and a right row with
    equal keys, and nothing else. *)
Lemma merge_In (left : list L) (right : list R) (l : L) (r : R) :
  In (l, r) (merge eqb left_on right_on left right)
  <-> In l left /\ In r right /\ eqb (left_on l) (right_on r) = true.
Proof.
  unfold merge, matches. rewrite in_flat_map. split.
  - intros [l' [Hl Hin]]. apply in_map_iff in Hin.
    destruct Hin as [r' [[= <- <-] Hr]]. apply filter_In in Hr.
    tauto.
  - intros [Hl [Hr He]]. exists l. split; [exact Hl|].
    apply in_map. apply filter_In. tauto.
Qed.

(** A left row without a match is in no pair of the inner join. *)
Lemma merge_drops_unmatched (left : list L) (right : list R) (l : L) :
  (forall r, In r right -> eqb (left_on l) (right_on r) = false) ->
  forall j, In j (merge eqb left_on right_on left right) -> fst j <> l.
Proof.
  intros Hno [l' r] Hin Heq. simpl in Heq. subst l'.
  apply merge_In in Hin. destruct Hin as [_ [Hr He]].
  rewrite (Hno r Hr) in He. discriminate.
Qed.

(** The left join keeps every left row: with each of its matches, or
    once with nothing when it has none. *)
Lemma merge_left_In (left : list L) (right : list R) (l : L)
  (r : option R) :
  In (l, r) (merge_left eqb left_on right_on left right)
  <-> In l left
      /\ match r with
         | Some r => In r right /\ eqb (left_on l) (right_on r) = true
         | None => matches eqb left_on right_on right l = []
         end.
Proof.
  unfold merge_left. rewrite in_flat_map. split.
  - intros [l' [Hl Hin]].
    destruct (matches eqb left_on right_on right l') as [|r0 rs] eqn:Hm.
    + destruct Hin as [[= <- <-] | []]. tauto.
    + apply in_map_iff in Hin. destruct Hin as [r' [[= <- <-] Hr]].
      split; [exact Hl|]. rewrite <- Hm in Hr. unfold matches in Hr.
      apply filter_In in Hr. exact Hr.
  - intros [Hl Hr]. exists l. split; [exact Hl|].
    destruct r as [r|].
    + assert (In r (matches eqb left_on right_on right l)) as Hin.
      { unfold matches. apply filter_In. exact Hr. }
      destruct (matches eqb left_on right_on right l) as [|r0 rs].
      * contradiction.
      * now apply (in_map (fun r => (l, Some r))).
    + rewrite Hr. now left.
Qed.

Lemma merge_left_keeps (left : list L) (right : list R) (l : L) :
  In l left ->
  exists r, In (l, r) (merge_left eqb left_on right_on left right).
Proof.
  intros Hl.
  destruct (matches eqb left_on right_on right l) as [|r0 rs] eqn:Hm.
  - exists None. apply merge_left_In. now split.
  - exists (Some r0). apply merge_left_In. split; [exact Hl|].
    assert (In r0 (matches eqb left_on right_on right l)) as Hin
      by (rewrite Hm; now left).
    unfold matches in Hin. apply filter_In in Hin. exact Hin.
Qed.

End MergeFacts.

(** ** A view: one row per group *)

Section ViewFacts.

Context {J K V : Type} `{OrdLaws K}.
Variable by_ : J -> option K.
Variable row : K * list J -> V.
Variable key : V -> K.
Hypothesis key_row : forall g, key (row g) = fst g.

Variable joined : list J.

Let view0 : list V := map row (groupby by_ joined).

Lemma view_keys : map key view0 = keys_of (groupby by_ joined).
Proof.
  unfold view0, keys_of. rewrite map_map. apply map_ext.
  intros g. apply key_row.
Qed.

Lemma view_keys_sorted : StronglySorted key_lt (map key view0).
Proof. rewrite view_keys. apply groupby_sorted. Qed.

Variable view : list V.
Hypothesis view_perm : Permutation view view0.

Lemma view_NoDup : NoDup (map key view).
Proof.
  apply (Permutation_NoDup
           (Permutation_sym (Permutation_map key view_perm))).
  rewrite view_keys. apply groupby_NoDup.
Qed.

Lemma view_row (r : V) :
  In r view ->
  let rows := filter (in_group by_ (key r)) joined in
  r = row (key r, rows) /\ rows <> [].
Proof.
  intros Hin. apply (Permutation_in _ view_perm) in Hin.
  unfold view0 in Hin. apply in_map_iff in Hin.
  destruct Hin as [[k rs] [<- Hg]]. rewrite key_row. simpl.
  destruct (groupby_In by_ k rs joined Hg) as [-> Hne].
  now split.
Qed.

Lemma view_key_iff (k : K) :
  In k (map key view) <-> exists j, In j joined /\ by_ j = Some k.
Proof.
  split.
  - intros Hin. apply in_map_iff in Hin. destruct Hin as [r [<- Hr]].
    destruct (view_row r Hr) as [_ Hne].
    destruct (filter (in_group by_ (key r)) joined) as [|j rest] eqn:Hf.
    + now contradiction Hne.
    + assert (In j (filter (in_group by_ (key r)) joined)) as Hj
        by (rewrite Hf; now left).
      apply filter_In in Hj. destruct Hj as [Hj Hg].
      exists j. split; [exact Hj | now apply in_group_iff].
  - intros [j [Hj Hk]].
    apply (Permutation_in _ (Permutation_sym
                               (Permutation_map key view_perm))).
    rewrite view_keys. unfold keys_of.
    apply (in_map fst _ _ (groupby_covers by_ k j joined Hj Hk)).
Qed.

End ViewFacts.

(** ** int64 sums *)

Definition total (values : list Z) : Z := fold_right Z.add 0 values.

Lemma wrap64_add_l (a b : Z) : wrap64 (wrap64 a + b) = wrap64 (a + b).
Proof.
  unfold wrap64.
  replace ((a + 2 ^ 63) mod 2 ^ 64 - 2 ^ 63 + b + 2 ^ 63)
    with ((a + 2 ^ 63) mod 2 ^ 64 + b) by lia.
  rewrite Zplus_mod_idemp_l. f_equal. f_equal. lia.
Qed.

Lemma wrap64_add_r (a b : Z) : wrap64 (a + wrap64 b) = wrap64 (a + b).
Proof. rewrite (Z.add_comm a), wrap64_add_l. f_equal. lia. Qed.

Lemma wrap64_small (z : Z) :
  min_int64 <= z <= max_int64 -> wrap64 z = z.
Proof.
  unfold wrap64, min_int64, max_int64. intros Hz.
  rewrite Z.mod_small; lia.
Qed.

(** The int64 sum of a column is its exact sum, wrapped once. *)
Lemma agg_sum_int_total (values : list Z) :
  agg_sum_int values = wrap64 (total values).
Proof.
  unfold agg_sum_int.
  change 0 with (wrap64 0) at 1.
  replace (total values) with (0 + total values) by lia.
  generalize 0 as a. induction values as [|v values IH]; intros a; simpl.
  - f_equal. lia.
  - rewrite wrap64_add_l, IH. f_equal. lia.
Qed.

Lemma total_perm (a b : list Z) : Permutation a b -> total a = total b.
Proof.
  induction 1; simpl; lia.
Qed.

Lemma total_app (a b : list Z) : total (a ++ b) = total a + total b.
Proof. induction a as [|x a IH]; simpl; lia. Qed.

Lemma wrap64_total_wrapped (values : list Z) :
  wrap64 (total (map wrap64 values)) = wrap64 (total values).
Proof.
  induction values as [|v values IH]; simpl.
  - reflexivity.
  - rewrite wrap64_add_l. rewrite <- wrap64_add_r, IH, wrap64_add_r.
    reflexivity.
Qed.

Lemma abs_total (values : list Z) :
  Z.abs (total values) <= total (map Z.abs values).
Proof. induction values as [|v values IH]; simpl; lia. Qed.

Lemma total_abs_nonneg (values : list Z) : 0 <= total (map Z.abs values).
Proof. induction values as [|v values IH]; simpl; lia. Qed.

(** ** The sales summary view *)

Definition summary_key (r : Gold.SalesSummary.row) : Z * string * string :=
  (Gold.SalesSummary.ProductKey r, Gold.SalesSummary.ProductName r,
   Gold.SalesSummary.ModelName r).

(** The inner join of the silver sales and product tables. *)
Definition sales_products (sales_df : list Silver.Sales.row)
  (products_df : list Silver.Product.row)
  : list (Silver.Sales.row * Silver.Product.row) :=
  merge Z.eqb Silver.Sales.ProductKey Silver.Product.ProductKey
    sales_df products_df.

Definition quantity {P : Type} (j : Silver.Sales.row * P) : Z :=
  Silver.Sales.OrderQuantity (fst j).
Definition amount {P : Type} (j : Silver.Sales.row * P) : float :=
  Silver.Sales.SalesAmount (fst j).
Definition unit_price {P : Type} (j : Silver.Sales.row * P) : float :=
  Silver.Sales.UnitPrice (fst j).

Definition gold_written (w : world) (name : string) (f : Gold.file) : world :=
  mkWorld (Data w) (silver w) (put (gold w) name f) (visualizations w)
    (stdout w).

Lemma create_sales_summary_runs (kind : argsort_kind) (w : world)
  (sales_df : list Silver.Sales.row) (products_df : list Silver.Product.row) :
  silver w "AdventureWorks_Sales.parquet" = Some (Silver.Sales sales_df) ->
  silver w "AdventureWorks_Products.parquet"
  = Some (Silver.Products products_df) ->
  let sales_summary :=
    sort_values kind Gold.SalesSummary.TotalSales false
      (map silver_to_gold.sales_summary_row
         (groupby silver_to_gold.product_group
            (sales_products sales_df products_df))) in
  silver_to_gold.create_sales_summary kind w
  = (Ok sales_summary,
     gold_written w "sales_summary.parquet" (Gold.SalesSummary sales_summary)).
Proof.
  intros Hs Hp. unfold silver_to_gold.create_sales_summary, bind,
    read_parquet. rewrite Hs. simpl. rewrite Hp. reflexivity.
Qed.

Lemma summary_key_row
  (g : Z * string * string * list (Silver.Sales.row * Silver.Product.row)) :
  summary_key (silver_to_gold.sales_summary_row g) = fst g.
Proof. destruct g as [[[k n] m] rows]. reflexivity. Qed.

(** The bronze files of the example: two order lines of product 1, of
    quantities 2 and 3, the product priced 10. *)
Definition example_world : world :=
  let line (qty : Z) :=
    Bronze.Sales.mk (CsvDate 0) (CsvDate 0) (Some "SO45080"%string)
      (PyInt 1) (PyInt 11000) (PyInt 1) (PyInt 1) (PyInt qty) in
  let helmet :=
    Bronze.Product.mk (PyInt 1) (F64.of_int 31) (Some "Helmet"%string)
      (Some "Sport-100"%string) (F64.of_int 10) in
  mkWorld
    (put (put empty_dir "AdventureWorks_Sales_2015.csv"
            (Bronze.Sales [line 2; line 3]))
       "AdventureWorks_Products.csv" (Bronze.Products [helmet]))
    empty_dir empty_dir [] [].

Ltac run_stage :=
  match goal with
  | |- context [match ?m ?w with pair _ _ => _ end] =>
      let E := fresh "E" in
      destruct (m w) as [[?|?] ?] eqn:E; vm_compute in E;
      inversion E; subst; clear E
  end.

(** C1: the sales summary has one row per (ProductKey, ProductName,
    ModelName) of the inner join of sales and products; the row carries
    the int64 sum of the group's OrderQuantity, the sum of its
    SalesAmount, the mean of its UnitPrice and the number of its joined
    rows; the rows are ordered by TotalSales descending.  The two order
    lines of the example (quantities 2 and 3 at price 10) give the row
    1 -> 5, 50, 10, 2. *)
Theorem sales_summary_view (kind : argsort_kind) :
  (forall (w : world) (sales_df : list Silver.Sales.row)
          (products_df : list Silver.Product.row),
      silver w "AdventureWorks_Sales.parquet" = Some (Silver.Sales sales_df) ->
      silver w "AdventureWorks_Products.parquet"
      = Some (Silver.Products products_df) ->
      let joined_df := sales_products sales_df products_df in
      exists sales_summary w',
        silver_to_gold.create_sales_summary kind w = (Ok sales_summary, w')
        /\ gold w' "sales_summary.parquet"
           = Some (Gold.SalesSummary sales_summary)
        /\ NoDup (map summary_key sales_summary)
        /\ (forall k,
               In k (map summary_key sales_summary)
               <-> exists j, In j joined_df
                             /\ silver_to_gold.product_group j = Some k)
        /\ (forall r,
               In r sales_summary ->
               let rows :=
                 filter (in_group silver_to_gold.product_group (summary_key r))
                   joined_df in
               rows <> []
               /\ Gold.SalesSummary.TotalQuantity r
                  = wrap64 (total (map quantity rows))
               /\ Gold.SalesSummary.TotalSales r = agg_sum (map amount rows)
               /\ Gold.SalesSummary.AvgUnitPrice r
                  = agg_mean (map unit_price rows)
               /\ Gold.SalesSummary.OrderCount r = Z.of_nat (length rows))
        /\ descending_nan_last
             (map Gold.SalesSummary.TotalSales sales_summary))
  /\ fst ((bronze_to_silver.process_product_data ;;;
           bronze_to_silver.process_sales_data ;;;
           silver_to_gold.create_sales_summary kind) example_world)
     = Ok [Gold.SalesSummary.mk 1 "Helmet" "Sport-100"
             5 (F64.of_int 50) (F64.of_int 10) 2].
Proof.
  split.
  - intros w sales_df products_df Hs Hp joined_df.
    eexists _, _. split; [apply (create_sales_summary_runs kind w _ _ Hs Hp)|].
    set (view := sort_values kind _ false _).
    assert (Permutation view
              (map silver_to_gold.sales_summary_row
                 (groupby silver_to_gold.product_group joined_df))) as Hperm
      by apply sort_values_perm.
    split; [|split; [|split; [|split]]].
    + unfold gold_written, put. simpl. reflexivity.
    + exact (view_NoDup _ _ _ summary_key_row _ _ Hperm).
    + exact (view_key_iff _ _ _ summary_key_row _ _ Hperm).
    + intros r Hr rows.
      destruct (view_row _ _ _ summary_key_row _ _ Hperm r Hr) as [Hrow Hne].
      fold rows in Hrow, Hne. split; [exact Hne|].
      rewrite Hrow. destruct (summary_key r) as [[k n] m]. simpl.
      rewrite agg_sum_int_total. unfold agg_count.
      rewrite length_map. repeat split; reflexivity.
    + apply sort_values_descending.
  - unfold bind. run_stage. run_stage.
    erewrite create_sales_summary_runs by reflexivity.
    simpl fst. f_equal.
    match goal with
    | |- sort_values _ _ _ ?l = _ =>
        let l' := eval vm_compute in l in change l with l'
    end.
    rewrite sort_values_singleton. vm_compute. reflexivity.
Qed.

Lemma filter_all {A : Type} (f : A -> bool) (l : list A) :
  (forall x, f x = true) -> filter f l = l.
Proof.
  intros Hf. induction l as [|x l IH]; simpl.
  - reflexivity.
  - now rewrite Hf, IH.
Qed.

Lemma sum_of_total {R : Type} (measure : R -> Z) (rs : list R) :
  sum_of measure rs = total (map measure rs).
Proof. reflexivity. Qed.

Lemma sum_of_groups_total {R K : Type} (measure : R -> Z)
  (gs : list (K * list R)) :
  sum_of_groups measure gs
  = total (map (fun g => total (map measure (snd g))) gs).
Proof. reflexivity. Qed.

Lemma group_sum_le_total {R K : Type} (measure : R -> Z)
  (gs : list (K * list R)) (g : K * list R) :
  (forall r, 0 <= measure r) ->
  In g gs -> sum_of measure (snd g) <= sum_of_groups measure gs.
Proof.
  intros Hpos.
  assert (forall rs, 0 <= sum_of measure rs) as Hrs.
  { induction rs as [|r rs IH]; unfold sum_of in *; simpl.
    - lia.
    - specialize (Hpos r). lia. }
  induction gs as [|g0 gs IH]; simpl; intros Hin.
  - contradiction.
  - unfold sum_of_groups in *. simpl.
    assert (0 <= fold_right Z.add 0
                   (map (fun g1 => sum_of measure (snd g1)) gs)) as Hrest.
    { clear IH Hin. induction gs as [|g1 gs IH]; simpl.
      - lia.
      - specialize (Hrs (snd g1)). lia. }
    destruct Hin as [-> | Hin].
    + lia.
    + specialize (IH Hin). specialize (Hrs (snd g0)). lia.
Qed.

(** The quantities summed group by group are the quantities of the join:
    no row of the join is without a product group. *)
Lemma product_groups_total
  (joined_df : list (Silver.Sales.row * Silver.Product.row))
  (measure : Silver.Sales.row * Silver.Product.row -> Z) :
  sum_of_groups measure (groupby silver_to_gold.product_group joined_df)
  = total (map measure joined_df).
Proof.
  unfold groupby. rewrite sum_of_groups_fold.
  rewrite filter_all by reflexivity.
  unfold sum_of_groups, sum_of. simpl. reflexivity.
Qed.

(** Silver tables for the examples: three order lines of two products
    and two customers, one line of a product the table does not have. *)
Definition silver_line (key customer qty : Z) (price : float)
  : Silver.Sales.row :=
  let SalesAmount := F64.mul (F64.of_int qty) price in
  let TotalProductCost := F64.mul SalesAmount F64.lit_0_7 in
  let Profit := F64.sub SalesAmount TotalProductCost in
  Silver.Sales.mk (Some 1420070400000000000) (Some 1420070400000000000)
    (Some "SO45080"%string) key customer (PyInt 1) (PyInt 1) qty
    price SalesAmount TotalProductCost Profit (F64.div Profit SalesAmount).

Definition silver_sales : list Silver.Sales.row :=
  [ silver_line 1 11000 2 (F64.of_int 10);
    silver_line 2 11001 1 (F64.of_int 25);
    silver_line 1 11001 3 (F64.of_int 10);
    silver_line 9 11000 4 F64.nan ].

Definition silver_products : list Silver.Product.row :=
  [ Silver.Product.mk 1 (F64.of_int 31) "Helmet" "Sport-100" (F64.of_int 10);
    Silver.Product.mk 2 (F64.of_int 31) "Cap" "Cycling Cap" (F64.of_int 25) ].

Definition silver_customers : list Silver.Customer.row :=
  [ Silver.Customer.mk 11000 (Some "Jon"%string) (Some "Yang"%string)
      "M" "M";
    Silver.Customer.mk 11001 (Some "Eugene"%string) (Some "Huang"%string)
      "M" "Unknown" ].

Definition silver_calendar : list Silver.Calendar.row :=
  [ Silver.Calendar.mk (Some 1420070400000000000) (Some 2015) (Some 1)
      (Some 1) (Some 3) (Some "Thursday"%string) (Some "January"%string)
      (Some 1) ].

Definition silver_world : world :=
  mkWorld empty_dir
    (put (put (put (put empty_dir
       "AdventureWorks_Sales.parquet" (Silver.Sales silver_sales))
       "AdventureWorks_Products.parquet" (Silver.Products silver_products))
       "AdventureWorks_Customers.parquet" (Silver.Customers silver_customers))
       "AdventureWorks_Calendar.parquet" (Silver.Calendar silver_calendar))
    empty_dir [] [].

Lemma sales_summary_view_witness :
  silver silver_world "AdventureWorks_Sales.parquet"
  = Some (Silver.Sales silver_sales)
  /\ silver silver_world "AdventureWorks_Products.parquet"
     = Some (Silver.Products silver_products)
  /\ exists sales_summary w',
       silver_to_gold.create_sales_summary insertion_kind silver_world
       = (Ok sales_summary, w')
       /\ map summary_key sales_summary
          = [(1, "Helmet"%string, "Sport-100"%string);
             (2, "Cap"%string, "Cycling Cap"%string)]
       /\ map Gold.SalesSummary.TotalQuantity sales_summary = [5; 1]
       /\ map Gold.SalesSummary.TotalSales sales_summary
          = [F64.of_int 50; F64.of_int 25]
       /\ map Gold.SalesSummary.OrderCount sales_summary = [2; 1].
Proof.
  split; [reflexivity|]. split; [reflexivity|].
  destruct (proj1 (sales_summary_view insertion_kind) silver_world
              silver_sales silver_products eq_refl eq_refl)
    as [view [w' [Hrun _]]].
  exists view, w'. split; [exact Hrun|].
  vm_compute in Hrun. inversion Hrun. repeat split; reflexivity.
Defined.

(** C6: the TotalQuantity of the groups add up to the OrderQuantity of the
    rows of the inner join of sales and products: as int64 sums always,
    and as exact sums when the quantities do not overflow int64. *)
Theorem sales_summary_total_quantity (kind : argsort_kind) (w : world)
  (sales_df : list Silver.Sales.row) (products_df : list Silver.Product.row) :
  silver w "AdventureWorks_Sales.parquet" = Some (Silver.Sales sales_df) ->
  silver w "AdventureWorks_Products.parquet"
  = Some (Silver.Products products_df) ->
  let joined_df := sales_products sales_df products_df in
  exists sales_summary w',
    silver_to_gold.create_sales_summary kind w = (Ok sales_summary, w')
    /\ wrap64 (total (map Gold.SalesSummary.TotalQuantity sales_summary))
       = wrap64 (total (map quantity joined_df))
    /\ (total (map Z.abs (map quantity joined_df)) <= max_int64 ->
        total (map Gold.SalesSummary.TotalQuantity sales_summary)
        = total (map quantity joined_df)).
Proof.
  intros Hs Hp joined_df.
  eexists _, _. split; [apply (create_sales_summary_runs kind w _ _ Hs Hp)|].
  fold joined_df.
  set (groups := groupby silver_to_gold.product_group joined_df).
  rewrite (total_perm _ _
             (Permutation_map Gold.SalesSummary.TotalQuantity
                (sort_values_perm kind Gold.SalesSummary.TotalSales false
                   (map silver_to_gold.sales_summary_row groups)))).
  assert (map Gold.SalesSummary.TotalQuantity
            (map silver_to_gold.sales_summary_row groups)
          = map wrap64 (map (fun g => total (map quantity (snd g))) groups))
    as Hq.
  { rewrite !map_map. apply map_ext. intros [[[k n] m] rows]. simpl.
    apply agg_sum_int_total. }
  rewrite Hq.
  pose proof (product_groups_total joined_df quantity) as Htot.
  rewrite sum_of_groups_total in Htot. fold groups in Htot.
  split.
  - rewrite wrap64_total_wrapped. now rewrite Htot.
  - intros Hbound. rewrite <- Htot. f_equal.
    rewrite <- (map_id (map _ groups)) at 2.
    apply map_ext_in. intros x Hx. apply in_map_iff in Hx.
    destruct Hx as [g [<- Hg]]. apply wrap64_small.
    pose proof (product_groups_total joined_df (fun j => Z.abs (quantity j)))
      as Habs.
    fold groups in Habs. rewrite <- (map_map quantity Z.abs) in Habs.
    pose proof (group_sum_le_total (fun j => Z.abs (quantity j)) groups g
                  (fun j => Z.abs_nonneg _) Hg) as Hle.
    rewrite sum_of_total, <- (map_map quantity Z.abs) in Hle.
    pose proof (abs_total (map quantity (snd g))) as Hg_abs.
    unfold min_int64, max_int64 in *. lia.
Qed.

Lemma sales_summary_total_quantity_witness :
  silver silver_world "AdventureWorks_Sales.parquet"
  = Some (Silver.Sales silver_sales)
  /\ silver silver_world "AdventureWorks_Products.parquet"
     = Some (Silver.Products silver_products)
  /\ total (map Z.abs (map quantity (sales_products silver_sales silver_products)))
     <= max_int64
  /\ exists sales_summary w',
       silver_to_gold.create_sales_summary insertion_kind silver_world
       = (Ok sales_summary, w')
       /\ total (map Gold.SalesSummary.TotalQuantity sales_summary)
          = total (map quantity (sales_products silver_sales silver_products)).
Proof.
  split; [reflexivity|]. split; [reflexivity|].
  split; [vm_compute; discriminate|].
  destruct (sales_summary_total_quantity insertion_kind silver_world
              silver_sales silver_products eq_refl eq_refl)
    as [view [w' [Hrun [_ Hexact]]]].
  exists view, w'. split; [exact Hrun|].
  apply Hexact. vm_compute. discriminate.
Defined.

(** ** The monthly sales view *)

Definition sales_calendar (sales_df : list Silver.Sales.row)
  (calendar_df : list Silver.Calendar.row)
  : list (Silver.Sales.row * Silver.Calendar.row) :=
  merge silver_to_gold.datetime_eqb Silver.Sales.OrderDate
    Silver.Calendar.Date sales_df calendar_df.

(** (Year, Month) before (Year, Month). *)
Definition year_month_lt (a b : Z * Z) : Prop :=
  fst a < fst b \/ (fst a = fst b /\ snd a < snd b).

Lemma key_lt_year_month (a b : Z * Z) : key_lt a b -> year_month_lt a b.
Proof.
  destruct a as [y1 m1], b as [y2 m2].
  unfold key_lt, year_month_lt, cmp, Ord_prod, cmp, Ord_Z. simpl.
  destruct (Z.compare_spec y1 y2); try discriminate.
  - intros Hm. rewrite Z.compare_lt_iff in Hm. lia.
  - intros _. lia.
Qed.

Lemma StronglySorted_impl {A : Type} (R S : A -> A -> Prop) (l : list A) :
  (forall x y, R x y -> S x y) -> StronglySorted R l -> StronglySorted S l.
Proof.
  intros HRS. induction 1 as [|x l Hl IH Hx]; constructor.
  - exact IH.
  - eapply Forall_impl; [|exact Hx]. intros y. apply HRS.
Qed.

Lemma create_time_series_analysis_runs (w : world)
  (sales_df : list Silver.Sales.row)
  (calendar_df : list Silver.Calendar.row) :
  silver w "AdventureWorks_Sales.parquet" = Some (Silver.Sales sales_df) ->
  silver w "AdventureWorks_Calendar.parquet"
  = Some (Silver.Calendar calendar_df) ->
  let monthly_sales :=
    sort_values_lex silver_to_gold.year_month
      (map silver_to_gold.monthly_sales_row
         (groupby silver_to_gold.month_group
            (sales_calendar sales_df calendar_df))) in
  silver_to_gold.create_time_series_analysis w
  = (Ok monthly_sales,
     gold_written w "monthly_sales.parquet" (Gold.MonthlySales monthly_sales)).
Proof.
  intros Hs Hc. unfold silver_to_gold.create_time_series_analysis, bind,
    read_parquet. rewrite Hs. simpl. rewrite Hc. reflexivity.
Qed.

Lemma year_month_row
  (g : Z * Z * list (Silver.Sales.row * Silver.Calendar.row)) :
  silver_to_gold.year_month (silver_to_gold.monthly_sales_row g) = fst g.
Proof. destruct g as [[y m] rows]. reflexivity. Qed.

(** The sort by (Year, Month) finds the groups already in that order. *)
Lemma monthly_sales_sorted_as_grouped
  (joined_df : list (Silver.Sales.row * Silver.Calendar.row)) :
  sort_values_lex silver_to_gold.year_month
    (map silver_to_gold.monthly_sales_row
       (groupby silver_to_gold.month_group joined_df))
  = map silver_to_gold.monthly_sales_row
      (groupby silver_to_gold.month_group joined_df).
Proof.
  apply sort_values_lex_ascending.
  apply (view_keys_sorted silver_to_gold.month_group
           silver_to_gold.monthly_sales_row silver_to_gold.year_month
           year_month_row).
Qed.

(** C5: the monthly sales view has exactly one row for each (Year, Month)
    that a row of the inner join of sales and calendar (OrderDate = Date)
    carries; its rows ascend strictly by (Year, Month); and the OrderCount
    of a row is the number of joined rows of its month. *)
Theorem monthly_sales_view (w : world) (sales_df : list Silver.Sales.row)
  (calendar_df : list Silver.Calendar.row) :
  silver w "AdventureWorks_Sales.parquet" = Some (Silver.Sales sales_df) ->
  silver w "AdventureWorks_Calendar.parquet"
  = Some (Silver.Calendar calendar_df) ->
  let joined_df := sales_calendar sales_df calendar_df in
  exists monthly_sales w',
    silver_to_gold.create_time_series_analysis w = (Ok monthly_sales, w')
    /\ gold w' "monthly_sales.parquet" = Some (Gold.MonthlySales monthly_sales)
    /\ NoDup (map silver_to_gold.year_month monthly_sales)
    /\ (forall k,
           In k (map silver_to_gold.year_month monthly_sales)
           <-> exists j, In j joined_df
                         /\ silver_to_gold.month_group j = Some k)
    /\ StronglySorted year_month_lt
         (map silver_to_gold.year_month monthly_sales)
    /\ (forall r,
           In r monthly_sales ->
           Gold.MonthlySales.OrderCount r
           = Z.of_nat
               (length
                  (filter
                     (in_group silver_to_gold.month_group
                        (silver_to_gold.year_month r))
                     joined_df))).
Proof.
  intros Hs Hc joined_df.
  eexists _, _.
  split; [apply (create_time_series_analysis_runs w _ _ Hs Hc)|].
  fold joined_df. rewrite monthly_sales_sorted_as_grouped.
  set (view := map _ (groupby _ joined_df)).
  assert (Permutation view view) as Hperm by reflexivity.
  split; [|split; [|split; [|split]]].
  - unfold gold_written, put. simpl. reflexivity.
  - exact (view_NoDup _ _ _ year_month_row _ _ Hperm).
  - exact (view_key_iff _ _ _ year_month_row _ _ Hperm).
  - apply (StronglySorted_impl key_lt); [apply key_lt_year_month|].
    apply (view_keys_sorted silver_to_gold.month_group
             silver_to_gold.monthly_sales_row silver_to_gold.year_month
             year_month_row).
  - intros r Hr.
    destruct (view_row _ _ _ year_month_row _ _ Hperm r Hr) as [Hrow _].
    rewrite Hrow at 1. destruct (silver_to_gold.year_month r) as [y m].
    simpl. unfold agg_count. now rewrite length_map.
Qed.

(** Four order lines of one order number in January 2015 count as four. *)
Lemma monthly_sales_view_witness :
  silver silver_world "AdventureWorks_Sales.parquet"
  = Some (Silver.Sales silver_sales)
  /\ silver silver_world "AdventureWorks_Calendar.parquet"
     = Some (Silver.Calendar silver_calendar)
  /\ map Silver.Sales.OrderNumber silver_sales
     = repeat (Some "SO45080"%string) 4
  /\ exists monthly_sales w',
       silver_to_gold.create_time_series_analysis silver_world
       = (Ok monthly_sales, w')
       /\ map silver_to_gold.year_month monthly_sales = [(2015, 1)]
       /\ map Gold.MonthlySales.OrderCount monthly_sales = [4].
Proof.
  split; [reflexivity|]. split; [reflexivity|]. split; [reflexivity|].
  destruct (monthly_sales_view silver_world silver_sales silver_calendar
              eq_refl eq_refl) as [view [w' [Hrun _]]].
  exists view, w'. split; [exact Hrun|].
  vm_compute in Hrun. inversion Hrun. split; reflexivity.
Defined.

(** ** The customer insights view *)

Definition insights_key (r : Gold.CustomerInsights.row)
  : Z * string * string * string * string :=
  (Gold.CustomerInsights.CustomerKey r, Gold.CustomerInsights.FirstName r,
   Gold.CustomerInsights.LastName r, Gold.CustomerInsights.Gender r,
   Gold.CustomerInsights.MaritalStatus r).

Definition sales_customers (sales_df : list Silver.Sales.row)
  (customers_df : list Silver.Customer.row)
  : list (Silver.Sales.row * Silver.Customer.row) :=
  merge Z.eqb Silver.Sales.CustomerKey Silver.Customer.CustomerKey
    sales_df customers_df.

Lemma create_customer_insights_runs (kind : argsort_kind) (w : world)
  (customers_df : list Silver.Customer.row)
  (sales_df : list Silver.Sales.row) :
  silver w "AdventureWorks_Customers.parquet"
  = Some (Silver.Customers customers_df) ->
  silver w "AdventureWorks_Sales.parquet" = Some (Silver.Sales sales_df) ->
  let customer_insights :=
    sort_values kind Gold.CustomerInsights.TotalSpend false
      (map silver_to_gold.customer_insights_row
         (groupby silver_to_gold.customer_group
            (sales_customers sales_df customers_df))) in
  silver_to_gold.create_customer_insights kind w
  = (Ok customer_insights,
     gold_written w "customer_insights.parquet"
       (Gold.CustomerInsights customer_insights)).
Proof.
  intros Hc Hs. unfold silver_to_gold.create_customer_insights, bind,
    read_parquet. rewrite Hc. simpl. rewrite Hs. reflexivity.
Qed.

Lemma insights_key_row
  (g : Z * string * string * string * string
       * list (Silver.Sales.row * Silver.Customer.row)) :
  insights_key (silver_to_gold.customer_insights_row g) = fst g.
Proof. destruct g as [[[[[k f] l] s] m] rows]. reflexivity. Qed.

Definition not_nan (x : float) : bool := negb (F64.is_nan x).

(** The sum and the mean pass over the NaN entries. *)
Lemma kahan_skips_nan (sumx compensation : float) (values : list float) :
  kahan sumx compensation values
  = kahan sumx compensation (filter not_nan values).
Proof.
  revert sumx compensation.
  induction values as [|v values IH]; intros sumx compensation; simpl.
  - reflexivity.
  - unfold not_nan at 1. destruct (F64.is_nan v) eqn:Hv; simpl.
    + apply IH.
    + rewrite Hv. apply IH.
Qed.

Lemma filter_idem {A : Type} (f : A -> bool) (l : list A) :
  filter f (filter f l) = filter f l.
Proof.
  induction l as [|x l IH]; simpl.
  - reflexivity.
  - destruct (f x) eqn:Hx; simpl; [rewrite Hx|]; now rewrite ?IH.
Qed.

Lemma nobs_numbers (values : list float) :
  nobs values = Z.of_nat (length (filter not_nan values)).
Proof. reflexivity. Qed.

Lemma agg_sum_skips_nan (values : list float) :
  agg_sum values = agg_sum (filter not_nan values).
Proof. apply kahan_skips_nan. Qed.

Lemma agg_mean_skips_nan (values : list float) :
  agg_mean values = agg_mean (filter not_nan values).
Proof.
  unfold agg_mean. rewrite !nobs_numbers, filter_idem.
  now rewrite <- kahan_skips_nan.
Qed.

Lemma filter_all_forallb {A : Type} (f : A -> bool) (l : list A) :
  forallb f l = true -> filter f l = l.
Proof.
  induction l as [|x l IH]; simpl.
  - reflexivity.
  - intros Hall. apply andb_prop in Hall. destruct Hall as [Hx Hl].
    now rewrite Hx, IH.
Qed.

(** C9: in a row of the customer insights view, OrderCount counts every
    joined sales row of the customer, those of a null SalesAmount too,
    while TotalSpend and AvgOrderValue are the sum and the mean of the
    SalesAmounts that are not null; AvgOrderValue is TotalSpend divided
    by the number of those, which is OrderCount when no SalesAmount of the
    group is null.  In the example a customer with the amounts 20 and null
    has OrderCount 2, TotalSpend 20 and AvgOrderValue 20, not 10. *)
Theorem customer_insights_null_amounts :
  (forall (kind : argsort_kind) (w : world)
          (customers_df : list Silver.Customer.row)
          (sales_df : list Silver.Sales.row),
      silver w "AdventureWorks_Customers.parquet"
      = Some (Silver.Customers customers_df) ->
      silver w "AdventureWorks_Sales.parquet" = Some (Silver.Sales sales_df) ->
      let joined_df := sales_customers sales_df customers_df in
      exists customer_insights w',
        silver_to_gold.create_customer_insights kind w
        = (Ok customer_insights, w')
        /\ forall r,
            In r customer_insights ->
            let rows :=
              filter (in_group silver_to_gold.customer_group (insights_key r))
                joined_df in
            let numbers := filter not_nan (map amount rows) in
            Gold.CustomerInsights.OrderCount r = Z.of_nat (length rows)
            /\ Gold.CustomerInsights.TotalSpend r = agg_sum numbers
            /\ Gold.CustomerInsights.AvgOrderValue r = agg_mean numbers
            /\ Gold.CustomerInsights.AvgOrderValue r
               = (if (length numbers =? 0)%nat then F64.nan
                  else F64.div (Gold.CustomerInsights.TotalSpend r)
                         (F64.of_int (Z.of_nat (length numbers))))
            /\ (forallb not_nan (map amount rows) = true ->
                Gold.CustomerInsights.AvgOrderValue r
                = F64.div (Gold.CustomerInsights.TotalSpend r)
                    (F64.of_int (Gold.CustomerInsights.OrderCount r))))
  /\ exists r w',
      In r silver_sales
      /\ Silver.Sales.CustomerKey r = 11000
      /\ F64.is_nan (Silver.Sales.SalesAmount r) = true
      /\ silver_to_gold.create_customer_insights insertion_kind silver_world
         = (Ok
              [ Gold.CustomerInsights.mk 11001 "Eugene" "Huang" "M" "Unknown"
                  (F64.of_int 55) 2
                  (F64.div (F64.of_int 55) (F64.of_int 2));
                Gold.CustomerInsights.mk 11000 "Jon" "Yang" "M" "M"
                  (F64.of_int 20) 2 (F64.of_int 20) ], w')
      /\ F64.div (F64.of_int 20) (F64.of_int 2) <> F64.of_int 20.
Proof.
  split.
  - intros kind w customers_df sales_df Hc Hs joined_df.
    eexists _, _.
    split; [apply (create_customer_insights_runs kind w _ _ Hc Hs)|].
    fold joined_df. intros r Hr rows numbers.
    destruct (view_row _ _ _ insights_key_row joined_df _
                (sort_values_perm kind Gold.CustomerInsights.TotalSpend false
                   _) r Hr) as [Hrow Hne].
    fold rows in Hrow, Hne.
    assert (Gold.CustomerInsights.OrderCount r = Z.of_nat (length rows)
            /\ Gold.CustomerInsights.TotalSpend r = agg_sum (map amount rows)
            /\ Gold.CustomerInsights.AvgOrderValue r
               = agg_mean (map amount rows)) as [Hcount [Hsum Hmean]].
    { rewrite Hrow. destruct (insights_key r) as [[[[k f] l] s] m]. simpl.
      unfold agg_count. rewrite length_map. repeat split; reflexivity. }
    rewrite agg_sum_skips_nan in Hsum. rewrite agg_mean_skips_nan in Hmean.
    fold numbers in Hsum, Hmean.
    assert (Gold.CustomerInsights.AvgOrderValue r
            = (if (length numbers =? 0)%nat then F64.nan
               else F64.div (Gold.CustomerInsights.TotalSpend r)
                      (F64.of_int (Z.of_nat (length numbers))))) as Hdiv.
    { rewrite Hmean, Hsum. unfold agg_mean, agg_sum.
      rewrite nobs_numbers.
      assert (filter not_nan numbers = numbers) as ->
        by apply filter_idem.
      destruct (length numbers) as [|n]; reflexivity. }
    repeat split; try assumption.
    intros Hall. rewrite Hdiv, Hcount.
    unfold numbers. rewrite (filter_all_forallb _ _ Hall), length_map.
    destruct rows as [|j rows']; [now contradiction Hne | reflexivity].
  - eexists (silver_line 9 11000 4 F64.nan), _.
    split; [right; right; right; left; reflexivity|].
    split; [reflexivity|]. split; [reflexivity|].
    split; [|vm_compute; discriminate].
    vm_compute. reflexivity.
Qed.

Lemma customer_insights_null_amounts_witness :
  silver silver_world "AdventureWorks_Customers.parquet"
  = Some (Silver.Customers silver_customers)
  /\ silver silver_world "AdventureWorks_Sales.parquet"
     = Some (Silver.Sales silver_sales)
  /\ exists customer_insights w',
       silver_to_gold.create_customer_insights insertion_kind silver_world
       = (Ok customer_insights, w')
       /\ map Gold.CustomerInsights.OrderCount customer_insights = [2; 2].
Proof.
  split; [reflexivity|]. split; [reflexivity|].
  destruct (proj1 customer_insights_null_amounts insertion_kind silver_world
              silver_customers silver_sales eq_refl eq_refl)
    as [view [w' [Hrun _]]].
  exists view, w'. split; [exact Hrun|].
  vm_compute in Hrun. inversion Hrun. reflexivity.
Defined.

(** ** The order of rows with equal sort keys *)










(** ** bronze_to_silver: the sales loader *)

Definition with_stdout (w : world) (lines : list string) : world :=
  mkWorld (Data w) (silver w) (gold w) (visualizations w) (stdout w ++ lines).

Lemma with_stdout_nil (w : world) : with_stdout w [] = w.
Proof. destruct w. unfold with_stdout. simpl. now rewrite app_nil_r. Qed.

Lemma with_stdout_app (w : world) (a b : list string) :
  with_stdout (with_stdout w a) b = with_stdout w (a ++ b).
Proof. unfold with_stdout. simpl. now rewrite app_assoc. Qed.

(** The yearly files that exist, in the order of [sales_files]. *)
Definition present_frames (files : list string) (w : world)
  : list (list Bronze.Sales.row) :=
  flat_map
    (fun file =>
       match Data w file with
       | Some (Bronze.Sales df) => [df]
       | _ => []
       end)
    files.

Definition processing_lines (files : list string) (w : world) : list string :=
  flat_map
    (fun file =>
       match Data w file with
       | Some _ => [("Processing " ++ file ++ "...")%string]
       | None => []
       end)
    files.

(** A yearly file is absent or holds a sales table. *)
Definition sales_or_absent (w : world) (file : string) : Prop :=
  Data w file = None \/ exists df, Data w file = Some (Bronze.Sales df).

Opaque String.append.

Lemma read_sales_files_ok (files : list string) (w : world) :
  Forall (sales_or_absent w) files ->
  bronze_to_silver.read_sales_files files w
  = (Ok (present_frames files w), with_stdout w (processing_lines files w)).
Proof.
  revert w. induction files as [|file files IH]; intros w Hall.
  - simpl. unfold ret. now rewrite with_stdout_nil.
  - inversion Hall as [|? ? Hfile Hrest]; subst.
    simpl. unfold bind at 1. unfold path_exists.
    destruct Hfile as [Hnone | [df Hdf]].
    + rewrite Hnone. simpl. now apply IH.
    + rewrite Hdf. unfold bind, print, read_csv. simpl. rewrite Hdf. simpl.
      change (mkWorld (Data w) (silver w) (gold w) (visualizations w)
                (stdout w ++ [("Processing " ++ file ++ "...")%string]))
        with (with_stdout w [("Processing " ++ file ++ "...")%string]).
      rewrite (IH (with_stdout w [("Processing " ++ file ++ "...")%string])).
      * unfold ret. rewrite with_stdout_app. reflexivity.
      * exact Hrest.
Qed.

Lemma read_sales_files_inv (files : list string) (w w1 : world)
  (all : list (list Bronze.Sales.row)) :
  bronze_to_silver.read_sales_files files w = (Ok all, w1) ->
  Forall (sales_or_absent w) files.
Proof.
  revert w w1 all. induction files as [|file files IH]; intros w w1 all Hrun.
  - constructor.
  - simpl in Hrun. unfold bind at 1 in Hrun. unfold path_exists in Hrun.
    destruct (Data w file) as [f|] eqn:Hfile.
    + unfold bind, print, read_csv in Hrun. simpl in Hrun.
      rewrite Hfile in Hrun.
      destruct f as [df|df|df]; simpl in Hrun; try discriminate.
      destruct (bronze_to_silver.read_sales_files files _)
        as [[rest|e] w2] eqn:Hrest; try discriminate.
      constructor.
      * right. now exists df.
      * exact (IH _ _ _ Hrest).
    + constructor; [now left|]. exact (IH _ _ _ Hrun).
Qed.

Lemma mapM_length {A B : Type} (f : A -> result B) (l : list A)
  (ys : list B) :
  mapM f l = Ok ys -> length ys = length l.
Proof.
  revert ys. induction l as [|x l IH]; simpl; intros ys Hm.
  - now inversion Hm.
  - destruct (f x) as [y|e]; simpl in Hm; try discriminate.
    destruct (mapM f l) as [ys'|e]; simpl in Hm; try discriminate.
    inversion Hm. simpl. now rewrite (IH ys').
Qed.

Lemma mapM_Forall2 {A B : Type} (f : A -> result B) (l : list A)
  (ys : list B) :
  mapM f l = Ok ys -> Forall2 (fun x y => f x = Ok y) l ys.
Proof.
  revert ys. induction l as [|x l IH]; simpl; intros ys Hm.
  - inversion Hm. constructor.
  - destruct (f x) as [y|e] eqn:Hx; simpl in Hm; try discriminate.
    destruct (mapM f l) as [ys'|e]; simpl in Hm; try discriminate.
    inversion Hm. constructor; [exact Hx | now apply IH].
Qed.


Lemma astype_int_length (col : list cell) (ints : list Z) :
  astype_int col = Ok ints -> length ints = length col.
Proof.
  unfold astype_int. destruct (dtype_of col).
  - intros [= <-]. apply length_map.
  - destruct (forallb is_finite_number col); [|discriminate].
    intros [= <-]. apply length_map.
  - apply mapM_length.
Qed.

Lemma assign_length (sales_df : list Bronze.Sales.row)
  (od sd : list datetime) (oq ck pk : list Z) :
  length od = length sales_df -> length sd = length sales_df ->
  length oq = length sales_df -> length ck = length sales_df ->
  length pk = length sales_df ->
  length (bronze_to_silver.assign sales_df od sd oq ck pk) = length sales_df.
Proof.
  intros H1 H2 H3 H4 H5. unfold bronze_to_silver.assign.
  rewrite length_map, !length_combine. lia.
Qed.

(** The outcome of the loader once the yearly files are read. *)
Definition final_df (sales_df : list bronze_to_silver.coerced)
  (product_df : list Bronze.Product.row) : list Silver.Sales.row :=
  map (fun '(s, p) =>
         bronze_to_silver.calculate s (bronze_to_silver.price_of p))
    (merge_left
       (bronze_to_silver.key_matches
          (dtype_of (map Bronze.Product.ProductKey product_df)))
       bronze_to_silver.c_ProductKey Bronze.Product.ProductKey
       sales_df product_df).

Definition silver_written (w : world) (name : string) (f : Silver.file)
  (lines : list string) : world :=
  mkWorld (Data w) (put (silver w) name f) (gold w) (visualizations w)
    (stdout w ++ lines).

Definition sales_processed (rows : list Silver.Sales.row) : string :=
  ("Sales data processed: " ++ string_of_nat (length rows) ++ " rows")%string.

Opaque present_frames processing_lines.

(** What a run that returns went through: either no yearly file exists
    and nothing is returned, or the files that exist were coerced and
    joined into the table returned. *)
Lemma process_sales_data_inv (w w' : world)
  (res : option (list Silver.Sales.row)) :
  bronze_to_silver.process_sales_data w = (Ok res, w') ->
  let sales_df := concat (present_frames bronze_to_silver.sales_files w) in
  Forall (sales_or_absent w) bronze_to_silver.sales_files
  /\ ((present_frames bronze_to_silver.sales_files w = []
       /\ res = None
       /\ w' = with_stdout w
                 (processing_lines bronze_to_silver.sales_files w
                  ++ ["No sales data found"%string]))
      \/ (present_frames bronze_to_silver.sales_files w <> []
          /\ exists OrderDate StockDate OrderQuantity CustomerKey ProductKey
                    product_df rows,
              res = Some rows
              /\ bronze_to_silver.to_datetime
                   (map Bronze.Sales.OrderDate sales_df) = Ok OrderDate
              /\ bronze_to_silver.to_datetime
                   (map Bronze.Sales.StockDate sales_df) = Ok StockDate
              /\ astype_int (map Bronze.Sales.OrderQuantity sales_df)
                 = Ok OrderQuantity
              /\ astype_int (map Bronze.Sales.CustomerKey sales_df)
                 = Ok CustomerKey
              /\ astype_int (map Bronze.Sales.ProductKey sales_df)
                 = Ok ProductKey
              /\ Data w "AdventureWorks_Products.csv"
                 = Some (Bronze.Products product_df)
              /\ (dtype_of (map Bronze.Product.ProductKey product_df) = object
                  -> sales_df = [])
              /\ rows
                 = final_df
                     (bronze_to_silver.assign sales_df OrderDate StockDate
                        OrderQuantity CustomerKey ProductKey)
                     product_df
              /\ w' = silver_written w "AdventureWorks_Sales.parquet"
                        (Silver.Sales rows)
                        (processing_lines bronze_to_silver.sales_files w
                         ++ [sales_processed rows]))).
Proof.
  intros Hrun sales_df.
  unfold bronze_to_silver.process_sales_data in Hrun.
  unfold bind at 1 in Hrun.
  destruct (bronze_to_silver.read_sales_files _ w) as [[all|e] w1] eqn:Hread;
    try discriminate.
  pose proof (read_sales_files_inv _ _ _ _ Hread) as Hfiles.
  split; [exact Hfiles|].
  rewrite (read_sales_files_ok _ _ Hfiles) in Hread.
  injection Hread as Hall Hw1. subst w1.
  destruct all as [|df0 dfs].
  { left. unfold bind, print, ret in Hrun. simpl in Hrun.
    inversion Hrun. split; [exact Hall|]. split; [reflexivity|].
    unfold with_stdout. simpl. now rewrite app_assoc. }
  right.
  assert (present_frames bronze_to_silver.sales_files w <> []) as Hne
    by (rewrite Hall; discriminate).
  split; [exact Hne|].
  rewrite <- Hall in Hrun. fold sales_df in Hrun.
  unfold bind at 1 in Hrun. unfold lift at 1 in Hrun.
  destruct (bronze_to_silver.to_datetime (map Bronze.Sales.OrderDate sales_df))
    as [od|e] eqn:Hod; try discriminate.
  unfold bind at 1 in Hrun. unfold lift at 1 in Hrun.
  destruct (bronze_to_silver.to_datetime (map Bronze.Sales.StockDate sales_df))
    as [sd|e] eqn:Hsd; try discriminate.
  unfold bind at 1 in Hrun. unfold lift at 1 in Hrun.
  destruct (astype_int (map Bronze.Sales.OrderQuantity sales_df))
    as [oq|e] eqn:Hoq; try discriminate.
  unfold bind at 1 in Hrun. unfold lift at 1 in Hrun.
  destruct (astype_int (map Bronze.Sales.CustomerKey sales_df))
    as [ck|e] eqn:Hck; try discriminate.
  unfold bind at 1 in Hrun. unfold lift at 1 in Hrun.
  destruct (astype_int (map Bronze.Sales.ProductKey sales_df))
    as [pk|e] eqn:Hpk; try discriminate.
  unfold bind at 1 in Hrun. unfold read_csv at 1 in Hrun.
  unfold with_stdout at 1 in Hrun. simpl Data in Hrun.
  destruct (Data w "AdventureWorks_Products.csv") as [f|] eqn:Hprod;
    try discriminate.
  destruct f as [df|product_df|df]; simpl in Hrun; try discriminate.
  exists od, sd, oq, ck, pk, product_df.
  unfold final_df.
  set (coerced := bronze_to_silver.assign sales_df od sd oq ck pk) in *.
  set (d := dtype_of (map Bronze.Product.ProductKey product_df)) in *.
  unfold bind at 1 in Hrun.
  assert (forall m : list (bronze_to_silver.coerced * option Bronze.Product.row),
             (let final := map (fun '(s, p) =>
                                  bronze_to_silver.calculate s
                                    (bronze_to_silver.price_of p)) m in
              (to_silver "AdventureWorks_Sales.parquet" (Silver.Sales final) ;;;
               print (sales_processed final) ;;;
               ret (Some final)) (with_stdout w (processing_lines
                                     bronze_to_silver.sales_files w)))
             = (let final := map (fun '(s, p) =>
                                    bronze_to_silver.calculate s
                                      (bronze_to_silver.price_of p)) m in
                (Ok (Some final),
                 silver_written w "AdventureWorks_Sales.parquet"
                   (Silver.Sales final)
                   (processing_lines bronze_to_silver.sales_files w
                    ++ [sales_processed final])))) as Hfin.
  { intros m. unfold bind, to_silver, print, ret, silver_written, with_stdout.
    simpl. now rewrite <- app_assoc. }
  unfold sales_processed in Hfin.
  assert (d = object -> coerced = [] -> sales_df = []) as Hempty.
  { intros _ Hc. apply length_zero_iff_nil.
    rewrite <- (assign_length sales_df od sd oq ck pk).
    - fold coerced. now rewrite Hc.
    - apply mapM_length in Hod. now rewrite length_map in Hod.
    - apply mapM_length in Hsd. now rewrite length_map in Hsd.
    - apply astype_int_length in Hoq. now rewrite length_map in Hoq.
    - apply astype_int_length in Hck. now rewrite length_map in Hck.
    - apply astype_int_length in Hpk. now rewrite length_map in Hpk. }
  destruct d eqn:Hd.
  - unfold ret at 1 in Hrun. rewrite Hfin in Hrun. inversion Hrun.
    eexists. repeat (split; [first [eassumption | reflexivity | discriminate]|]).
    reflexivity.
  - unfold ret at 1 in Hrun. rewrite Hfin in Hrun. inversion Hrun.
    eexists. repeat (split; [first [eassumption | reflexivity | discriminate]|]).
    reflexivity.
  - destruct coerced as [|c0 cs] eqn:Hc.
    + unfold ret at 1 in Hrun. rewrite Hfin in Hrun. inversion Hrun.
      eexists.
      repeat (split; [first [eassumption | reflexivity | now auto]|]).
      reflexivity.
    + unfold raise in Hrun. discriminate.
Qed.

Lemma process_sales_data_ok (w : world) (OrderDate StockDate : list datetime)
  (OrderQuantity CustomerKey ProductKey : list Z)
  (product_df : list Bronze.Product.row) :
  let sales_df := concat (present_frames bronze_to_silver.sales_files w) in
  Forall (sales_or_absent w) bronze_to_silver.sales_files ->
  present_frames bronze_to_silver.sales_files w <> [] ->
  bronze_to_silver.to_datetime (map Bronze.Sales.OrderDate sales_df)
  = Ok OrderDate ->
  bronze_to_silver.to_datetime (map Bronze.Sales.StockDate sales_df)
  = Ok StockDate ->
  astype_int (map Bronze.Sales.OrderQuantity sales_df) = Ok OrderQuantity ->
  astype_int (map Bronze.Sales.CustomerKey sales_df) = Ok CustomerKey ->
  astype_int (map Bronze.Sales.ProductKey sales_df) = Ok ProductKey ->
  Data w "AdventureWorks_Products.csv" = Some (Bronze.Products product_df) ->
  (dtype_of (map Bronze.Product.ProductKey product_df) = object ->
   sales_df = []) ->
  let rows :=
    final_df
      (bronze_to_silver.assign sales_df OrderDate StockDate OrderQuantity
         CustomerKey ProductKey)
      product_df in
  bronze_to_silver.process_sales_data w
  = (Ok (Some rows),
     silver_written w "AdventureWorks_Sales.parquet" (Silver.Sales rows)
       (processing_lines bronze_to_silver.sales_files w
        ++ [sales_processed rows])).
Proof.
  intros sales_df Hfiles Hne Hod Hsd Hoq Hck Hpk Hprod Hobj rows.
  unfold bronze_to_silver.process_sales_data. unfold bind at 1.
  rewrite (read_sales_files_ok _ _ Hfiles).
  destruct (present_frames bronze_to_silver.sales_files w) as [|df0 dfs] eqn:Hp;
    [contradiction|].
  fold sales_df.
  unfold bind at 1. unfold lift at 1. rewrite Hod.
  unfold bind at 1. unfold lift at 1. rewrite Hsd.
  unfold bind at 1. unfold lift at 1. rewrite Hoq.
  unfold bind at 1. unfold lift at 1. rewrite Hck.
  unfold bind at 1. unfold lift at 1. rewrite Hpk.
  unfold bind at 1. unfold read_csv at 1.
  unfold with_stdout at 1. simpl Data. rewrite Hprod. simpl.
  unfold rows, final_df.
  set (coerced := bronze_to_silver.assign sales_df _ _ _ _ _).
  set (d := dtype_of (map Bronze.Product.ProductKey product_df)) in *.
  assert (d = object -> coerced = []) as Hc.
  { intros Hd. unfold coerced. rewrite (Hobj Hd). reflexivity. }
  unfold sales_processed, silver_written.
  destruct d; [| |rewrite (Hc eq_refl)];
    unfold bind, ret, to_silver, print; simpl;
    now rewrite <- app_assoc.
Qed.

(** ** float64 facts the calculated fields rest on *)

Module F64Ops.


Lemma mul_nan_r (x : float) : F64.mul x F64.nan = F64.nan.
Proof. now destruct x. Qed.

Lemma mul_nan_l (x : float) : F64.mul F64.nan x = F64.nan.
Proof. reflexivity. Qed.


End F64Ops.



(** ** The left join of the sales loader *)

Transparent present_frames.

Lemma present_frames_In (files : list string) (w : world)
  (line : Bronze.Sales.row) :
  In line (concat (present_frames files w))
  <-> exists file df,
        In file files /\ Data w file = Some (Bronze.Sales df) /\ In line df.
Proof.
  unfold present_frames. rewrite in_concat. split.
  - intros [df [Hdf Hline]]. apply in_flat_map in Hdf.
    destruct Hdf as [file [Hfile Hin]].
    destruct (Data w file) as [[?|?|df']|] eqn:Hd; simpl in Hin;
      try contradiction.
    destruct Hin as [<- | []]. now exists file, df'.
  - intros [file [df [Hfile [Hd Hline]]]]. exists df. split; [|exact Hline].
    apply in_flat_map. exists file. split; [exact Hfile|].
    rewrite Hd. now left.
Qed.

Opaque present_frames.

(** The integer [astype(int)] makes of an element, by the column's dtype. *)
Definition coerced_from (c : cell) (z : Z) : Prop :=
  z = int_value c \/ z = float_to_int64 (float_value c) \/ py_int c = Ok z.

Lemma Forall2_map_r {A B : Type} (R : A -> B -> Prop) (f : A -> B)
  (l : list A) :
  (forall x, R x (f x)) -> Forall2 R l (map f l).
Proof. intros HR. induction l; simpl; constructor; auto. Qed.

Lemma astype_int_Forall2 (col : list cell) (ints : list Z) :
  astype_int col = Ok ints -> Forall2 coerced_from col ints.
Proof.
  unfold astype_int. destruct (dtype_of col).
  - intros [= <-]. apply Forall2_map_r. intros c. now left.
  - destruct (forallb is_finite_number col); [|discriminate].
    intros [= <-]. apply Forall2_map_r. intros c. right. now left.
  - intros Hm. apply mapM_Forall2 in Hm.
    eapply Forall2_impl; [|exact Hm]. intros c z Hz. right. now right.
Qed.

(** A silver row carries the columns of an order line. *)
Definition from_line (line : Bronze.Sales.row) (r : Silver.Sales.row) : Prop :=
  Silver.Sales.OrderNumber r = Bronze.Sales.OrderNumber line
  /\ Silver.Sales.TerritoryKey r = Bronze.Sales.TerritoryKey line
  /\ Silver.Sales.OrderLineItem r = Bronze.Sales.OrderLineItem line
  /\ bronze_to_silver.to_timestamp (Bronze.Sales.OrderDate line)
     = Ok (Silver.Sales.OrderDate r)
  /\ bronze_to_silver.to_timestamp (Bronze.Sales.StockDate line)
     = Ok (Silver.Sales.StockDate r)
  /\ coerced_from (Bronze.Sales.OrderQuantity line)
       (Silver.Sales.OrderQuantity r)
  /\ coerced_from (Bronze.Sales.CustomerKey line) (Silver.Sales.CustomerKey r)
  /\ coerced_from (Bronze.Sales.ProductKey line) (Silver.Sales.ProductKey r).

Definition coerced_line (line : Bronze.Sales.row)
  (c : bronze_to_silver.coerced) : Prop :=
  forall price, from_line line (bronze_to_silver.calculate c price).

Lemma assign_Forall2 (sales_df : list Bronze.Sales.row)
  (od sd : list datetime) (oq ck pk : list Z) :
  Forall2 (fun d t => bronze_to_silver.to_timestamp d = Ok t)
    (map Bronze.Sales.OrderDate sales_df) od ->
  Forall2 (fun d t => bronze_to_silver.to_timestamp d = Ok t)
    (map Bronze.Sales.StockDate sales_df) sd ->
  Forall2 coerced_from (map Bronze.Sales.OrderQuantity sales_df) oq ->
  Forall2 coerced_from (map Bronze.Sales.CustomerKey sales_df) ck ->
  Forall2 coerced_from (map Bronze.Sales.ProductKey sales_df) pk ->
  Forall2 coerced_line sales_df
    (bronze_to_silver.assign sales_df od sd oq ck pk).
Proof.
  revert od sd oq ck pk.
  induction sales_df as [|line sales_df IH]; intros od sd oq ck pk
    Hod Hsd Hoq Hck Hpk; simpl in *.
  - constructor.
  - inversion Hod; subst. inversion Hsd; subst. inversion Hoq; subst.
    inversion Hck; subst. inversion Hpk; subst.
    unfold bronze_to_silver.assign. simpl. constructor.
    + intros price. unfold from_line, bronze_to_silver.calculate. simpl.
      repeat split; assumption.
    + now apply IH.
Qed.

Lemma Forall2_In_l {A B : Type} (R : A -> B -> Prop) (l : list A)
  (l' : list B) (x : A) :
  Forall2 R l l' -> In x l -> exists y, In y l' /\ R x y.
Proof.
  induction 1 as [|a b l l' Hab Hl IH]; simpl; intros Hin.
  - contradiction.
  - destruct Hin as [<- | Hin].
    + exists b. auto.
    + destruct (IH Hin) as [y [Hy Hxy]]. exists y. auto.
Qed.

Lemma Forall2_In_r {A B : Type} (R : A -> B -> Prop) (l : list A)
  (l' : list B) (y : B) :
  Forall2 R l l' -> In y l' -> exists x, In x l /\ R x y.
Proof.
  induction 1 as [|a b l l' Hab Hl IH]; simpl; intros Hin.
  - contradiction.
  - destruct Hin as [<- | Hin].
    + exists a. auto.
    + destruct (IH Hin) as [x [Hx Hxy]]. exists x. auto.
Qed.

(** The calculated fields of a row without a price are all null. *)
Lemma calculate_null (s : bronze_to_silver.coerced) :
  let r := bronze_to_silver.calculate s F64.nan in
  F64.is_nan (Silver.Sales.UnitPrice r) = true
  /\ F64.is_nan (Silver.Sales.SalesAmount r) = true
  /\ F64.is_nan (Silver.Sales.TotalProductCost r) = true
  /\ F64.is_nan (Silver.Sales.Profit r) = true
  /\ F64.is_nan (Silver.Sales.ProfitMargin r) = true.
Proof.
  unfold bronze_to_silver.calculate. simpl.
  rewrite F64Ops.mul_nan_r. repeat split; reflexivity.
Qed.

(** C7: the silver transformer joins sales to products on the left: every
    order line of every yearly file that exists is in the table returned,
    every row returned is such a line, and a row whose ProductKey no
    product has keeps a null UnitPrice and gets null SalesAmount,
    TotalProductCost, Profit and ProfitMargin.  The joins of the gold
    stage are inner: a sales row without a product, a customer or a
    calendar date is in no row of the join. *)
Theorem sales_join_keeps_unmatched (w w' : world)
  (rows : list Silver.Sales.row) :
  bronze_to_silver.process_sales_data w = (Ok (Some rows), w') ->
  (exists product_df,
      Data w "AdventureWorks_Products.csv" = Some (Bronze.Products product_df)
      /\ (forall file df line,
             In file bronze_to_silver.sales_files ->
             Data w file = Some (Bronze.Sales df) ->
             In line df ->
             exists r, In r rows /\ from_line line r)
      /\ (forall r,
             In r rows ->
             exists file df line,
               In file bronze_to_silver.sales_files
               /\ Data w file = Some (Bronze.Sales df)
               /\ In line df /\ from_line line r)
      /\ (forall r,
             In r rows ->
             (forall p,
                 In p product_df ->
                 bronze_to_silver.key_matches
                   (dtype_of (map Bronze.Product.ProductKey product_df))
                   (Silver.Sales.ProductKey r) (Bronze.Product.ProductKey p)
                 = false) ->
             F64.is_nan (Silver.Sales.UnitPrice r) = true
             /\ F64.is_nan (Silver.Sales.SalesAmount r) = true
             /\ F64.is_nan (Silver.Sales.TotalProductCost r) = true
             /\ F64.is_nan (Silver.Sales.Profit r) = true
             /\ F64.is_nan (Silver.Sales.ProfitMargin r) = true))
  /\ (forall sales_df products_df s,
         (forall p, In p products_df ->
                    Silver.Product.ProductKey p <> Silver.Sales.ProductKey s) ->
         forall j, In j (sales_products sales_df products_df) -> fst j <> s)
  /\ (forall sales_df customers_df s,
         (forall c, In c customers_df ->
                    Silver.Customer.CustomerKey c
                    <> Silver.Sales.CustomerKey s) ->
         forall j, In j (sales_customers sales_df customers_df) -> fst j <> s)
  /\ (forall sales_df calendar_df s,
         (forall c, In c calendar_df ->
                    Silver.Calendar.Date c <> Silver.Sales.OrderDate s) ->
         forall j, In j (sales_calendar sales_df calendar_df) -> fst j <> s).
Proof.
  intros Hrun. split; [|split; [|split]].
  - destruct (process_sales_data_inv _ _ _ Hrun)
      as [_ [[_ [Hnone _]] | [_ Hsome]]]; [discriminate|].
    destruct Hsome as (od & sd & oq & ck & pk & product_df & rows' & Hres
                       & Hod & Hsd & Hoq & Hck & Hpk & Hprod & _ & Hrows & _).
    injection Hres as <-.
    exists product_df. split; [exact Hprod|].
    pose proof (assign_Forall2 _ _ _ _ _ _
                  (mapM_Forall2 _ _ _ Hod) (mapM_Forall2 _ _ _ Hsd)
                  (astype_int_Forall2 _ _ Hoq) (astype_int_Forall2 _ _ Hck)
                  (astype_int_Forall2 _ _ Hpk)) as Hlines.
    set (coerced := bronze_to_silver.assign _ od sd oq ck pk) in *.
    split; [|split].
    + intros file df line Hfile Hdf Hline.
      assert (In line (concat (present_frames bronze_to_silver.sales_files w)))
        as Hin by (apply present_frames_In; now exists file, df).
      destruct (Forall2_In_l _ _ _ _ Hlines Hin) as [c [Hc Hfrom]].
      destruct (merge_left_keeps
                  (bronze_to_silver.key_matches
                     (dtype_of (map Bronze.Product.ProductKey product_df)))
                  bronze_to_silver.c_ProductKey Bronze.Product.ProductKey
                  coerced product_df c Hc) as [p Hp].
      exists (bronze_to_silver.calculate c (bronze_to_silver.price_of p)).
      split; [|apply Hfrom].
      rewrite Hrows. unfold final_df.
      now apply (in_map (fun '(s, p) =>
                           bronze_to_silver.calculate s
                             (bronze_to_silver.price_of p)) _ (c, p)).
    + intros r Hr. rewrite Hrows in Hr. unfold final_df in Hr.
      apply in_map_iff in Hr. destruct Hr as [[c p] [<- Hcp]].
      apply merge_left_In in Hcp. destruct Hcp as [Hc _].
      destruct (Forall2_In_r _ _ _ _ Hlines Hc) as [line [Hline Hfrom]].
      apply present_frames_In in Hline.
      destruct Hline as [file [df [Hfile [Hdf Hline]]]].
      exists file, df, line.
      split; [exact Hfile|]. split; [exact Hdf|]. split; [exact Hline|].
      apply Hfrom.
    + intros r Hr Hunmatched. rewrite Hrows in Hr. unfold final_df in Hr.
      apply in_map_iff in Hr. destruct Hr as [[c p] [<- Hcp]].
      apply merge_left_In in Hcp. destruct Hcp as [Hc Hp].
      destruct p as [p|].
      * destruct Hp as [Hp Hmatch].
        specialize (Hunmatched p Hp).
        unfold bronze_to_silver.calculate in Hunmatched.
        simpl in Hunmatched. congruence.
      * apply calculate_null.
  - intros sales_df products_df s Hno.
    apply merge_drops_unmatched. intros p Hp.
    apply Z.eqb_neq. intros Heq. now apply (Hno p Hp).
  - intros sales_df customers_df s Hno.
    apply merge_drops_unmatched. intros c Hc.
    apply Z.eqb_neq. intros Heq. now apply (Hno c Hc).
  - intros sales_df calendar_df s Hno.
    apply merge_drops_unmatched. intros c Hc.
    specialize (Hno c Hc). unfold silver_to_gold.datetime_eqb.
    destruct (Silver.Sales.OrderDate s) as [x|],
             (Silver.Calendar.Date c) as [y|]; try reflexivity.
    + apply Z.eqb_neq. congruence.
    + congruence.
Qed.

(** Bronze files for the examples: the years 2015 and 2017 exist, 2016
    does not; the line of 2017 is of a product the product file lacks. *)
Definition bronze_world : world :=
  let line (key qty : Z) :=
    Bronze.Sales.mk (CsvDate 1420070400000000000) CsvMissing
      (Some "SO45080"%string) (PyInt key) (PyInt 11000) (PyInt 1) (PyInt 1)
      (PyInt qty) in
  let helmet :=
    Bronze.Product.mk (PyInt 1) (F64.of_int 31) (Some "Helmet"%string)
      None (F64.of_int 10) in
  mkWorld
    (put (put (put empty_dir "AdventureWorks_Sales_2015.csv"
                 (Bronze.Sales [line 1 2]))
            "AdventureWorks_Sales_2017.csv" (Bronze.Sales [line 9 4]))
       "AdventureWorks_Products.csv" (Bronze.Products [helmet]))
    empty_dir empty_dir [] [].

Lemma sales_join_keeps_unmatched_witness :
  exists rows w',
    bronze_to_silver.process_sales_data bronze_world = (Ok (Some rows), w')
    /\ map Silver.Sales.ProductKey rows = [1; 9]
    /\ map (fun r => F64.is_nan (Silver.Sales.SalesAmount r)) rows
       = [false; true]
    /\ forall r,
        In r rows ->
        exists file df line,
          In file bronze_to_silver.sales_files
          /\ Data bronze_world file = Some (Bronze.Sales df)
          /\ In line df /\ from_line line r.
Proof.
  destruct (bronze_to_silver.process_sales_data bronze_world)
    as [res w'] eqn:Hrun.
  pose proof Hrun as Hvalue. vm_compute in Hvalue.
  inversion Hvalue; subst; clear Hvalue.
  eexists _, _. split; [reflexivity|].
  split; [reflexivity|]. split; [reflexivity|].
  destruct (sales_join_keeps_unmatched bronze_world _ _ Hrun)
    as [[product_df [_ [_ [Hfrom _]]]] _].
  exact Hfrom.
Defined.

(** ** The yearly sales files that do not exist *)

Transparent present_frames processing_lines.

Lemma no_file_no_frame (files : list string) (w : world) :
  (forall file, In file files -> Data w file = None) ->
  present_frames files w = [] /\ processing_lines files w = [].
Proof.
  induction files as [|file files IH]; simpl; intros Hnone.
  - now split.
  - rewrite (Hnone file (or_introl eq_refl)). simpl.
    apply IH. intros f Hf. apply Hnone. now right.
Qed.

Lemma no_frame_no_file (files : list string) (w : world) :
  Forall (sales_or_absent w) files ->
  present_frames files w = [] ->
  forall file, In file files -> Data w file = None.
Proof.
  induction 1 as [|file files Hfile Hfiles IH]; simpl; intros Hp f Hf.
  - contradiction.
  - destruct Hfile as [Hnone | [df Hdf]].
    + rewrite Hnone in Hp. simpl in Hp.
      destruct Hf as [<- | Hf]; [exact Hnone | now apply IH].
    + rewrite Hdf in Hp. discriminate.
Qed.

Lemma some_file_some_frame (files : list string) (w : world) (file : string)
  (df : list Bronze.Sales.row) :
  In file files -> Data w file = Some (Bronze.Sales df) ->
  present_frames files w <> [].
Proof.
  intros Hin Hdf Hnil.
  assert (In df (present_frames files w)) as Hdfin.
  { unfold present_frames. apply in_flat_map. exists file.
    split; [exact Hin|]. rewrite Hdf. now left. }
  rewrite Hnil in Hdfin. contradiction.
Qed.

Opaque present_frames processing_lines.

Lemma process_sales_data_none (w : world) :
  (forall file, In file bronze_to_silver.sales_files -> Data w file = None) ->
  bronze_to_silver.process_sales_data w
  = (Ok None, with_stdout w ["No sales data found"%string]).
Proof.
  intros Hnone.
  destruct (no_file_no_frame _ _ Hnone) as [Hp Hl].
  unfold bronze_to_silver.process_sales_data. unfold bind at 1.
  rewrite read_sales_files_ok.
  - rewrite Hp, Hl, with_stdout_nil. reflexivity.
  - rewrite Forall_forall. intros file Hfile. left. now apply Hnone.
Qed.

Lemma merge_left_length {L R KL KR : Type} (eqb : KL -> KR -> bool)
  (left_on : L -> KL) (right_on : R -> KR) (left : list L) (right : list R) :
  (length left <= length (merge_left eqb left_on right_on left right))%nat.
Proof.
  unfold merge_left. induction left as [|l left IH].
  - simpl. lia.
  - cbn [flat_map]. rewrite length_app.
    destruct (matches eqb left_on right_on right l); simpl in *; lia.
Qed.

(** C4 as stated fails: with none of the yearly files the loader raises
    nothing; it prints a line and returns None. *)
Lemma no_sales_file_raises_nothing :
  let w := mkWorld empty_dir empty_dir empty_dir [] [] in
  (forall file, In file bronze_to_silver.sales_files -> Data w file = None)
  /\ bronze_to_silver.process_sales_data w
     = (Ok None, with_stdout w ["No sales data found"%string])
  /\ ~ (forall w : world,
           (forall file, In file bronze_to_silver.sales_files ->
                         Data w file = None) ->
           exists e, fst (bronze_to_silver.process_sales_data w) = Raise e).
Proof.
  split; [reflexivity|]. split; [vm_compute; reflexivity|].
  intros Hraises.
  destruct (Hraises (mkWorld empty_dir empty_dir empty_dir [] [])
              (fun _ _ => eq_refl)) as [e He].
  vm_compute in He. discriminate.
Qed.

(** C4, amended: the loader reads the yearly files that exist, in the
    order 2015, 2016, 2017, and passes over the others without an error;
    when the files read coerce and the product file is there it returns
    (and writes to silver) the table made of their lines.  When none of
    the yearly files exists it raises nothing either: it prints "No sales
    data found", writes nothing and returns None; it returns None in no
    other case. *)
Theorem sales_loader_missing_files (w : world) :
  Forall (sales_or_absent w) bronze_to_silver.sales_files ->
  let sales_df := concat (present_frames bronze_to_silver.sales_files w) in
  bronze_to_silver.read_sales_files bronze_to_silver.sales_files w
  = (Ok (present_frames bronze_to_silver.sales_files w),
     with_stdout w (processing_lines bronze_to_silver.sales_files w))
  /\ (forall line,
         In line sales_df
         <-> exists file df,
               In file bronze_to_silver.sales_files
               /\ Data w file = Some (Bronze.Sales df) /\ In line df)
  /\ ((forall file, In file bronze_to_silver.sales_files ->
                    Data w file = None) ->
      bronze_to_silver.process_sales_data w
      = (Ok None, with_stdout w ["No sales data found"%string]))
  /\ (forall res w',
         bronze_to_silver.process_sales_data w = (Ok res, w') ->
         (res = None
          <-> forall file, In file bronze_to_silver.sales_files ->
                           Data w file = None))
  /\ (forall file df OrderDate StockDate OrderQuantity CustomerKey ProductKey
             product_df,
         In file bronze_to_silver.sales_files ->
         Data w file = Some (Bronze.Sales df) ->
         bronze_to_silver.to_datetime (map Bronze.Sales.OrderDate sales_df)
         = Ok OrderDate ->
         bronze_to_silver.to_datetime (map Bronze.Sales.StockDate sales_df)
         = Ok StockDate ->
         astype_int (map Bronze.Sales.OrderQuantity sales_df)
         = Ok OrderQuantity ->
         astype_int (map Bronze.Sales.CustomerKey sales_df) = Ok CustomerKey ->
         astype_int (map Bronze.Sales.ProductKey sales_df) = Ok ProductKey ->
         Data w "AdventureWorks_Products.csv"
         = Some (Bronze.Products product_df) ->
         (dtype_of (map Bronze.Product.ProductKey product_df) = object ->
          sales_df = []) ->
         exists rows w',
           bronze_to_silver.process_sales_data w = (Ok (Some rows), w')
           /\ silver w' "AdventureWorks_Sales.parquet"
              = Some (Silver.Sales rows)
           /\ (length sales_df <= length rows)%nat).
Proof.
  intros Hfiles sales_df. split; [|split; [|split; [|split]]].
  - now apply read_sales_files_ok.
  - intros line. apply present_frames_In.
  - apply process_sales_data_none.
  - intros res w' Hrun. split.
    + intros ->.
      destruct (process_sales_data_inv _ _ _ Hrun)
        as [_ [[Hp _] | [_ Hsome]]].
      * now apply no_frame_no_file.
      * destruct Hsome as (? & ? & ? & ? & ? & ? & ? & Hres & _).
        discriminate.
    + intros Hnone. rewrite (process_sales_data_none w Hnone) in Hrun.
      now inversion Hrun.
  - intros file df od sd oq ck pk product_df Hfile Hdf Hod Hsd Hoq Hck Hpk
      Hprod Hobj.
    eexists _, _.
    split; [apply (process_sales_data_ok w od sd oq ck pk product_df Hfiles
                     (some_file_some_frame _ _ _ _ Hfile Hdf)
                     Hod Hsd Hoq Hck Hpk Hprod Hobj)|].
    split; [reflexivity|].
    unfold final_df. rewrite length_map.
    rewrite <- (assign_length sales_df od sd oq ck pk).
    + apply merge_left_length.
    + apply mapM_length in Hod. now rewrite length_map in Hod.
    + apply mapM_length in Hsd. now rewrite length_map in Hsd.
    + apply astype_int_length in Hoq. now rewrite length_map in Hoq.
    + apply astype_int_length in Hck. now rewrite length_map in Hck.
    + apply astype_int_length in Hpk. now rewrite length_map in Hpk.
Qed.

Lemma sales_loader_missing_files_witness :
  Forall (sales_or_absent bronze_world) bronze_to_silver.sales_files
  /\ Data bronze_world "AdventureWorks_Sales_2016.csv" = None
  /\ bronze_to_silver.read_sales_files bronze_to_silver.sales_files
       bronze_world
     = (Ok (present_frames bronze_to_silver.sales_files bronze_world),
        with_stdout bronze_world
          (processing_lines bronze_to_silver.sales_files bronze_world))
  /\ length (concat (present_frames bronze_to_silver.sales_files bronze_world))
     = 2%nat
  /\ exists rows w',
       bronze_to_silver.process_sales_data bronze_world
       = (Ok (Some rows), w')
       /\ length rows = 2%nat.
Proof.
  assert (Forall (sales_or_absent bronze_world) bronze_to_silver.sales_files)
    as Hfiles.
  { unfold bronze_to_silver.sales_files.
    constructor; [right; eexists; reflexivity|].
    constructor; [left; reflexivity|].
    constructor; [right; eexists; reflexivity|].
    constructor. }
  split; [exact Hfiles|]. split; [reflexivity|].
  split; [exact (proj1 (sales_loader_missing_files bronze_world Hfiles))|].
  split; [vm_compute; reflexivity|].
  destruct (bronze_to_silver.process_sales_data bronze_world)
    as [res w'] eqn:Hrun.
  vm_compute in Hrun. inversion Hrun; subst.
  eexists _, _. split; reflexivity.
Defined.

(** ** bronze_to_silver: the customer transformer *)








Definition customers_processed (rows : list Silver.Customer.row) : string :=
  ("Customer data processed: " ++ string_of_nat (length rows)
   ++ " rows")%string.

(** The silver customer of a bronze line and its coerced key. *)
Definition silver_customer (line : Bronze.Customer.row) (key : Z)
  : Silver.Customer.row :=
  Silver.Customer.mk key
    (Bronze.Customer.FirstName line) (Bronze.Customer.LastName line)
    (fillna "Unknown" (Bronze.Customer.Gender line))
    (fillna "Unknown" (Bronze.Customer.MaritalStatus line)).

Lemma process_customer_data_runs (w : world)
  (customer_df : list Bronze.Customer.row) :
  Data w "AdventureWorks_Customers.csv" = Some (Bronze.Customers customer_df) ->
  bronze_to_silver.process_customer_data w
  = match astype_int (map Bronze.Customer.CustomerKey customer_df) with
    | Ok keys =>
        let rows :=
          map (fun '(r, key) => silver_customer r key)
            (combine customer_df keys) in
        (Ok rows,
         silver_written w "AdventureWorks_Customers.parquet"
           (Silver.Customers rows) [customers_processed rows])
    | Raise e => (Raise e, w)
    end.
Proof.
  intros Hdata. unfold bronze_to_silver.process_customer_data.
  unfold bind at 1. unfold read_csv. rewrite Hdata. simpl.
  unfold bind at 1. unfold lift.
  destruct (astype_int (map Bronze.Customer.CustomerKey customer_df));
    reflexivity.
Qed.




(** ** visualize: the spending segments *)

(** Whether no two edges of a list of bin edges are equal. *)
Fixpoint all_distinct (bins : list float) : bool :=
  match bins with
  | [] => true
  | b :: rest =>
      forallb (fun c => negb (same_value b c)) rest && all_distinct rest
  end.

Lemma filter_length_le {A : Type} (f : A -> bool) (l : list A) :
  (length (filter f l) <= length l)%nat.
Proof.
  induction l as [|x l IH]; simpl.
  - lia.
  - destruct (f x); simpl; lia.
Qed.

Lemma filter_length_lt {A : Type} (f : A -> bool) (l : list A) (x : A) :
  In x l -> f x = false -> (length (filter f l) < length l)%nat.
Proof.
  induction l as [|y l IH]; simpl; intros Hin Hf.
  - contradiction.
  - destruct Hin as [-> | Hin].
    + rewrite Hf. pose proof (filter_length_le f l). lia.
    + specialize (IH Hin Hf). destruct (f y); simpl; lia.
Qed.

Lemma unique_length_le (bins : list float) :
  (length (unique bins) <= length bins)%nat.
Proof.
  induction bins as [|b bins IH]; simpl.
  - lia.
  - pose proof (filter_length_le (fun c => negb (same_value b c))
                  (unique bins)). lia.
Qed.

Lemma unique_keeps_or_shrinks (bins : list float) (c : float) :
  In c bins ->
  In c (unique bins) \/ (length (unique bins) < length bins)%nat.
Proof.
  induction bins as [|b bins IH]; simpl; intros Hin.
  - contradiction.
  - destruct Hin as [-> | Hin]; [left; now left|].
    pose proof (filter_length_le (fun x => negb (same_value b x))
                  (unique bins)) as Hle.
    destruct (IH Hin) as [Hc | Hlt]; [|right; lia].
    destruct (same_value b c) eqn:Hbc.
    + right.
      assert (length (filter (fun x => negb (same_value b x)) (unique bins))
              < length (unique bins))%nat as Hf
        by (apply (filter_length_lt _ _ c Hc); now rewrite Hbc).
      pose proof (unique_length_le bins). lia.
    + left. right. apply filter_In. split; [exact Hc | now rewrite Hbc].
Qed.

(** Two equal edges make [unique] drop one. *)
Lemma unique_shorter (bins : list float) :
  all_distinct bins = false -> (length (unique bins) < length bins)%nat.
Proof.
  induction bins as [|b bins IH]; simpl; intros Hdup.
  - discriminate.
  - pose proof (filter_length_le (fun x => negb (same_value b x))
                  (unique bins)) as Hle.
    pose proof (unique_length_le bins) as Hu.
    apply andb_false_iff in Hdup. destruct Hdup as [Hb | Hrest].
    + assert (exists c, In c bins /\ same_value b c = true) as [c [Hc Hbc]].
      { clear - Hb. induction bins as [|c bins IH]; simpl in Hb.
        - discriminate.
        - destruct (same_value b c) eqn:Hbc.
          + exists c. split; [now left | exact Hbc].
          + destruct (IH Hb) as [c' [Hc' Hbc']]. exists c'.
            split; [now right | exact Hbc']. }
      destruct (unique_keeps_or_shrinks bins c Hc) as [Hin | Hlt]; [|lia].
      assert (length (filter (fun x => negb (same_value b x)) (unique bins))
              < length (unique bins))%nat
        by (apply (filter_length_lt _ _ c Hin); now rewrite Hbc).
      lia.
    + specialize (IH Hrest). lia.
Qed.

Lemma unique_all_distinct (bins : list float) :
  all_distinct bins = true -> unique bins = bins.
Proof.
  induction bins as [|b bins IH]; simpl; intros Hd.
  - reflexivity.
  - apply andb_prop in Hd. destruct Hd as [Hb Hrest].
    rewrite (IH Hrest). now rewrite (filter_all_forallb _ _ Hb).
Qed.

Lemma qcut_bins_length (x : list float) (q : nat) :
  length (qcut_bins x q) = S q.
Proof.
  unfold qcut_bins, linspace_0_1. now rewrite !length_map, length_seq.
Qed.

Lemma qcut_duplicates (x : list float) :
  all_distinct (qcut_bins x 4) = false ->
  qcut x 4 [visualize.Low; visualize.Medium; visualize.High;
            visualize.Premium] = Raise ValueError.
Proof.
  intros Hdup. unfold qcut.
  pose proof (unique_shorter _ Hdup) as Hlt.
  apply Nat.ltb_lt in Hlt. rewrite Hlt.
  rewrite qcut_bins_length. reflexivity.
Qed.

Lemma qcut_distinct (x : list float) :
  all_distinct (qcut_bins x 4) = true ->
  exists segments,
    qcut x 4 [visualize.Low; visualize.Medium; visualize.High;
              visualize.Premium] = Ok segments.
Proof.
  intros Hd. unfold qcut.
  rewrite (unique_all_distinct _ Hd), Nat.ltb_irrefl. simpl.
  eexists. reflexivity.
Qed.

Definition chart_saved (w : world) : world :=
  mkWorld (Data w) (silver w) (gold w)
    (visualizations w ++ ["customer_segments.png"%string])
    (stdout w
     ++ ["Customer segments visualization saved to customer_segments.png"
           %string]).

Lemma create_customer_segments_runs (w : world)
  (customer_insights_df : list Gold.CustomerInsights.row) :
  gold w "customer_insights.parquet"
  = Some (Gold.CustomerInsights customer_insights_df) ->
  visualize.create_customer_segments w
  = match qcut (map Gold.CustomerInsights.TotalSpend customer_insights_df) 4
            [visualize.Low; visualize.Medium; visualize.High;
             visualize.Premium] with
    | Ok _ => (Ok tt, chart_saved w)
    | Raise e => (Raise e, w)
    end.
Proof.
  intros Hgold. unfold visualize.create_customer_segments.
  unfold bind at 1. unfold read_gold. rewrite Hgold. simpl.
  unfold bind at 1. unfold lift.
  destruct (qcut _ 4 _); reflexivity.
Qed.


(** *** Edges of a view whose spends are all equal *)













(** What the renderer does with a view, by its quartile edges. *)
Lemma create_customer_segments_outcome (w : world)
  (customer_insights_df : list Gold.CustomerInsights.row) :
  gold w "customer_insights.parquet"
  = Some (Gold.CustomerInsights customer_insights_df) ->
  visualize.create_customer_segments w
  = if all_distinct
         (qcut_bins
            (map Gold.CustomerInsights.TotalSpend customer_insights_df) 4)
    then (Ok tt, chart_saved w)
    else (Raise ValueError, w).
Proof.
  intros Hgold. rewrite (create_customer_segments_runs w _ Hgold).
  destruct (all_distinct _) eqn:Hd.
  - destruct (qcut_distinct _ Hd) as [segments ->]. reflexivity.
  - now rewrite (qcut_duplicates _ Hd).
Qed.


(** Gold views for the examples: one customer, and three customers of
    spends 10, 20 and 30. *)
Definition insights_of (key spend : Z) : Gold.CustomerInsights.row :=
  Gold.CustomerInsights.mk key "Jon" "Yang" "M" "M"
    (F64.of_int spend) 1 (F64.of_int spend).

Definition gold_world (view : list Gold.CustomerInsights.row) : world :=
  mkWorld empty_dir empty_dir
    (put empty_dir "customer_insights.parquet" (Gold.CustomerInsights view))
    [] [].


(** Three customers of different spends have five different edges (10,
    15, 20, 25, 30): the chart is saved. *)
Lemma three_customers_are_charted :
  let view := [insights_of 11000 10; insights_of 11001 30;
               insights_of 11002 20] in
  qcut_bins (map Gold.CustomerInsights.TotalSpend view) 4
  = map F64.of_int [10; 15; 20; 25; 30]
  /\ qcut (map Gold.CustomerInsights.TotalSpend view) 4
       [visualize.Low; visualize.Medium; visualize.High; visualize.Premium]
     = Ok [Some visualize.Low; Some visualize.Premium; Some visualize.Medium]
  /\ visualize.create_customer_segments (gold_world view)
     = (Ok tt, chart_saved (gold_world view)).
Proof.
  intros view. split; [vm_compute; reflexivity|].
  split; [vm_compute; reflexivity|].
  rewrite (create_customer_segments_outcome (gold_world view) view eq_refl).
  now replace (all_distinct _) with true by (vm_compute; reflexivity).
Qed.

(** Customers that all spent the same have five equal edges. *)
Lemma four_equal_spends_raise :
  let view := [insights_of 11000 20; insights_of 11001 20;
               insights_of 11002 20; insights_of 11003 20] in
  visualize.create_customer_segments (gold_world view)
  = (Raise ValueError, gold_world view).
Proof.
  intros view.
  rewrite (create_customer_segments_outcome (gold_world view) view eq_refl).
  now replace (all_distinct _) with false by (vm_compute; reflexivity).
Qed.

(** ** The calendar of [dt]

    The fields of a day count are those of the Gregorian calendar: they
    are a date the calendar has, the day count of that date is the one
    they were read off, and the day after carries the date after. *)

Module DtFacts.

(** The day count of the first of January, and the length of a year. *)
Definition year_start (y : Z) : Z :=
  365 * (y - 1970) + (y - 1969) / 4 - (y - 1901) / 100 + (y - 1601) / 400.

Definition year_length (y : Z) : Z := if dt.is_leapyear y then 366 else 365.

(** The length of a month, and the days of the months before it. *)
Definition days_in_month (y m : Z) : Z :=
  nth (Z.to_nat (m - 1)) (dt.days_per_month_table (dt.is_leapyear y)) 0.

Definition months_before (y m : Z) : Z :=
  fold_right Z.add 0
    (firstn (Z.to_nat (m - 1)) (dt.days_per_month_table (dt.is_leapyear y))).

(** A date of the calendar. *)
Definition valid_date (y m d : Z) : Prop :=
  1 <= m <= 12 /\ 1 <= d <= days_in_month y m.

(** The day count of a date: the days of the years since 1970, of the
    months passed and of the days passed. *)
Definition date_to_days (y m d : Z) : Z :=
  year_start y + months_before y m + (d - 1).

(** The date after a date. *)
Definition next_date (x : dt.datetimestruct) : dt.datetimestruct :=
  let '(dt.mkDts y m d) := x in
  if d <? days_in_month y m then dt.mkDts y m (d + 1)
  else if m <? 12 then dt.mkDts y (m + 1) 1
  else dt.mkDts (y + 1) 1 1.

Ltac leap_cases :=
  repeat match goal with
    | |- context [?a =? ?b] => destruct (Z.eqb_spec a b)
    | H : context [?a =? ?b] |- _ => destruct (Z.eqb_spec a b)
    end;
  simpl negb in *; simpl andb in *; simpl orb in *; cbv iota in *.

Lemma days_to_yearsdays_spec (z : Z) :
  0 <= snd (dt.days_to_yearsdays z)
       < year_length (fst (dt.days_to_yearsdays z))
  /\ z = year_start (fst (dt.days_to_yearsdays z))
         + snd (dt.days_to_yearsdays z).
Proof.
  unfold dt.days_to_yearsdays, year_length, year_start, dt.is_leapyear.
  cbv zeta.
  change (400 * 365 + 100 - 4 + 1) with 146097.
  change (365 * 30 + 7) with 10957.
  change (100 * 365 + 25 - 1) with 36524.
  change (4 * 365 + 1) with 1461.
  set (d0 := (z - 10957) mod 146097).
  set (e := (z - 10957) / 146097).
  assert (0 <= d0 < 146097) as Hd0 by (apply Z.mod_pos_bound; lia).
  assert (z = 146097 * e + d0 + 10957) as Hz.
  { unfold d0, e. pose proof (Z.div_mod (z - 10957) 146097). lia. }
  clearbody d0 e. subst z.
  destruct (366 <=? d0) eqn:H1;
    [destruct (365 <=? (d0 - 1) mod 36524) eqn:H2;
     [destruct (366 <=? ((d0 - 1) mod 36524 + 1) mod 1461) eqn:H3|]|];
    cbv beta iota delta [fst snd]; leap_cases;
    repeat match goal with
      | H : (_ <=? _) = true |- _ => apply Z.leb_le in H
      | H : (_ <=? _) = false |- _ => apply Z.leb_gt in H
      end;
    Z.div_mod_to_equations; lia.
Qed.

Lemma year_start_next (y : Z) : year_start (y + 1) = year_start y + year_length y.
Proof.
  unfold year_start, year_length, dt.is_leapyear. leap_cases;
    Z.div_mod_to_equations; lia.
Qed.

Lemma year_start_mono (a b : Z) : a <= b -> year_start a <= year_start b.
Proof.
  intros Hab. destruct (Z.eq_dec a b) as [-> | Hne]; [lia|].
  unfold year_start. Z.div_mod_to_equations. lia.
Qed.

Lemma year_length_pos (y : Z) : 365 <= year_length y <= 366.
Proof. unfold year_length. destruct (dt.is_leapyear y); lia. Qed.

(** A day count lies in one year only. *)
Lemma year_unique (y y' yd yd' : Z) :
  0 <= yd < year_length y -> 0 <= yd' < year_length y' ->
  year_start y + yd = year_start y' + yd' -> y = y' /\ yd = yd'.
Proof.
  intros Hyd Hyd' Heq.
  assert (y = y') as ->.
  { destruct (Z.lt_trichotomy y y') as [Hlt | [-> | Hgt]]; [|reflexivity|].
    - pose proof (year_start_mono (y + 1) y' ltac:(lia)) as Hm.
      rewrite year_start_next in Hm. lia.
    - pose proof (year_start_mono (y' + 1) y ltac:(lia)) as Hm.
      rewrite year_start_next in Hm. lia. }
  split; [reflexivity | lia].
Qed.

Ltac month_cases m :=
  let H := fresh in
  assert (m = 1 \/ m = 2 \/ m = 3 \/ m = 4 \/ m = 5 \/ m = 6 \/ m = 7
          \/ m = 8 \/ m = 9 \/ m = 10 \/ m = 11 \/ m = 12) as H by lia;
  repeat (destruct H as [H | H]); subst m.

(** The closed sums and entries of the table of month lengths. *)
Ltac calc_months :=
  repeat match goal with
    | |- context [nth ?n ?l 0] =>
        let v := eval vm_compute in (nth n l 0) in change (nth n l 0) with v
    | |- context [fold_right Z.add 0 ?l] =>
        let v := eval vm_compute in (fold_right Z.add 0 l) in
        change (fold_right Z.add 0 l) with v
    | H : context [nth ?n ?l 0] |- _ =>
        let v := eval vm_compute in (nth n l 0) in
        change (nth n l 0) with v in H
    end.

Lemma month_and_day_spec (y yd m d : Z) :
  0 <= yd < year_length y ->
  dt.month_and_day (dt.days_per_month_table (dt.is_leapyear y)) 0 yd = (m, d) ->
  valid_date y m d /\ yd = months_before y m + (d - 1).
Proof.
  unfold year_length, valid_date, days_in_month, months_before.
  destruct (dt.is_leapyear y); intros Hyd Hmd;
    cbn -[Z.ltb Z.add Z.sub] in Hmd;
    repeat match type of Hmd with
      | context [?a <? ?b] => destruct (Z.ltb_spec a b)
      end; injection Hmd as <- <-; calc_months; lia.
Qed.

(** The months of a year fill it. *)
Lemma months_fill_year (y m d : Z) :
  valid_date y m d -> 0 <= months_before y m + (d - 1) < year_length y.
Proof.
  unfold valid_date, days_in_month, months_before, year_length.
  intros [Hm Hd]. month_cases m; destruct (dt.is_leapyear y);
    calc_months; lia.
Qed.

Lemma month_and_day_of_date (y m d : Z) :
  valid_date y m d ->
  dt.month_and_day (dt.days_per_month_table (dt.is_leapyear y)) 0
    (months_before y m + (d - 1))
  = (m, d).
Proof.
  unfold valid_date, days_in_month, months_before.
  intros [Hm Hd]. month_cases m; destruct (dt.is_leapyear y);
    calc_months; cbn -[Z.ltb Z.add Z.sub];
    repeat match goal with
      | |- context [?a <? ?b] => destruct (Z.ltb_spec a b)
      end; first [f_equal; lia | lia].
Qed.

Lemma set_datetimestruct_days_eq (z : Z) :
  dt.set_datetimestruct_days z
  = let yd := dt.days_to_yearsdays z in
    let md :=
      dt.month_and_day (dt.days_per_month_table (dt.is_leapyear (fst yd))) 0
        (snd yd) in
    dt.mkDts (fst yd) (fst md) (snd md).
Proof.
  unfold dt.set_datetimestruct_days.
  destruct (dt.days_to_yearsdays z) as [y yd]. simpl.
  now destruct (dt.month_and_day _ 0 yd).
Qed.

(** The fields of a day count are a date, whose day count it is. *)
Lemma fields_of_days (z : Z) :
  let x := dt.set_datetimestruct_days z in
  valid_date (dt.dts_year x) (dt.dts_month x) (dt.dts_day x)
  /\ date_to_days (dt.dts_year x) (dt.dts_month x) (dt.dts_day x) = z.
Proof.
  rewrite set_datetimestruct_days_eq. cbv zeta. simpl.
  destruct (days_to_yearsdays_spec z) as [Hyd Hz].
  destruct (dt.month_and_day _ 0 _) as [m d] eqn:Hmd.
  destruct (month_and_day_spec _ _ _ _ Hyd Hmd) as [Hvalid Hsum].
  split; [exact Hvalid|].
  unfold date_to_days. simpl. lia.
Qed.

(** The day count of a date has the fields of the date. *)
Lemma days_of_fields (y m d : Z) :
  valid_date y m d ->
  dt.set_datetimestruct_days (date_to_days y m d) = dt.mkDts y m d.
Proof.
  intros Hvalid. rewrite set_datetimestruct_days_eq. cbv zeta.
  destruct (days_to_yearsdays_spec (date_to_days y m d)) as [Hyd Hz].
  pose proof (months_fill_year _ _ _ Hvalid) as Hfill.
  unfold date_to_days in Hz at 1.
  destruct (year_unique y _ (months_before y m + (d - 1)) _ Hfill Hyd
              ltac:(lia)) as [Hy Hd].
  rewrite <- Hy, <- Hd. now rewrite month_and_day_of_date.
Qed.

Lemma next_date_days (y m d : Z) :
  valid_date y m d ->
  let x := next_date (dt.mkDts y m d) in
  valid_date (dt.dts_year x) (dt.dts_month x) (dt.dts_day x)
  /\ date_to_days (dt.dts_year x) (dt.dts_month x) (dt.dts_day x)
     = date_to_days y m d + 1.
Proof.
  intros Hvalid. unfold next_date.
  destruct (Z.ltb_spec d (days_in_month y m)) as [Hlt | Hge].
  - simpl. unfold valid_date in *. unfold date_to_days. lia.
  - destruct (Z.ltb_spec m 12) as [Hm | Hm];
      cbn [dt.dts_year dt.dts_month dt.dts_day];
      revert Hvalid Hge;
      unfold valid_date, date_to_days, days_in_month, months_before;
      intros [Hm' Hd] Hge.
    + month_cases m; try lia;
        destruct (dt.is_leapyear y); calc_months; lia.
    + assert (m = 12) as -> by lia.
      rewrite year_start_next. unfold year_length.
      destruct (dt.is_leapyear y); destruct (dt.is_leapyear (y + 1));
        calc_months; lia.
Qed.

(** The day after carries the date after. *)
Lemma next_day (z : Z) :
  dt.set_datetimestruct_days (z + 1)
  = next_date (dt.set_datetimestruct_days z).
Proof.
  destruct (fields_of_days z) as [Hvalid Hz].
  destruct (dt.set_datetimestruct_days z) as [y m d] eqn:Hx.
  cbn [dt.dts_year dt.dts_month dt.dts_day] in Hvalid, Hz.
  destruct (next_date_days y m d Hvalid) as [Hvalid' Hz'].
  set (x' := next_date (dt.mkDts y m d)) in *.
  rewrite <- Hz, <- Hz', (days_of_fields _ _ _ Hvalid').
  now destruct x'.
Qed.

(** The day of the week of a date turns with the day count: Thursday on
    the day 0, the day after on the day after. *)
Lemma weekday_of_date (y m d : Z) :
  1 <= m <= 12 ->
  dt.weekday y m d = (date_to_days y m d + 3) mod 7.
Proof.
  intros Hm. unfold dt.weekday, date_to_days, year_start, months_before.
  unfold dt.is_leapyear.
  month_cases m; cbn [Z.ltb Z.compare Pos.compare Pos.compare_cont];
    leap_cases; calc_months; Z.div_mod_to_equations; lia.
Qed.

End DtFacts.

(** ** bronze_to_silver: the calendar transformer *)

Definition calendar_processed (rows : list Silver.Calendar.row) : string :=
  ("Calendar data processed: " ++ string_of_nat (length rows)
   ++ " rows")%string.

(** A date field [pd.to_datetime] reads, and the timestamp it reads. *)
Definition is_date (d : csv_date) : bool :=
  match d with CsvNoDate _ => false | _ => true end.

Definition timestamp_of (d : csv_date) : datetime :=
  match d with CsvDate ns => Some ns | _ => None end.

Lemma to_datetime_dates (column : list csv_date) :
  forallb is_date column = true ->
  bronze_to_silver.to_datetime column = Ok (map timestamp_of column).
Proof.
  unfold bronze_to_silver.to_datetime.
  induction column as [|d column IH]; simpl; intros Hall.
  - reflexivity.
  - apply andb_true_iff in Hall. destruct Hall as [Hd Hrest].
    rewrite (IH Hrest). now destruct d.
Qed.

Lemma to_datetime_no_date (column : list csv_date) :
  forallb is_date column = false ->
  bronze_to_silver.to_datetime column = Raise ValueError.
Proof.
  unfold bronze_to_silver.to_datetime.
  induction column as [|d column IH]; simpl; intros Hall.
  - discriminate.
  - destruct d as [ns| |text]; simpl in *; try reflexivity;
      now rewrite (IH Hall).
Qed.

Lemma to_datetime_inv (column : list csv_date) (dates : list datetime) :
  bronze_to_silver.to_datetime column = Ok dates ->
  forallb is_date column = true /\ dates = map timestamp_of column.
Proof.
  intros Hrun. destruct (forallb is_date column) eqn:Hall.
  - rewrite (to_datetime_dates _ Hall) in Hrun. now inversion Hrun.
  - rewrite (to_datetime_no_date _ Hall) in Hrun. discriminate.
Qed.

Lemma process_calendar_data_runs (file : calendar_csv) (w : world) :
  bronze_to_silver.process_calendar_data file w
  = match file with
    | NoCalendarFile => (Raise FileNotFoundError, w)
    | NoDateColumn => (Raise KeyError, w)
    | CalendarDates Date =>
        match bronze_to_silver.to_datetime Date with
        | Ok dates =>
            let rows := map bronze_to_silver.calendar_row dates in
            (Ok rows,
             silver_written w "AdventureWorks_Calendar.parquet"
               (Silver.Calendar rows) [calendar_processed rows])
        | Raise e => (Raise e, w)
        end
    end.
Proof.
  unfold bronze_to_silver.process_calendar_data.
  destruct file as [|Date|]; reflexivity.
Qed.

(** The date a calendar row carries. *)
Definition row_date (r : Silver.Calendar.row) : option dt.datetimestruct :=
  match Silver.Calendar.Year r, Silver.Calendar.Month r,
        Silver.Calendar.Day r with
  | Some y, Some m, Some d => Some (dt.mkDts y m d)
  | _, _, _ => None
  end.

Lemma row_date_fields (ns : Z) :
  row_date (bronze_to_silver.calendar_row (Some ns)) = Some (dt.fields ns).
Proof.
  unfold row_date, bronze_to_silver.calendar_row. simpl.
  unfold dt.year, dt.month, dt.day. now destruct (dt.fields ns).
Qed.

(** The calendar of the examples: the first day of 1970, the leap day of
    2016, the last day of 2017 at noon, and a line without a date. *)
Definition calendar_example : calendar_csv :=
  CalendarDates
    [ CsvDate 0; CsvDate 1456704000000000000;
      CsvDate 1514721600000000000; CsvMissing ].

(** X1: whatever the calendar transformer returns, a row with a date
    carries in Year, Month and Day a date of the Gregorian calendar - a
    month from 1 to 12, a day from 1 to the length of that month in that
    year - and the day count of that date since 1970-01-01 is the day of
    the row's timestamp; a row whose date is missing has no field. *)
Theorem calendar_fields_are_dates (file : calendar_csv) (w w' : world)
  (rows : list Silver.Calendar.row) :
  bronze_to_silver.process_calendar_data file w = (Ok rows, w') ->
  forall r, In r rows ->
    match Silver.Calendar.Date r with
    | Some ns =>
        exists y m d,
          Silver.Calendar.Year r = Some y
          /\ Silver.Calendar.Month r = Some m
          /\ Silver.Calendar.Day r = Some d
          /\ 1 <= m <= 12
          /\ 1 <= d <= DtFacts.days_in_month y m
          /\ DtFacts.date_to_days y m d = ns / dt.perday
    | None =>
        Silver.Calendar.Year r = None
        /\ Silver.Calendar.Month r = None
        /\ Silver.Calendar.Day r = None
        /\ Silver.Calendar.DayOfWeek r = None
        /\ Silver.Calendar.DayName r = None
        /\ Silver.Calendar.MonthName r = None
        /\ Silver.Calendar.Quarter r = None
    end.
Proof.
  intros Hrun r Hr. rewrite process_calendar_data_runs in Hrun.
  destruct file as [|Date|]; try discriminate.
  destruct (bronze_to_silver.to_datetime Date) as [dates|e];
    [|discriminate].
  cbv zeta in Hrun. injection Hrun as <- _.
  apply in_map_iff in Hr. destruct Hr as [[ns|] [<- _]]; simpl.
  - destruct (DtFacts.fields_of_days (ns / dt.perday)) as [[Hm Hd] Hz].
    exists (dt.year ns), (dt.month ns), (dt.day ns).
    repeat split; try reflexivity; solve [apply Hm | apply Hd | exact Hz].
  - repeat split.
Qed.

Lemma calendar_fields_are_dates_witness :
  exists rows w',
    bronze_to_silver.process_calendar_data calendar_example
      (mkWorld empty_dir empty_dir empty_dir [] [])
    = (Ok rows, w')
    /\ map row_date rows
       = [ Some (dt.mkDts 1970 1 1); Some (dt.mkDts 2016 2 29);
           Some (dt.mkDts 2017 12 31); None ]
    /\ DtFacts.date_to_days 2016 2 29 = 1456704000000000000 / dt.perday.
Proof.
  destruct (bronze_to_silver.process_calendar_data calendar_example
              (mkWorld empty_dir empty_dir empty_dir [] []))
    as [[rows|e] w'] eqn:Hrun; [|vm_compute in Hrun; discriminate].
  exists rows, w'.
  pose proof (calendar_fields_are_dates _ _ _ _ Hrun) as Hrows.
  vm_compute in Hrun. injection Hrun as <- _.
  split; [reflexivity|]. split; [reflexivity|].
  destruct (Hrows _ (or_intror (or_introl eq_refl)))
    as (y & m & d & Hy & Hm & Hd & _ & _ & Hz).
  injection Hy as <-. injection Hm as <-. injection Hd as <-. exact Hz.
Defined.

(** X2: a line that holds a time of the day y-m-d of the calendar gets
    that date back: Year y, Month m and Day d. *)
Theorem calendar_date_round_trip (y m d t : Z) :
  1 <= m <= 12 -> 1 <= d <= DtFacts.days_in_month y m ->
  0 <= t < dt.perday ->
  let Date := Some (DtFacts.date_to_days y m d * dt.perday + t) in
  let r := bronze_to_silver.calendar_row Date in
  Silver.Calendar.Date r = Date
  /\ Silver.Calendar.Year r = Some y
  /\ Silver.Calendar.Month r = Some m
  /\ Silver.Calendar.Day r = Some d.
Proof.
  intros Hm Hd Ht Date r.
  assert (dt.fields (DtFacts.date_to_days y m d * dt.perday + t)
          = dt.mkDts y m d) as Hfields.
  { unfold dt.fields.
    replace ((DtFacts.date_to_days y m d * dt.perday + t) / dt.perday)
      with (DtFacts.date_to_days y m d).
    - apply DtFacts.days_of_fields. now split.
    - apply (Z.div_unique _ _ _ t); [left; exact Ht | ring]. }
  unfold r, Date, bronze_to_silver.calendar_row. simpl.
  unfold dt.year, dt.month, dt.day. rewrite Hfields. repeat split.
Qed.

Lemma calendar_date_round_trip_witness :
  DtFacts.date_to_days 2016 2 29 * dt.perday = 1456704000000000000
  /\ row_date
       (bronze_to_silver.calendar_row (Some 1456704000000000000))
     = Some (dt.mkDts 2016 2 29).
Proof.
  split; [reflexivity|].
  destruct (calendar_date_round_trip 2016 2 29 0) as (_ & Hy & Hm & Hd);
    [lia | vm_compute; split; discriminate
     | vm_compute; split; [discriminate | reflexivity] |].
  unfold row_date.
  change (DtFacts.date_to_days 2016 2 29 * dt.perday + 0)
    with 1456704000000000000 in Hy, Hm, Hd.
  now rewrite Hy, Hm, Hd.
Defined.

(** X3: the row of the day after carries the date after: the next day of
    the month, or the first of the next month after the last day of a
    month, or the first of January of the next year after the 31st of
    December; and the day 0 is 1970-01-01. *)
Theorem calendar_consecutive_days (ns : Z) :
  row_date (bronze_to_silver.calendar_row (Some 0))
  = Some (dt.mkDts 1970 1 1)
  /\ row_date (bronze_to_silver.calendar_row (Some (ns + dt.perday)))
     = option_map DtFacts.next_date
         (row_date (bronze_to_silver.calendar_row (Some ns))).
Proof.
  split; [reflexivity|].
  rewrite !row_date_fields. simpl. f_equal. unfold dt.fields.
  replace ((ns + dt.perday) / dt.perday) with (ns / dt.perday + 1).
  - apply DtFacts.next_day.
  - symmetry. replace (ns + dt.perday) with (ns + 1 * dt.perday) by ring.
    apply Z.div_add. discriminate.
Qed.

(** X4: DayOfWeek counts the days from Monday, 0, to Sunday, 6: it is 3,
    a Thursday, on the day 0 and one more, modulo 7, each day after;
    DayName and MonthName are the English names of DayOfWeek and of
    Month; Quarter is the quarter of Month, from 1 to 4. *)
Theorem calendar_weekday_and_quarter (ns : Z) :
  let r := bronze_to_silver.calendar_row (Some ns) in
  exists dow m,
    Silver.Calendar.DayOfWeek r = Some dow
    /\ Silver.Calendar.Month r = Some m
    /\ dow = (ns / dt.perday + 3) mod 7
    /\ Silver.Calendar.DayName r
       = nth_error
           [ "Monday"; "Tuesday"; "Wednesday"; "Thursday"; "Friday";
             "Saturday"; "Sunday" ]%string
           (Z.to_nat dow)
    /\ Silver.Calendar.MonthName r
       = nth_error
           [ "January"; "February"; "March"; "April"; "May"; "June";
             "July"; "August"; "September"; "October"; "November";
             "December" ]%string
           (Z.to_nat (m - 1))
    /\ Silver.Calendar.Quarter r = Some ((m + 2) / 3)
    /\ 1 <= (m + 2) / 3 <= 4.
Proof.
  intros r. exists (dt.dayofweek ns), (dt.month ns).
  destruct (DtFacts.fields_of_days (ns / dt.perday)) as [[Hm Hd] Hz].
  fold (dt.fields ns) in Hm, Hd, Hz.
  fold (dt.year ns) in Hd, Hz. fold (dt.month ns) in Hm, Hd, Hz.
  fold (dt.day ns) in Hd, Hz.
  assert (dt.dayofweek ns = (ns / dt.perday + 3) mod 7) as Hdow.
  { unfold dt.dayofweek. rewrite (DtFacts.weekday_of_date _ _ _ Hm).
    now rewrite Hz. }
  split; [reflexivity|]. split; [reflexivity|].
  split; [exact Hdow|]. unfold r, bronze_to_silver.calendar_row. simpl.
  split; [|split; [|split]].
  - unfold dt.day_name. rewrite Hdow.
    pose proof (Z.mod_pos_bound (ns / dt.perday + 3) 7 ltac:(lia)) as Hb.
    remember ((ns / dt.perday + 3) mod 7) as k eqn:Ek. clear Ek Hdow.
    assert (k = 0 \/ k = 1 \/ k = 2 \/ k = 3 \/ k = 4 \/ k = 5 \/ k = 6)
      as Hk by lia.
    repeat (destruct Hk as [Hk | Hk]); subst k; reflexivity.
  - unfold dt.month_name. clear Hd Hz.
    remember (dt.month ns) as m eqn:Em. clear Em.
    DtFacts.month_cases m; reflexivity.
  - unfold dt.quarter. f_equal. clear Hd Hz.
    remember (dt.month ns) as m eqn:Em. clear Em.
    DtFacts.month_cases m; reflexivity.
  - Z.div_mod_to_equations. lia.
Qed.

(** X5: the calendar transformer fails on a missing file
    (FileNotFoundError), on a file without a Date column (KeyError) and
    on a Date that is no date (ValueError), and then it has written and
    printed nothing; when every Date is a date or missing it returns one
    row for each line, in the order of the file, writes that table to
    silver and prints the number of its rows. *)
Theorem calendar_transformer_outcome (w : world) (Date : list csv_date) :
  bronze_to_silver.process_calendar_data NoCalendarFile w
  = (Raise FileNotFoundError, w)
  /\ bronze_to_silver.process_calendar_data NoDateColumn w
     = (Raise KeyError, w)
  /\ (forallb is_date Date = false ->
      bronze_to_silver.process_calendar_data (CalendarDates Date) w
      = (Raise ValueError, w))
  /\ (forallb is_date Date = true ->
      exists rows,
        bronze_to_silver.process_calendar_data (CalendarDates Date) w
        = (Ok rows,
           silver_written w "AdventureWorks_Calendar.parquet"
             (Silver.Calendar rows) [calendar_processed rows])
        /\ map Silver.Calendar.Date rows = map timestamp_of Date
        /\ length rows = length Date).
Proof.
  rewrite !process_calendar_data_runs.
  split; [reflexivity|]. split; [reflexivity|]. split.
  - intros Hall. now rewrite (to_datetime_no_date _ Hall).
  - intros Hall. rewrite (to_datetime_dates _ Hall).
    eexists. split; [reflexivity|].
    rewrite !map_map, !length_map. split; reflexivity.
Qed.

(** ** bronze_to_silver: the product transformer *)

Definition products_processed (rows : list Silver.Product.row) : string :=
  ("Product data processed: " ++ string_of_nat (length rows)
   ++ " rows")%string.

(** The silver product of a bronze line and its coerced key. *)
Definition silver_product (line : Bronze.Product.row) (key : Z)
  : Silver.Product.row :=
  Silver.Product.mk key
    (if F64.is_nan (Bronze.Product.ProductSubcategoryKey line)
     then F64.of_int (-1)
     else Bronze.Product.ProductSubcategoryKey line)
    (fillna "Unknown Product" (Bronze.Product.ProductName line))
    (fillna "Unknown Model" (Bronze.Product.ModelName line))
    (Bronze.Product.ProductPrice line).

Lemma process_product_data_runs (w : world)
  (product_df : list Bronze.Product.row) :
  Data w "AdventureWorks_Products.csv" = Some (Bronze.Products product_df) ->
  bronze_to_silver.process_product_data w
  = match astype_int (map Bronze.Product.ProductKey product_df) with
    | Ok keys =>
        let rows :=
          map (fun '(r, key) => silver_product r key)
            (combine product_df keys) in
        (Ok rows,
         silver_written w "AdventureWorks_Products.parquet"
           (Silver.Products rows) [products_processed rows])
    | Raise e => (Raise e, w)
    end.
Proof.
  intros Hdata. unfold bronze_to_silver.process_product_data.
  unfold bind at 1. unfold read_csv. rewrite Hdata. simpl.
  unfold bind at 1. unfold lift.
  destruct (astype_int (map Bronze.Product.ProductKey product_df));
    reflexivity.
Qed.


(** A product file of two lines: a helmet without a subcategory, and a
    product without a name. *)
Definition product_lines : list Bronze.Product.row :=
  [ Bronze.Product.mk (PyInt 1) F64.nan (Some "Helmet"%string)
      (Some "Sport-100"%string) (F64.of_int 10);
    Bronze.Product.mk (PyInt 2) (F64.of_int 31) None None (F64.of_int 25) ].


(** ** bronze_to_silver: the rows of the sales table *)

Lemma merge_left_unique {L R KL KR : Type} (eqb : KL -> KR -> bool)
  (left_on : L -> KL) (right_on : R -> KR) (left : list L) (right : list R) :
  (forall l, In l left ->
             (length (matches eqb left_on right_on right l) <= 1)%nat) ->
  merge_left eqb left_on right_on left right
  = map (fun l => (l, hd_error (matches eqb left_on right_on right l))) left.
Proof.
  induction left as [|l left IH]; intros Hone.
  - reflexivity.
  - specialize (IH (fun l' Hl' => Hone l' (or_intror Hl'))).
    specialize (Hone l (or_introl eq_refl)).
    change (merge_left eqb left_on right_on (l :: left) right)
      with (match matches eqb left_on right_on right l with
            | [] => [(l, None)]
            | rs => map (fun r => (l, Some r)) rs
            end ++ merge_left eqb left_on right_on left right).
    rewrite IH. cbn [map].
    destruct (matches eqb left_on right_on right l) as [|r [|r' rs]];
      simpl in *; try reflexivity; lia.
Qed.

(** No key matches two lines of the product file. *)
Definition product_keys_unique (product_df : list Bronze.Product.row)
  : Prop :=
  forall key : Z,
    (length
       (filter
          (fun p =>
             bronze_to_silver.key_matches
               (dtype_of (map Bronze.Product.ProductKey product_df))
               key (Bronze.Product.ProductKey p))
          product_df)
     <= 1)%nat.

(** X7: the sales table the silver transformer returns has at least as
    many rows as the yearly files that exist have lines; when no key
    matches two lines of the product file, it has exactly one row for
    each line, in the order of the files 2015, 2016, 2017 and of the lines
    in them. *)
Theorem sales_one_row_per_line (w w' : world)
  (rows : list Silver.Sales.row) (product_df : list Bronze.Product.row) :
  bronze_to_silver.process_sales_data w = (Ok (Some rows), w') ->
  Data w "AdventureWorks_Products.csv" = Some (Bronze.Products product_df) ->
  let lines := concat (present_frames bronze_to_silver.sales_files w) in
  (length lines <= length rows)%nat
  /\ (product_keys_unique product_df -> Forall2 from_line lines rows).
Proof.
  intros Hrun Hdata lines.
  destruct (process_sales_data_inv _ _ _ Hrun)
    as [_ [[_ [Hnone _]] | [_ Hsome]]]; [discriminate|].
  destruct Hsome as (od & sd & oq & ck & pk & product_df' & rows' & Hres
                     & Hod & Hsd & Hoq & Hck & Hpk & Hprod & _ & Hrows & _).
  injection Hres as <-. rewrite Hdata in Hprod. injection Hprod as <-.
  fold lines in Hod, Hsd, Hoq, Hck, Hpk, Hrows.
  pose proof (assign_Forall2 _ _ _ _ _ _
                (mapM_Forall2 _ _ _ Hod) (mapM_Forall2 _ _ _ Hsd)
                (astype_int_Forall2 _ _ Hoq) (astype_int_Forall2 _ _ Hck)
                (astype_int_Forall2 _ _ Hpk)) as Hlines.
  set (coerced := bronze_to_silver.assign _ od sd oq ck pk) in *.
  split.
  - rewrite Hrows. unfold final_df. rewrite length_map.
    rewrite (Forall2_length Hlines). apply merge_left_length.
  - intros Hunique. rewrite Hrows. unfold final_df.
    rewrite merge_left_unique by (intros c _; apply Hunique).
    rewrite map_map. clear - Hlines.
    induction Hlines as [|line c lines coerced Hline _ IH]; simpl.
    + constructor.
    + constructor; [apply Hline | exact IH].
Qed.

(** Two yearly files, of one and two lines, and two products: the three
    lines come back in the order 2015, 2017. *)
Definition two_years_world : world :=
  let line (number : string) (key qty : Z) :=
    Bronze.Sales.mk (CsvDate 0) (CsvDate 0) (Some number)
      (PyInt key) (PyInt 11000) (PyInt 1) (PyInt 1) (PyInt qty) in
  let product (key price : Z) :=
    Bronze.Product.mk (PyInt key) (F64.of_int 31) (Some "Helmet"%string)
      (Some "Sport-100"%string) (F64.of_int price) in
  mkWorld
    (put
       (put
          (put empty_dir "AdventureWorks_Sales_2017.csv"
             (Bronze.Sales [line "SO3"%string 2 3; line "SO4"%string 7 4]))
          "AdventureWorks_Sales_2015.csv" (Bronze.Sales [line "SO1"%string 1 2]))
       "AdventureWorks_Products.csv"
       (Bronze.Products [product 1 10; product 2 25]))
    empty_dir empty_dir [] [].

Lemma sales_one_row_per_line_witness :
  exists rows w',
    bronze_to_silver.process_sales_data two_years_world = (Ok (Some rows), w')
    /\ map Silver.Sales.OrderNumber rows
       = [Some "SO1"; Some "SO3"; Some "SO4"]%string
    /\ Forall2 from_line
         (concat (present_frames bronze_to_silver.sales_files two_years_world))
         rows.
Proof.
  destruct (bronze_to_silver.process_sales_data two_years_world)
    as [[[rows|]|e] w'] eqn:Hrun; try (vm_compute in Hrun; discriminate).
  exists rows, w'. split; [reflexivity|].
  assert (product_keys_unique
            [ Bronze.Product.mk (PyInt 1) (F64.of_int 31)
                (Some "Helmet"%string) (Some "Sport-100"%string)
                (F64.of_int 10);
              Bronze.Product.mk (PyInt 2) (F64.of_int 31)
                (Some "Helmet"%string) (Some "Sport-100"%string)
                (F64.of_int 25) ]) as Hunique.
  { intros key. cbn -[Z.eqb].
    destruct (Z.eqb_spec key 1), (Z.eqb_spec key 2); simpl; lia. }
  destruct (sales_one_row_per_line _ _ _ _ Hrun eq_refl) as [_ Hlines].
  split; [|exact (Hlines Hunique)].
  vm_compute in Hrun. now injection Hrun as <-.
Defined.

(** ** What a run leaves alone *)

(** [w'] differs from [w] at most in the silver files [sn], the gold files
    [gn], figures of [vn] saved after those of [w], and lines printed
    after those of [w]. *)
Definition changes_only (sn gn vn : list string) (w w' : world) : Prop :=
  Data w' = Data w
  /\ (forall name, ~ In name sn -> silver w' name = silver w name)
  /\ (forall name, ~ In name gn -> gold w' name = gold w name)
  /\ (exists saved,
         visualizations w' = visualizations w ++ saved /\ incl saved vn)
  /\ (exists lines, stdout w' = stdout w ++ lines).

Lemma changes_only_refl (sn gn vn : list string) (w : world) :
  changes_only sn gn vn w w.
Proof.
  repeat split; try reflexivity.
  - exists []. split; [now rewrite app_nil_r | intros x []].
  - exists []. now rewrite app_nil_r.
Qed.

Lemma changes_only_trans (sn gn vn : list string) (w1 w2 w3 : world) :
  changes_only sn gn vn w1 w2 -> changes_only sn gn vn w2 w3 ->
  changes_only sn gn vn w1 w3.
Proof.
  intros (Hd1 & Hs1 & Hg1 & [v1 [Hv1 Hi1]] & [l1 Hl1])
         (Hd2 & Hs2 & Hg2 & [v2 [Hv2 Hi2]] & [l2 Hl2]).
  split; [congruence|]. split; [|split; [|split]].
  - intros name Hn. rewrite (Hs2 name Hn). now apply Hs1.
  - intros name Hn. rewrite (Hg2 name Hn). now apply Hg1.
  - exists (v1 ++ v2). split.
    + rewrite Hv2, Hv1. now rewrite app_assoc.
    + now apply incl_app.
  - exists (l1 ++ l2). rewrite Hl2, Hl1. now rewrite app_assoc.
Qed.

Lemma changes_only_more (sn gn vn sn' gn' vn' : list string) (w w' : world) :
  incl sn sn' -> incl gn gn' -> incl vn vn' ->
  changes_only sn gn vn w w' -> changes_only sn' gn' vn' w w'.
Proof.
  intros Hs Hg Hv (Hd1 & Hs1 & Hg1 & [v1 [Hv1 Hi1]] & Hl1).
  split; [exact Hd1|]. split; [|split; [|split]].
  - intros name Hn. apply Hs1. intros Hin. now apply Hn, Hs.
  - intros name Hn. apply Hg1. intros Hin. now apply Hn, Hg.
  - exists v1. split; [exact Hv1|]. intros x Hx. now apply Hv, Hi1.
  - exact Hl1.
Qed.

(** A call that changes no more than that, in whatever world it runs and
    whether it returns or raises. *)
Definition keeps {A : Type} (sn gn vn : list string) (m : M A) : Prop :=
  forall w, changes_only sn gn vn w (snd (m w)).

Section Keeps.

Variables sn gn vn : list string.

Lemma keeps_ret {A : Type} (a : A) : keeps sn gn vn (ret a).
Proof. intros w. apply changes_only_refl. Qed.

Lemma keeps_raise {A : Type} (e : exn) : keeps sn gn vn (@raise A e).
Proof. intros w. apply changes_only_refl. Qed.

Lemma keeps_lift {A : Type} (r : result A) : keeps sn gn vn (lift r).
Proof. intros w. apply changes_only_refl. Qed.

Lemma keeps_bind {A B : Type} (m : M A) (k : A -> M B) :
  keeps sn gn vn m -> (forall a, keeps sn gn vn (k a)) ->
  keeps sn gn vn (bind m k).
Proof.
  intros Hm Hk w. unfold bind. specialize (Hm w).
  destruct (m w) as [[a|e] w1]; simpl in *.
  - eapply changes_only_trans; [exact Hm | apply Hk].
  - exact Hm.
Qed.

Lemma keeps_print (line : string) : keeps sn gn vn (print line).
Proof.
  intros w. unfold print. simpl. repeat split; try reflexivity.
  - exists []. split; [now rewrite app_nil_r | intros x []].
  - now exists [line].
Qed.

Lemma keeps_path_exists (name : string) : keeps sn gn vn (path_exists name).
Proof. intros w. apply changes_only_refl. Qed.

Lemma keeps_read_csv {A : Type} (name : string)
  (columns : Bronze.file -> option A) :
  keeps sn gn vn (read_csv name columns).
Proof.
  intros w. unfold read_csv.
  destruct (Data w name) as [f|]; [destruct (columns f)|];
    apply changes_only_refl.
Qed.

Lemma keeps_read_parquet {A : Type} (name : string)
  (columns : Silver.file -> option A) :
  keeps sn gn vn (read_parquet name columns).
Proof.
  intros w. unfold read_parquet.
  destruct (silver w name) as [f|]; [destruct (columns f)|];
    apply changes_only_refl.
Qed.

Lemma keeps_read_gold {A : Type} (name : string)
  (columns : Gold.file -> option A) :
  keeps sn gn vn (read_gold name columns).
Proof.
  intros w. unfold read_gold.
  destruct (gold w name) as [f|]; [destruct (columns f)|];
    apply changes_only_refl.
Qed.

Lemma keeps_to_silver (name : string) (f : Silver.file) :
  In name sn -> keeps sn gn vn (to_silver name f).
Proof.
  intros Hin w. unfold to_silver. simpl. repeat split; try reflexivity.
  - intros n Hn. unfold put. simpl.
    destruct (String.eqb_spec n name); [|reflexivity].
    subst n. contradiction.
  - exists []. split; [now rewrite app_nil_r | intros x []].
  - exists []. now rewrite app_nil_r.
Qed.

Lemma keeps_to_gold (name : string) (f : Gold.file) :
  In name gn -> keeps sn gn vn (to_gold name f).
Proof.
  intros Hin w. unfold to_gold. simpl. repeat split; try reflexivity.
  - intros n Hn. unfold put. simpl.
    destruct (String.eqb_spec n name); [|reflexivity].
    subst n. contradiction.
  - exists []. split; [now rewrite app_nil_r | intros x []].
  - exists []. now rewrite app_nil_r.
Qed.

Lemma keeps_savefig (name : string) :
  In name vn -> keeps sn gn vn (savefig name).
Proof.
  intros Hin w. unfold savefig. simpl. repeat split; try reflexivity.
  - exists [name]. split; [reflexivity|]. intros x [<- | []]. exact Hin.
  - exists []. now rewrite app_nil_r.
Qed.

End Keeps.

Lemma keeps_more {A : Type} (sn gn vn sn' gn' vn' : list string) (m : M A) :
  incl sn sn' -> incl gn gn' -> incl vn vn' ->
  keeps sn gn vn m -> keeps sn' gn' vn' m.
Proof.
  intros Hs Hg Hv Hm w. eapply changes_only_more; eauto.
Qed.

(** One step through the code of a call. *)
Ltac keeps_step :=
  lazymatch goal with
  | |- keeps _ _ _ (bind _ _) => apply keeps_bind; [|intros ?]
  | |- keeps _ _ _ (ret _) => apply keeps_ret
  | |- keeps _ _ _ (raise _) => apply keeps_raise
  | |- keeps _ _ _ (lift _) => apply keeps_lift
  | |- keeps _ _ _ (print _) => apply keeps_print
  | |- keeps _ _ _ (path_exists _) => apply keeps_path_exists
  | |- keeps _ _ _ (read_csv _ _) => apply keeps_read_csv
  | |- keeps _ _ _ (read_parquet _ _) => apply keeps_read_parquet
  | |- keeps _ _ _ (read_gold _ _) => apply keeps_read_gold
  | |- keeps _ _ _ (to_silver _ _) =>
      apply keeps_to_silver; simpl; tauto
  | |- keeps _ _ _ (to_gold _ _) => apply keeps_to_gold; simpl; tauto
  | |- keeps _ _ _ (savefig _) => apply keeps_savefig; simpl; tauto
  | |- keeps _ _ _ (match ?x with _ => _ end) => destruct x
  end.

Ltac keeps_all := cbv zeta; repeat (keeps_step; cbv zeta).

Definition silver_files : list string :=
  [ "AdventureWorks_Calendar.parquet"; "AdventureWorks_Customers.parquet";
    "AdventureWorks_Products.parquet"; "AdventureWorks_Sales.parquet" ]%string.

Definition gold_files : list string :=
  [ "sales_summary.parquet"; "customer_insights.parquet";
    "monthly_sales.parquet" ]%string.

Definition figures : list string :=
  [ "monthly_sales_trend.png"; "top_products.png";
    "customer_segments.png" ]%string.

Lemma keeps_read_sales_files (files : list string) :
  keeps [] [] [] (bronze_to_silver.read_sales_files files).
Proof.
  induction files as [|file files IH]; simpl.
  - apply keeps_ret.
  - keeps_all; try exact IH.
Qed.

Lemma keeps_bronze_main (calendar : calendar_csv) :
  keeps silver_files [] [] (bronze_to_silver.main calendar).
Proof.
  unfold bronze_to_silver.main, bronze_to_silver.process_calendar_data,
    bronze_to_silver.read_calendar_csv,
    bronze_to_silver.process_customer_data,
    bronze_to_silver.process_product_data,
    bronze_to_silver.process_sales_data, silver_files.
  keeps_all;
    try (eapply keeps_more; [| | |apply keeps_read_sales_files];
         intros x []).
Qed.

Lemma keeps_gold_main (kind : argsort_kind) :
  keeps [] gold_files [] (silver_to_gold.main kind).
Proof.
  unfold silver_to_gold.main, silver_to_gold.create_sales_summary,
    silver_to_gold.create_customer_insights,
    silver_to_gold.create_time_series_analysis, gold_files.
  keeps_all.
Qed.

Lemma keeps_visualize_main (kind : argsort_kind) :
  keeps [] [] figures (visualize.main kind).
Proof.
  unfold visualize.main, visualize.create_monthly_sales_trend,
    visualize.create_top_products_chart, visualize.create_customer_segments,
    figures.
  keeps_all.
Qed.

(** The layers a value of [--layers] runs. *)
Definition runs (stage args_layers : main.layers) : bool :=
  main.layers_eqb args_layers main.all || main.layers_eqb args_layers stage.

(** X8: a run of the pipeline, whether it completes or raises, never
    changes a file of Data; it changes silver at most in the four tables
    of the bronze-to-silver stage, and not at all when that stage is not
    run; gold at most in the three views of the silver-to-gold stage, and
    not at all when that stage is not run; it saves at most the three
    charts, and none when the visualizations are not run; and it only
    adds lines to the console. *)
Theorem each_stage_writes_its_layer (args_layers : main.layers)
  (calendar : calendar_csv) (kind : argsort_kind) (w : world) :
  changes_only
    (if runs main.bronze_to_silver args_layers then silver_files else [])
    (if runs main.silver_to_gold args_layers then gold_files else [])
    (if runs main.visualize args_layers then figures else [])
    w (snd (main.main args_layers calendar kind w)).
Proof.
  revert w. change (keeps
    (if runs main.bronze_to_silver args_layers then silver_files else [])
    (if runs main.silver_to_gold args_layers then gold_files else [])
    (if runs main.visualize args_layers then figures else [])
    (main.main args_layers calendar kind)).
  unfold main.main, main.run_bronze_to_silver, main.run_silver_to_gold,
    main.run_visualizations.
  destruct args_layers; cbn [runs main.layers_eqb orb];
    keeps_all;
    first [ eapply keeps_more; [| | |apply keeps_bronze_main]
          | eapply keeps_more; [| | |apply keeps_gold_main]
          | eapply keeps_more; [| | |apply keeps_visualize_main] ];
    first [apply incl_refl | intros x []].
Qed.

(** ** What a call that raises has written *)
















(** ** The stages *)

Lemma bind_ok_inv {A B : Type} (m : M A) (k : A -> M B) (w w' : world)
  (b : B) :
  bind m k w = (Ok b, w') ->
  exists a w1, m w = (Ok a, w1) /\ k a w1 = (Ok b, w').
Proof.
  unfold bind. destruct (m w) as [[a|e] w1]; intros Hrun.
  - now exists a, w1.
  - discriminate.
Qed.

Lemma bind_ok {A B : Type} (m : M A) (k : A -> M B) (w w1 : world) (a : A) :
  m w = (Ok a, w1) -> bind m k w = k a w1.
Proof. intros Hm. unfold bind. now rewrite Hm. Qed.

Lemma bind_raise {A B : Type} (m : M A) (k : A -> M B) (w w1 : world)
  (e : exn) :
  m w = (Raise e, w1) -> bind m k w = (Raise e, w1).
Proof. intros Hm. unfold bind. now rewrite Hm. Qed.

Lemma read_csv_inv {A : Type} (name : string)
  (columns : Bronze.file -> option A) (w w' : world) (df : A) :
  read_csv name columns w = (Ok df, w') ->
  w' = w /\ exists f, Data w name = Some f /\ columns f = Some df.
Proof.
  unfold read_csv. destruct (Data w name) as [f|]; [|discriminate].
  destruct (columns f) as [df'|] eqn:Hc; [|discriminate].
  intros [= <- <-]. split; [reflexivity|]. now exists f.
Qed.

Lemma read_parquet_inv {A : Type} (name : string)
  (columns : Silver.file -> option A) (w w' : world) (df : A) :
  read_parquet name columns w = (Ok df, w') ->
  w' = w /\ exists f, silver w name = Some f /\ columns f = Some df.
Proof.
  unfold read_parquet. destruct (silver w name) as [f|]; [|discriminate].
  destruct (columns f) as [df'|] eqn:Hc; [|discriminate].
  intros [= <- <-]. split; [reflexivity|]. now exists f.
Qed.

Lemma silver_written_lookup (w : world) (name : string) (f : Silver.file)
  (lines : list string) (n : string) :
  silver (silver_written w name f lines) n
  = if String.eqb n name then Some f else silver w n.
Proof. reflexivity. Qed.

Lemma silver_written_stdout (w : world) (name : string) (f : Silver.file)
  (lines : list string) :
  stdout (silver_written w name f lines) = stdout w ++ lines.
Proof. reflexivity. Qed.

Lemma process_customer_data_inv (w w' : world)
  (rows : list Silver.Customer.row) :
  bronze_to_silver.process_customer_data w = (Ok rows, w') ->
  w' = silver_written w "AdventureWorks_Customers.parquet"
         (Silver.Customers rows) [customers_processed rows].
Proof.
  intros Hrun. pose proof Hrun as Hread.
  unfold bronze_to_silver.process_customer_data in Hread.
  apply bind_ok_inv in Hread. destruct Hread as (df & w1 & Hread & _).
  apply read_csv_inv in Hread. destruct Hread as [_ [f [Hdata Hf]]].
  destruct f as [df'|df'|df']; try discriminate. injection Hf as ->.
  rewrite (process_customer_data_runs w df Hdata) in Hrun.
  destruct (astype_int _); [|discriminate].
  cbv zeta in Hrun. now injection Hrun as <- <-.
Qed.

Lemma process_product_data_inv (w w' : world)
  (rows : list Silver.Product.row) :
  bronze_to_silver.process_product_data w = (Ok rows, w') ->
  w' = silver_written w "AdventureWorks_Products.parquet"
         (Silver.Products rows) [products_processed rows].
Proof.
  intros Hrun. pose proof Hrun as Hread.
  unfold bronze_to_silver.process_product_data in Hread.
  apply bind_ok_inv in Hread. destruct Hread as (df & w1 & Hread & _).
  apply read_csv_inv in Hread. destruct Hread as [_ [f [Hdata Hf]]].
  destruct f as [df'|df'|df']; try discriminate. injection Hf as ->.
  rewrite (process_product_data_runs w df Hdata) in Hrun.
  destruct (astype_int _); [|discriminate].
  cbv zeta in Hrun. now injection Hrun as <- <-.
Qed.

Lemma process_calendar_data_inv (calendar : calendar_csv) (w w' : world)
  (rows : list Silver.Calendar.row) :
  bronze_to_silver.process_calendar_data calendar w = (Ok rows, w') ->
  w' = silver_written w "AdventureWorks_Calendar.parquet"
         (Silver.Calendar rows) [calendar_processed rows].
Proof.
  rewrite process_calendar_data_runs.
  destruct calendar as [|Date|]; try discriminate.
  destruct (bronze_to_silver.to_datetime Date); [|discriminate].
  cbv zeta. now intros [= <- <-].
Qed.

Definition bronze_done : string :=
  "All bronze data processed to silver layer successfully".

(** The worlds a run of the bronze-to-silver stage that completes goes
    through. *)
Lemma bronze_main_inv (calendar : calendar_csv) (w w' : world) :
  bronze_to_silver.main calendar w = (Ok tt, w') ->
  exists calendar_df customers_df products_df res w4,
    let w1 :=
      silver_written w "AdventureWorks_Calendar.parquet"
        (Silver.Calendar calendar_df) [calendar_processed calendar_df] in
    let w2 :=
      silver_written w1 "AdventureWorks_Customers.parquet"
        (Silver.Customers customers_df) [customers_processed customers_df] in
    let w3 :=
      silver_written w2 "AdventureWorks_Products.parquet"
        (Silver.Products products_df) [products_processed products_df] in
    bronze_to_silver.process_calendar_data calendar w = (Ok calendar_df, w1)
    /\ bronze_to_silver.process_customer_data w1 = (Ok customers_df, w2)
    /\ bronze_to_silver.process_product_data w2 = (Ok products_df, w3)
    /\ bronze_to_silver.process_sales_data w3 = (Ok res, w4)
    /\ w' = with_stdout w4 [bronze_done].
Proof.
  unfold bronze_to_silver.main. intros Hrun.
  apply bind_ok_inv in Hrun. destruct Hrun as (calendar_df & w1 & H1 & Hrun).
  apply bind_ok_inv in Hrun. destruct Hrun as (customers_df & w2 & H2 & Hrun).
  apply bind_ok_inv in Hrun. destruct Hrun as (products_df & w3 & H3 & Hrun).
  apply bind_ok_inv in Hrun. destruct Hrun as (res & w4 & H4 & Hrun).
  pose proof (process_calendar_data_inv _ _ _ _ H1) as ->.
  pose proof (process_customer_data_inv _ _ _ H2) as ->.
  pose proof (process_product_data_inv _ _ _ H3) as ->.
  exists calendar_df, customers_df, products_df, res, w4. cbv zeta.
  repeat (split; [assumption|]).
  unfold print in Hrun. now injection Hrun as <-.
Qed.

(** A yearly file exists. *)
Definition some_sales_file (w : world) : Prop :=
  exists file, In file bronze_to_silver.sales_files /\ Data w file <> None.

Definition no_sales_file (w : world) : Prop :=
  forall file, In file bronze_to_silver.sales_files -> Data w file = None.

(** What the sales transformer leaves of a world it returns in. *)
Lemma process_sales_data_world (w w' : world)
  (res : option (list Silver.Sales.row)) :
  bronze_to_silver.process_sales_data w = (Ok res, w') ->
  (some_sales_file w ->
   exists rows lines,
     res = Some rows
     /\ w' = silver_written w "AdventureWorks_Sales.parquet"
               (Silver.Sales rows) lines)
  /\ (no_sales_file w ->
      res = None /\ w' = with_stdout w ["No sales data found"%string]).
Proof.
  intros Hrun. split.
  - intros [file [Hin Hfile]].
    destruct (process_sales_data_inv _ _ _ Hrun)
      as [Hfiles [[Hp _] | [_ Hsome]]].
    + now rewrite (no_frame_no_file _ _ Hfiles Hp file Hin) in Hfile.
    + destruct Hsome as (? & ? & ? & ? & ? & ? & rows & Hres & _ & _ & _ & _
                         & _ & _ & _ & _ & Hw).
      now exists rows, (processing_lines bronze_to_silver.sales_files w
                     ++ [sales_processed rows]).
  - intros Hnone. rewrite (process_sales_data_none w Hnone) in Hrun.
    now injection Hrun as <- <-.
Qed.

(** X10: when the bronze-to-silver stage completes, silver holds the
    calendar, customer and product tables, and the sales table as soon as
    one of the yearly files exists.  When none exists the stage completes
    all the same: it leaves the sales table of silver as it was - absent,
    or that of an earlier run - and ends on "No sales data found" and the
    line that reports success. *)
Theorem bronze_stage_outcome (calendar : calendar_csv) (w w' : world) :
  bronze_to_silver.main calendar w = (Ok tt, w') ->
  (exists calendar_df customers_df products_df,
      silver w' "AdventureWorks_Calendar.parquet"
      = Some (Silver.Calendar calendar_df)
      /\ silver w' "AdventureWorks_Customers.parquet"
         = Some (Silver.Customers customers_df)
      /\ silver w' "AdventureWorks_Products.parquet"
         = Some (Silver.Products products_df))
  /\ (some_sales_file w ->
      exists sales_df,
        silver w' "AdventureWorks_Sales.parquet"
        = Some (Silver.Sales sales_df))
  /\ (no_sales_file w ->
      silver w' "AdventureWorks_Sales.parquet"
      = silver w "AdventureWorks_Sales.parquet"
      /\ exists lines,
           stdout w'
           = stdout w ++ lines ++ ["No sales data found"%string; bronze_done]).
Proof.
  intros Hrun. destruct (bronze_main_inv _ _ _ Hrun)
    as (calendar_df & customers_df & products_df & res & w4 & _ & _ & _
        & Hsales & ->).
  destruct (process_sales_data_world _ _ _ Hsales) as [Hsome Hnone].
  split; [|split].
  - exists calendar_df, customers_df, products_df.
    destruct (process_sales_data_inv _ _ _ Hsales)
      as [_ [[_ [_ ->]] | [_ Hrows]]].
    + repeat split; reflexivity.
    + destruct Hrows as (? & ? & ? & ? & ? & ? & rows & _ & _ & _ & _ & _
                         & _ & _ & _ & _ & ->).
      repeat split; reflexivity.
  - intros Hfile. destruct (Hsome Hfile) as (rows & lines & _ & ->).
    now exists rows.
  - intros Hno. destruct (Hnone Hno) as [_ ->]. split; [reflexivity|].
    exists [calendar_processed calendar_df; customers_processed customers_df;
            products_processed products_df].
    unfold with_stdout, silver_written. simpl.
    now rewrite <- !app_assoc.
Qed.

(** A calendar, a customer and a product file, and no yearly file. *)
Definition no_sales_world : world :=
  mkWorld
    (put
       (put empty_dir "AdventureWorks_Customers.csv"
          (Bronze.Customers
             [ Bronze.Customer.mk (PyInt 11000) (Some "Jon"%string)
                 (Some "Yang"%string) None (Some "M"%string) ]))
       "AdventureWorks_Products.csv" (Bronze.Products product_lines))
    empty_dir empty_dir [] [].

Lemma bronze_stage_outcome_witness :
  exists w',
    bronze_to_silver.main calendar_example no_sales_world = (Ok tt, w')
    /\ silver w' "AdventureWorks_Sales.parquet" = None
    /\ stdout w'
       = [ "Calendar data processed: 4 rows"; "Customer data processed: 1 rows";
           "Product data processed: 2 rows"; "No sales data found";
           bronze_done ]%string.
Proof.
  destruct (bronze_to_silver.main calendar_example no_sales_world)
    as [[[]|e] w'] eqn:Hrun; [|vm_compute in Hrun; discriminate].
  exists w'. split; [reflexivity|].
  destruct (bronze_stage_outcome _ _ _ Hrun) as (_ & _ & Hnone).
  destruct Hnone as [Hsales _].
  { intros file Hin.
    repeat (destruct Hin as [<- | Hin]; [reflexivity|]). contradiction. }
  split; [exact Hsales|].
  vm_compute in Hrun. now injection Hrun as <-.
Defined.

(** ** The silver-to-gold stage *)

(** The three views of the silver tables. *)
Definition sales_summary_of (kind : argsort_kind)
  (sales_df : list Silver.Sales.row) (products_df : list Silver.Product.row)
  : list Gold.SalesSummary.row :=
  sort_values kind Gold.SalesSummary.TotalSales false
    (map silver_to_gold.sales_summary_row
       (groupby silver_to_gold.product_group
          (sales_products sales_df products_df))).

Definition customer_insights_of (kind : argsort_kind)
  (sales_df : list Silver.Sales.row)
  (customers_df : list Silver.Customer.row)
  : list Gold.CustomerInsights.row :=
  sort_values kind Gold.CustomerInsights.TotalSpend false
    (map silver_to_gold.customer_insights_row
       (groupby silver_to_gold.customer_group
          (sales_customers sales_df customers_df))).

Definition monthly_sales_of (sales_df : list Silver.Sales.row)
  (calendar_df : list Silver.Calendar.row) : list Gold.MonthlySales.row :=
  sort_values_lex silver_to_gold.year_month
    (map silver_to_gold.monthly_sales_row
       (groupby silver_to_gold.month_group
          (sales_calendar sales_df calendar_df))).

Definition gold_lines : list string :=
  [ "Sales summary created successfully";
    "Customer insights created successfully";
    "Time series analysis created successfully" ]%string.

(** The world the stage leaves. *)
Definition gold_done (kind : argsort_kind) (w : world)
  (sales_df : list Silver.Sales.row) (products_df : list Silver.Product.row)
  (customers_df : list Silver.Customer.row)
  (calendar_df : list Silver.Calendar.row) : world :=
  mkWorld (Data w) (silver w)
    (put
       (put
          (put (gold w) "sales_summary.parquet"
             (Gold.SalesSummary (sales_summary_of kind sales_df products_df)))
          "customer_insights.parquet"
          (Gold.CustomerInsights
             (customer_insights_of kind sales_df customers_df)))
       "monthly_sales.parquet"
       (Gold.MonthlySales (monthly_sales_of sales_df calendar_df)))
    (visualizations w) (stdout w ++ gold_lines).

(** Silver holds the four tables. *)
Definition silver_tables (w : world) (sales_df : list Silver.Sales.row)
  (products_df : list Silver.Product.row)
  (customers_df : list Silver.Customer.row)
  (calendar_df : list Silver.Calendar.row) : Prop :=
  silver w "AdventureWorks_Sales.parquet" = Some (Silver.Sales sales_df)
  /\ silver w "AdventureWorks_Products.parquet"
     = Some (Silver.Products products_df)
  /\ silver w "AdventureWorks_Customers.parquet"
     = Some (Silver.Customers customers_df)
  /\ silver w "AdventureWorks_Calendar.parquet"
     = Some (Silver.Calendar calendar_df).

Lemma print_run (line : string) (w : world) :
  print line w = (Ok tt, with_stdout w [line]).
Proof. reflexivity. Qed.

Lemma gold_main_runs (kind : argsort_kind) (w : world)
  (sales_df : list Silver.Sales.row) (products_df : list Silver.Product.row)
  (customers_df : list Silver.Customer.row)
  (calendar_df : list Silver.Calendar.row) :
  silver_tables w sales_df products_df customers_df calendar_df ->
  silver_to_gold.main kind w
  = (Ok tt, gold_done kind w sales_df products_df customers_df calendar_df).
Proof.
  intros (Hs & Hp & Hc & Hd). unfold silver_to_gold.main.
  rewrite (bind_ok _ _ _ _ _ (create_sales_summary_runs kind w _ _ Hs Hp)).
  rewrite (bind_ok _ _ _ _ _ (print_run _ _)).
  erewrite bind_ok
    by (apply (create_customer_insights_runs kind _ customers_df sales_df);
        [exact Hc | exact Hs]).
  rewrite (bind_ok _ _ _ _ _ (print_run _ _)).
  erewrite bind_ok
    by (apply (create_time_series_analysis_runs _ sales_df calendar_df);
        [exact Hs | exact Hd]).
  rewrite print_run. unfold gold_done, with_stdout, gold_written, gold_lines.
  cbn [Data silver gold visualizations stdout].
  now rewrite <- !app_assoc.
Qed.

Lemma sales_parquet_inv (f : Silver.file) (df : list Silver.Sales.row) :
  sales_parquet f = Some df -> f = Silver.Sales df.
Proof. destruct f; simpl; congruence. Qed.

Lemma products_parquet_inv (f : Silver.file) (df : list Silver.Product.row) :
  products_parquet f = Some df -> f = Silver.Products df.
Proof. destruct f; simpl; congruence. Qed.

Lemma customers_parquet_inv (f : Silver.file)
  (df : list Silver.Customer.row) :
  customers_parquet f = Some df -> f = Silver.Customers df.
Proof. destruct f; simpl; congruence. Qed.

Lemma calendar_parquet_inv (f : Silver.file) (df : list Silver.Calendar.row) :
  calendar_parquet f = Some df -> f = Silver.Calendar df.
Proof. destruct f; simpl; congruence. Qed.

(** A run of the stage that completes found the four tables. *)
Lemma gold_main_inv (kind : argsort_kind) (w w' : world) :
  silver_to_gold.main kind w = (Ok tt, w') ->
  exists sales_df products_df customers_df calendar_df,
    silver_tables w sales_df products_df customers_df calendar_df.
Proof.
  unfold silver_to_gold.main. intros Hrun.
  apply bind_ok_inv in Hrun. destruct Hrun as (v1 & w1 & H1 & Hrun).
  pose proof H1 as H1'. unfold silver_to_gold.create_sales_summary in H1'.
  apply bind_ok_inv in H1'. destruct H1' as (sales_df & w0 & Hs & H1').
  apply read_parquet_inv in Hs. destruct Hs as [-> [f [Hs Hf]]].
  apply sales_parquet_inv in Hf. subst f.
  apply bind_ok_inv in H1'. destruct H1' as (products_df & wb & Hp & _).
  apply read_parquet_inv in Hp. destruct Hp as [_ [f [Hp Hf]]].
  apply products_parquet_inv in Hf. subst f.
  rewrite (create_sales_summary_runs kind w _ _ Hs Hp) in H1.
  injection H1 as _ <-.
  apply bind_ok_inv in Hrun. destruct Hrun as ([] & w2 & H2 & Hrun).
  rewrite print_run in H2. injection H2 as <-.
  apply bind_ok_inv in Hrun. destruct Hrun as (v3 & w3 & H3 & Hrun).
  pose proof H3 as H3'. unfold silver_to_gold.create_customer_insights in H3'.
  apply bind_ok_inv in H3'. destruct H3' as (customers_df & wc & Hc & _).
  apply read_parquet_inv in Hc. destruct Hc as [_ [f [Hc Hf]]].
  apply customers_parquet_inv in Hf. subst f.
  rewrite (create_customer_insights_runs kind _ customers_df sales_df Hc Hs)
    in H3.
  injection H3 as _ <-.
  apply bind_ok_inv in Hrun. destruct Hrun as ([] & w4 & H4 & Hrun).
  rewrite print_run in H4. injection H4 as <-.
  apply bind_ok_inv in Hrun. destruct Hrun as (v5 & w5 & H5 & _).
  unfold silver_to_gold.create_time_series_analysis in H5.
  apply bind_ok_inv in H5. destruct H5 as (sales_df' & wd & Hs' & H5).
  apply read_parquet_inv in Hs'. destruct Hs' as [-> _].
  apply bind_ok_inv in H5. destruct H5 as (calendar_df & w6 & Hd & _).
  apply read_parquet_inv in Hd. destruct Hd as [_ [f [Hd Hf]]].
  apply calendar_parquet_inv in Hf. subst f.
  exists sales_df, products_df, customers_df, calendar_df.
  unfold silver_tables.
  split; [exact Hs|]. split; [exact Hp|]. split; [exact Hc | exact Hd].
Qed.

(** X11: the silver-to-gold stage completes exactly when silver holds the
    sales, product, customer and calendar tables.  It has then written the
    three views - each the one its function returns in the world the
    stage started in, a later view leaving the earlier ones as written -
    and printed its three lines; silver is as it was.  Without the sales
    table it raises FileNotFoundError and has written and printed
    nothing. *)
Theorem gold_stage_outcome (kind : argsort_kind) (w : world) :
  ((exists w', silver_to_gold.main kind w = (Ok tt, w'))
   <-> exists sales_df products_df customers_df calendar_df,
         silver_tables w sales_df products_df customers_df calendar_df)
  /\ (forall w',
         silver_to_gold.main kind w = (Ok tt, w') ->
         exists sales_summary customer_insights monthly_sales,
           fst (silver_to_gold.create_sales_summary kind w) = Ok sales_summary
           /\ fst (silver_to_gold.create_customer_insights kind w)
              = Ok customer_insights
           /\ fst (silver_to_gold.create_time_series_analysis w)
              = Ok monthly_sales
           /\ gold w' "sales_summary.parquet"
              = Some (Gold.SalesSummary sales_summary)
           /\ gold w' "customer_insights.parquet"
              = Some (Gold.CustomerInsights customer_insights)
           /\ gold w' "monthly_sales.parquet"
              = Some (Gold.MonthlySales monthly_sales)
           /\ stdout w' = stdout w ++ gold_lines
           /\ (forall name, silver w' name = silver w name))
  /\ (silver w "AdventureWorks_Sales.parquet" = None ->
      silver_to_gold.main kind w = (Raise FileNotFoundError, w)).
Proof.
  split; [|split].
  - split.
    + intros [w' Hrun]. exact (gold_main_inv _ _ _ Hrun).
    + intros (sales_df & products_df & customers_df & calendar_df & Htables).
      eexists. exact (gold_main_runs kind w _ _ _ _ Htables).
  - intros w' Hrun.
    destruct (gold_main_inv _ _ _ Hrun)
      as (sales_df & products_df & customers_df & calendar_df & Htables).
    rewrite (gold_main_runs kind w _ _ _ _ Htables) in Hrun.
    injection Hrun as <-. destruct Htables as (Hs & Hp & Hc & Hd).
    exists (sales_summary_of kind sales_df products_df),
      (customer_insights_of kind sales_df customers_df),
      (monthly_sales_of sales_df calendar_df).
    rewrite (create_sales_summary_runs kind w _ _ Hs Hp).
    rewrite (create_customer_insights_runs kind w _ _ Hc Hs).
    rewrite (create_time_series_analysis_runs w _ _ Hs Hd).
    repeat split; reflexivity.
  - intros Hnone. unfold silver_to_gold.main.
    apply bind_raise. unfold silver_to_gold.create_sales_summary.
    apply bind_raise. unfold read_parquet. now rewrite Hnone.
Qed.

(** X12: the silver-to-gold stage run after a bronze-to-silver stage that
    completed completes too, if one of the yearly files exists.  If none
    exists, and silver had no sales table before, it raises
    FileNotFoundError at its first view - after the bronze-to-silver stage
    has reported success. *)
Theorem gold_stage_after_bronze_stage (calendar : calendar_csv)
  (kind : argsort_kind) (w w' : world) :
  bronze_to_silver.main calendar w = (Ok tt, w') ->
  (some_sales_file w ->
   exists w'', silver_to_gold.main kind w' = (Ok tt, w''))
  /\ (no_sales_file w ->
      silver w "AdventureWorks_Sales.parquet" = None ->
      silver_to_gold.main kind w' = (Raise FileNotFoundError, w')
      /\ last (stdout w') ""%string = bronze_done).
Proof.
  intros Hrun. destruct (bronze_main_inv _ _ _ Hrun)
    as (calendar_df & customers_df & products_df & res & w4 & _ & _ & _
        & Hsales & ->).
  destruct (process_sales_data_world _ _ _ Hsales) as [Hsome Hnone].
  split.
  - intros Hfile. destruct (Hsome Hfile) as (rows & lines & _ & ->).
    eexists.
    apply (gold_main_runs kind _ rows products_df customers_df calendar_df).
    repeat split; reflexivity.
  - intros Hno Hold. destruct (Hnone Hno) as [_ ->]. split.
    + unfold silver_to_gold.main.
      apply bind_raise. unfold silver_to_gold.create_sales_summary.
      apply bind_raise. unfold read_parquet.
      cbn [silver with_stdout silver_written].
      change (put (put (put (silver w) _ _) _ _) _ _
                "AdventureWorks_Sales.parquet")
        with (silver w "AdventureWorks_Sales.parquet").
      now rewrite Hold.
    + unfold with_stdout. cbn [stdout]. apply last_last.
Qed.

Lemma gold_stage_after_bronze_stage_witness :
  exists w' w'',
    bronze_to_silver.main calendar_example no_sales_world = (Ok tt, w')
    /\ silver_to_gold.main insertion_kind w' = (Raise FileNotFoundError, w'')
    /\ last (stdout w'') ""%string = bronze_done.
Proof.
  destruct (bronze_to_silver.main calendar_example no_sales_world)
    as [[[]|e] w'] eqn:Hrun; [|vm_compute in Hrun; discriminate].
  exists w', w'. split; [reflexivity|].
  destruct (gold_stage_after_bronze_stage _ insertion_kind _ _ Hrun)
    as [_ Hnone].
  apply Hnone; [|reflexivity].
  intros file Hin.
  repeat (destruct Hin as [<- | Hin]; [reflexivity|]). contradiction.
Defined.

(** ** The visualizations *)












(** ** The pipeline *)









(** ** silver_to_gold: who is in the customer insights *)

Lemma customer_group_Some (j : Silver.Sales.row * Silver.Customer.row)
  (k : Z * string * string * string * string) :
  silver_to_gold.customer_group j = Some k
  <-> Silver.Customer.FirstName (snd j) = Some (snd (fst (fst (fst k))))
      /\ Silver.Customer.LastName (snd j) = Some (snd (fst (fst k)))
      /\ k = (Silver.Sales.CustomerKey (fst j), snd (fst (fst (fst k))),
              snd (fst (fst k)), Silver.Customer.Gender (snd j),
              Silver.Customer.MaritalStatus (snd j)).
Proof.
  unfold silver_to_gold.customer_group.
  destruct k as [[[[key first] last] gender] status]. simpl.
  destruct (Silver.Customer.FirstName (snd j)) as [f|];
    destruct (Silver.Customer.LastName (snd j)) as [l|]; split;
    try (intros [Hf [Hl Hk]]; discriminate); try discriminate.
  - intros [= <- <- <- <- <-]. repeat split.
  - intros [[= ->] [[= ->] [= -> -> ->]]]. reflexivity.
Qed.

(** X15: a row of the customer insights is a customer of the customer
    table - with that key, first and last name, gender and marital
    status - who has a sales row; and a customer with a sales row and
    both names has a row.  A customer whose first or last name is missing
    has none, whatever the sales: the view has no row of a key that the
    customer table gives only to customers with a name missing. *)
Theorem insights_need_both_names (kind : argsort_kind) (w : world)
  (customers_df : list Silver.Customer.row)
  (sales_df : list Silver.Sales.row) :
  silver w "AdventureWorks_Customers.parquet"
  = Some (Silver.Customers customers_df) ->
  silver w "AdventureWorks_Sales.parquet" = Some (Silver.Sales sales_df) ->
  exists customer_insights w',
    silver_to_gold.create_customer_insights kind w = (Ok customer_insights, w')
    /\ (forall r,
           In r customer_insights ->
           exists s c,
             In s sales_df /\ In c customers_df
             /\ Silver.Sales.CustomerKey s = Silver.Customer.CustomerKey c
             /\ Gold.CustomerInsights.CustomerKey r
                = Silver.Customer.CustomerKey c
             /\ Silver.Customer.FirstName c
                = Some (Gold.CustomerInsights.FirstName r)
             /\ Silver.Customer.LastName c
                = Some (Gold.CustomerInsights.LastName r)
             /\ Gold.CustomerInsights.Gender r = Silver.Customer.Gender c
             /\ Gold.CustomerInsights.MaritalStatus r
                = Silver.Customer.MaritalStatus c)
    /\ (forall s c first last,
           In s sales_df -> In c customers_df ->
           Silver.Sales.CustomerKey s = Silver.Customer.CustomerKey c ->
           Silver.Customer.FirstName c = Some first ->
           Silver.Customer.LastName c = Some last ->
           exists r,
             In r customer_insights
             /\ insights_key r
                = (Silver.Customer.CustomerKey c, first, last,
                   Silver.Customer.Gender c, Silver.Customer.MaritalStatus c))
    /\ (forall key,
           (forall c,
               In c customers_df -> Silver.Customer.CustomerKey c = key ->
               Silver.Customer.FirstName c = None
               \/ Silver.Customer.LastName c = None) ->
           forall r,
             In r customer_insights ->
             Gold.CustomerInsights.CustomerKey r <> key).
Proof.
  intros Hc Hs. eexists _, _.
  split; [apply (create_customer_insights_runs kind w _ _ Hc Hs)|].
  set (joined_df := sales_customers sales_df customers_df).
  set (view := sort_values kind _ false _).
  assert (Permutation view
            (map silver_to_gold.customer_insights_row
               (groupby silver_to_gold.customer_group joined_df))) as Hperm
    by apply sort_values_perm.
  pose proof (view_key_iff _ _ _ insights_key_row _ _ Hperm) as Hkeys.
  assert (forall r,
             In r view ->
             exists s c,
               In s sales_df /\ In c customers_df
               /\ Silver.Sales.CustomerKey s = Silver.Customer.CustomerKey c
               /\ Gold.CustomerInsights.CustomerKey r
                  = Silver.Customer.CustomerKey c
               /\ Silver.Customer.FirstName c
                  = Some (Gold.CustomerInsights.FirstName r)
               /\ Silver.Customer.LastName c
                  = Some (Gold.CustomerInsights.LastName r)
               /\ Gold.CustomerInsights.Gender r = Silver.Customer.Gender c
               /\ Gold.CustomerInsights.MaritalStatus r
                  = Silver.Customer.MaritalStatus c) as Hrows.
  { intros r Hr.
    destruct (proj1 (Hkeys (insights_key r)) (in_map insights_key _ _ Hr))
      as [[s c] [Hj Hgroup]].
    apply merge_In in Hj. destruct Hj as [Hsin [Hcin Heq]].
    apply Z.eqb_eq in Heq.
    apply customer_group_Some in Hgroup. unfold insights_key in Hgroup.
    simpl in Hgroup. destruct Hgroup as [Hf [Hl Hk]].
    injection Hk as Hkey Hg Hm.
    exists s, c. repeat split; try assumption. congruence. }
  split; [exact Hrows|]. split.
  - intros s c first last Hsin Hcin Heq Hf Hl.
    assert (In (Silver.Customer.CustomerKey c, first, last,
                Silver.Customer.Gender c, Silver.Customer.MaritalStatus c)
              (map insights_key view)) as Hin.
    { apply Hkeys. exists (s, c). split.
      - apply merge_In. split; [exact Hsin|]. split; [exact Hcin|].
        now apply Z.eqb_eq.
      - apply customer_group_Some. simpl. rewrite Heq.
        repeat split; assumption. }
    apply in_map_iff in Hin. destruct Hin as [r [Hk Hr]]. now exists r.
  - intros key Hnames r Hr Hkey.
    destruct (Hrows r Hr) as (s & c & _ & Hcin & _ & Hrc & Hf & Hl & _).
    destruct (Hnames c Hcin ltac:(congruence)) as [Hnone | Hnone];
      congruence.
Qed.

(** The silver tables of the examples with a third customer, who bought
    and has no last name. *)
Definition nameless_world : world :=
  mkWorld empty_dir
    (put
       (put empty_dir "AdventureWorks_Sales.parquet"
          (Silver.Sales
             (silver_sales ++ [silver_line 1 11002 5 (F64.of_int 10)])))
       "AdventureWorks_Customers.parquet"
       (Silver.Customers
          (silver_customers
           ++ [Silver.Customer.mk 11002 (Some "Ruben"%string) None "M" "S"])))
    empty_dir [] [].

Lemma insights_need_both_names_witness :
  exists customer_insights,
    fst (silver_to_gold.create_customer_insights insertion_kind nameless_world)
    = Ok customer_insights
    /\ map Gold.CustomerInsights.CustomerKey customer_insights
       = [11001; 11000]
    /\ forall r,
         In r customer_insights ->
         Gold.CustomerInsights.CustomerKey r <> 11002.
Proof.
  destruct (insights_need_both_names insertion_kind nameless_world _ _
              eq_refl eq_refl)
    as (view & w' & Hrun & _ & _ & Hnames).
  exists view. rewrite Hrun. split; [reflexivity|]. split.
  - vm_compute in Hrun. now injection Hrun as <-.
  - apply Hnames. intros c Hc Hkey.
    repeat (destruct Hc as [<- | Hc]; [try discriminate; now right|]).
    contradiction.
Defined.

(** ** silver_to_gold: the sales that are counted *)

Lemma total_ones {A : Type} (l : list A) :
  total (map (fun _ => 1) l) = Z.of_nat (length l).
Proof.
  induction l as [|x l IH]; [reflexivity|].
  cbn [map length]. unfold total in *. cbn [fold_right]. rewrite IH. lia.
Qed.

Lemma filter_key_unique {A : Type} (key : A -> Z) (k : Z) (l : list A) :
  NoDup (map key l) ->
  (length (filter (fun r => (k =? key r)%Z) l) <= 1)%nat.
Proof.
  induction l as [|x l IH]; simpl; intros Hnd.
  - lia.
  - inversion Hnd as [|? ? Hx Hl]; subst. specialize (IH Hl).
    destruct (Z.eqb_spec k (key x)) as [-> | Hne]; [|exact IH].
    assert (filter (fun r => key x =? key r) l = []) as ->.
    { destruct (filter _ l) as [|y rest] eqn:Hf; [reflexivity|].
      assert (In y (filter (fun r => key x =? key r) l)) as Hy
        by (rewrite Hf; now left).
      apply filter_In in Hy. destruct Hy as [Hy Heq].
      apply Z.eqb_eq in Heq. exfalso. apply Hx. rewrite Heq.
      now apply in_map. }
    simpl. lia.
Qed.

(** The rows of an inner join on a key the right table has once each:
    the left rows that have a match. *)
Lemma merge_length_unique {L R : Type} (left_on : L -> Z) (right_on : R -> Z)
  (left : list L) (right : list R) :
  NoDup (map right_on right) ->
  length (merge Z.eqb left_on right_on left right)
  = length
      (filter (fun l => existsb (fun r => left_on l =? right_on r) right)
         left).
Proof.
  intros Hnd. unfold merge. induction left as [|l left IH].
  - reflexivity.
  - cbn [flat_map filter]. rewrite length_app, length_map, IH.
    pose proof (filter_key_unique right_on (left_on l) right Hnd) as Hone.
    unfold matches.
    destruct (existsb (fun r => left_on l =? right_on r) right) eqn:Hex.
    + apply existsb_exists in Hex. destruct Hex as [r [Hr Heq]].
      destruct (filter (fun r0 => left_on l =? right_on r0) right)
        as [|r0 rest] eqn:Hf.
      * assert (In r (filter (fun r0 => left_on l =? right_on r0) right))
          as Hin by (apply filter_In; now split).
        rewrite Hf in Hin. contradiction.
      * simpl in *. lia.
    + destruct (filter (fun r0 => left_on l =? right_on r0) right)
        as [|r0 rest] eqn:Hf; [reflexivity|].
      assert (In r0 (filter (fun r => left_on l =? right_on r) right))
        as Hin by (rewrite Hf; now left).
      apply filter_In in Hin. destruct Hin as [Hin Heq].
      assert (existsb (fun r => left_on l =? right_on r) right = true)
        as Habs by (apply existsb_exists; now exists r0).
      congruence.
Qed.

(** A sales row whose product the product table has. *)
Definition has_product (products_df : list Silver.Product.row)
  (s : Silver.Sales.row) : bool :=
  existsb
    (fun p => Silver.Sales.ProductKey s =? Silver.Product.ProductKey p)
    products_df.

(** X16: when no two rows of the product table share a ProductKey, the
    OrderCounts of the sales summary add up to the number of sales rows
    whose product the table has: each such row is counted once, in one
    row of the summary, and the others are not counted. *)
Theorem order_counts_with_unique_products (kind : argsort_kind) (w : world)
  (sales_df : list Silver.Sales.row) (products_df : list Silver.Product.row) :
  silver w "AdventureWorks_Sales.parquet" = Some (Silver.Sales sales_df) ->
  silver w "AdventureWorks_Products.parquet"
  = Some (Silver.Products products_df) ->
  NoDup (map Silver.Product.ProductKey products_df) ->
  exists sales_summary w',
    silver_to_gold.create_sales_summary kind w = (Ok sales_summary, w')
    /\ total (map Gold.SalesSummary.OrderCount sales_summary)
       = Z.of_nat (length (filter (has_product products_df) sales_df))
    /\ total (map Gold.SalesSummary.OrderCount sales_summary)
       <= Z.of_nat (length sales_df).
Proof.
  intros Hs Hp Hnd. eexists _, _.
  split; [apply (create_sales_summary_runs kind w _ _ Hs Hp)|].
  set (joined_df := sales_products sales_df products_df).
  set (groups := groupby silver_to_gold.product_group joined_df).
  assert (total
            (map Gold.SalesSummary.OrderCount
               (sort_values kind Gold.SalesSummary.TotalSales false
                  (map silver_to_gold.sales_summary_row groups)))
          = Z.of_nat (length (filter (has_product products_df) sales_df)))
    as Hcount.
  { rewrite (total_perm _ _
               (Permutation_map Gold.SalesSummary.OrderCount
                  (sort_values_perm kind Gold.SalesSummary.TotalSales false
                     (map silver_to_gold.sales_summary_row groups)))).
    assert (map Gold.SalesSummary.OrderCount
              (map silver_to_gold.sales_summary_row groups)
            = map (fun g => total (map (fun _ => 1) (snd g))) groups) as ->.
    { rewrite map_map. apply map_ext. intros [[[k n] m] rows]. simpl.
      unfold agg_count. now rewrite length_map, total_ones. }
    pose proof (product_groups_total joined_df (fun _ => 1)) as Htot.
    rewrite sum_of_groups_total in Htot. fold groups in Htot.
    rewrite Htot, total_ones. f_equal.
    apply (merge_length_unique Silver.Sales.ProductKey
             Silver.Product.ProductKey sales_df products_df Hnd). }
  split; [exact Hcount|].
  rewrite Hcount. apply Nat2Z.inj_le. apply filter_length_le.
Qed.

Lemma order_counts_with_unique_products_witness :
  exists sales_summary,
    fst (silver_to_gold.create_sales_summary insertion_kind silver_world)
    = Ok sales_summary
    /\ length silver_sales = 4%nat
    /\ total (map Gold.SalesSummary.OrderCount sales_summary) = 3.
Proof.
  assert (NoDup (map Silver.Product.ProductKey silver_products)) as Hnd.
  { repeat constructor; simpl; intuition discriminate. }
  destruct (order_counts_with_unique_products insertion_kind silver_world
              silver_sales silver_products eq_refl eq_refl Hnd)
    as (view & w' & Hrun & Hcount & _).
  exists view. rewrite Hrun. split; [reflexivity|]. split; [reflexivity|].
  rewrite Hcount. reflexivity.
Defined.

(** ** visualize: the top products *)

Lemma firstn_skipn_split {A : Type} (n : nat) (l : list A) (x y : A) :
  In x (firstn n l) -> In y (skipn n l) ->
  exists l1 l2, l = l1 ++ x :: l2 /\ In y l2.
Proof.
  intros Hx Hy. apply in_split in Hx. destruct Hx as [a [b Hab]].
  exists a, (b ++ skipn n l). split.
  - rewrite <- (firstn_skipn n l) at 1. rewrite Hab.
    now rewrite <- app_assoc.
  - apply in_or_app. now right.
Qed.

(** In keys that descend with the NaN last, a key that comes after
    another is a NaN or a number not above it, which is a number too. *)
Lemma descending_nan_last_after (keys l1 l2 : list float) (a b : float) :
  descending_nan_last keys -> keys = l1 ++ a :: l2 -> In b l2 ->
  F64.is_nan b = true
  \/ (F64.is_nan a = false /\ F64.leb b a = true).
Proof.
  intros (numbers & nans & Hkeys & Hnum & Hnan & Hsorted) Hsplit Hb.
  destruct (F64.is_nan b) eqn:Hbn; [now left | right].
  rewrite Hsplit in Hkeys. clear Hsplit.
  revert l1 Hkeys. induction Hsorted as [|x numbers Hs IH Hx]; intros l1 Hkeys.
  - simpl in Hkeys. rewrite forallb_forall in Hnan.
    assert (In b nans) as Hin
      by (rewrite <- Hkeys; apply in_or_app; right; now right).
    rewrite (Hnan b Hin) in Hbn. discriminate.
  - simpl in Hnum. apply andb_true_iff in Hnum. destruct Hnum as [Hxn Hnum].
    destruct l1 as [|c l1]; simpl in Hkeys; injection Hkeys as Hc Hrest.
    + subst a. split; [now apply negb_true_iff|].
      assert (In b (numbers ++ nans)) as Hin by (rewrite <- Hrest; exact Hb).
      apply in_app_or in Hin. destruct Hin as [Hin | Hin].
      * rewrite Forall_forall in Hx. now apply Hx.
      * rewrite forallb_forall in Hnan. rewrite (Hnan b Hin) in Hbn.
        discriminate.
    + exact (IH Hnum l1 Hrest).
Qed.

(** X17: the top products chart shows ten rows of the sales summary, or
    all of them when there are fewer, and they are the top ones: a row
    left out has a TotalSales that is not above that of any row shown, or
    is NaN; a row with a NaN is shown only if every row with a number
    is. *)
Theorem top_products_are_top (kind : argsort_kind)
  (sales_summary_df : list Gold.SalesSummary.row) :
  let top := visualize.top_products kind sales_summary_df in
  length top = Nat.min 10 (length sales_summary_df)
  /\ exists rest,
       Permutation (top ++ rest) sales_summary_df
       /\ forall shown left_out,
            In shown top -> In left_out rest ->
            F64.is_nan (Gold.SalesSummary.TotalSales left_out) = true
            \/ (F64.is_nan (Gold.SalesSummary.TotalSales shown) = false
                /\ F64.leb (Gold.SalesSummary.TotalSales left_out)
                     (Gold.SalesSummary.TotalSales shown) = true).
Proof.
  intros top. unfold top, visualize.top_products.
  set (sorted :=
         sort_values kind Gold.SalesSummary.TotalSales false sales_summary_df).
  pose proof (sort_values_perm kind Gold.SalesSummary.TotalSales false
                sales_summary_df) as Hperm.
  fold sorted in Hperm. split.
  - rewrite length_firstn. now rewrite (Permutation_length Hperm).
  - exists (skipn 10 sorted). split.
    + now rewrite firstn_skipn.
    + intros shown left_out Hshown Hleft.
      destruct (firstn_skipn_split _ _ _ _ Hshown Hleft)
        as (l1 & l2 & Hsplit & Hin).
      apply (descending_nan_last_after
               (map Gold.SalesSummary.TotalSales sorted)
               (map Gold.SalesSummary.TotalSales l1)
               (map Gold.SalesSummary.TotalSales l2)).
      * apply sort_values_descending.
      * rewrite Hsplit, map_app. reflexivity.
      * now apply in_map.
Qed.

(** ** visualize: the labels of the months *)

Lemma astype_str_inj (a b : Z) :
  visualize.astype_str a = visualize.astype_str b -> a = b.
Proof.
  unfold visualize.astype_str. intros Heq.
  assert (forall z, Z.to_int z <> Decimal.Pos Decimal.Nil
                    /\ Z.to_int z <> Decimal.Neg Decimal.Nil) as Hnonnil.
  { intros [|p|p]; simpl; split; try discriminate;
      intros [= Hnil]; now apply (DecimalPos.Unsigned.to_uint_nonnil p). }
  apply DecimalZ.to_int_inj.
  assert (Some (Z.to_int a) = Some (Z.to_int b)) as Hsome.
  { destruct (Hnonnil a) as [Ha1 Ha2]. destruct (Hnonnil b) as [Hb1 Hb2].
    rewrite <- (NilZero.isi _ Ha1 Ha2), <- (NilZero.isi _ Hb1 Hb2).
    now rewrite Heq. }
  now injection Hsome.
Qed.

Transparent String.append.

Lemma append_length (s t : string) :
  String.length (s ++ t) = (String.length s + String.length t)%nat.
Proof. induction s as [|c s IH]; simpl; [reflexivity | now rewrite IH]. Qed.

(** Two strings that end in suffixes of one length, and are equal, have
    equal parts. *)
Lemma append_inj_suffix (s1 s2 t1 t2 : string) :
  String.length t1 = String.length t2 ->
  (s1 ++ t1 = s2 ++ t2)%string -> s1 = s2 /\ t1 = t2.
Proof.
  revert s2. induction s1 as [|c s1 IH]; intros [|d s2] Hlen Heq; simpl in Heq.
  - now split.
  - exfalso. apply (f_equal String.length) in Heq. simpl in Heq.
    rewrite append_length in Heq. lia.
  - exfalso. apply (f_equal String.length) in Heq. simpl in Heq.
    rewrite append_length in Heq. lia.
  - injection Heq as -> Heq. destruct (IH s2 Hlen Heq) as [-> ->].
    now split.
Qed.

Opaque String.append.

(** The months in two digits. *)
Definition two_digits : list string :=
  [ "01"; "02"; "03"; "04"; "05"; "06"; "07"; "08"; "09"; "10"; "11";
    "12" ]%string.

Lemma zfill_month (m : Z) :
  1 <= m <= 12 ->
  visualize.zfill 2 (visualize.astype_str m)
  = nth (Z.to_nat (m - 1)) two_digits ""%string.
Proof. intros Hm. DtFacts.month_cases m; reflexivity. Qed.

Lemma two_digits_length (m : Z) :
  1 <= m <= 12 ->
  String.length (nth (Z.to_nat (m - 1)) two_digits ""%string) = 2%nat.
Proof. intros Hm. DtFacts.month_cases m; reflexivity. Qed.

Lemma two_digits_inj (m1 m2 : Z) :
  1 <= m1 <= 12 -> 1 <= m2 <= 12 ->
  nth (Z.to_nat (m1 - 1)) two_digits ""%string
  = nth (Z.to_nat (m2 - 1)) two_digits ""%string ->
  m1 = m2.
Proof.
  intros H1 H2. DtFacts.month_cases m1; DtFacts.month_cases m2;
    first [reflexivity | discriminate].
Qed.

Lemma NoDup_map_by {A B C : Type} (f : A -> B) (g : A -> C) (l : list A) :
  (forall x y, In x l -> In y l -> f x = f y -> g x = g y) ->
  NoDup (map g l) -> NoDup (map f l).
Proof.
  induction l as [|x l IH]; simpl; intros Hfg Hnd.
  - constructor.
  - inversion Hnd as [|? ? Hx Hl]; subst. constructor.
    + intros Hin. apply in_map_iff in Hin. destruct Hin as [y [Hy Hyin]].
      apply Hx. rewrite <- (Hfg y x (or_intror Hyin) (or_introl eq_refl) Hy).
      now apply in_map.
    + apply IH; [|exact Hl]. intros a b Ha Hb. apply Hfg; now right.
Qed.

(** X18: on a monthly view whose Year and Month are int64 columns, with
    months from 1 to 12, the label of a point of the trend chart is the
    year in decimal digits, a hyphen and the month in two digits; two
    rows have one label only if they have one year and month, so that the
    points of a view with one row a month all have different labels. *)
Theorem month_labels (monthly_sales_df : list Gold.MonthlySales.row) :
  (forall r, In r monthly_sales_df -> 1 <= Gold.MonthlySales.Month r <= 12) ->
  (forall r,
      In r monthly_sales_df ->
      visualize.YearMonth r
      = (visualize.astype_str (Gold.MonthlySales.Year r) ++ "-"
         ++ nth (Z.to_nat (Gold.MonthlySales.Month r - 1)) two_digits "")
        %string)
  /\ (forall r1 r2,
         In r1 monthly_sales_df -> In r2 monthly_sales_df ->
         visualize.YearMonth r1 = visualize.YearMonth r2 ->
         Gold.MonthlySales.Year r1 = Gold.MonthlySales.Year r2
         /\ Gold.MonthlySales.Month r1 = Gold.MonthlySales.Month r2)
  /\ (NoDup (map silver_to_gold.year_month monthly_sales_df) ->
      NoDup (map fst (visualize.monthly_sales_trend monthly_sales_df))).
Proof.
  intros Hmonths.
  assert (forall r,
             In r monthly_sales_df ->
             visualize.YearMonth r
             = (visualize.astype_str (Gold.MonthlySales.Year r) ++ "-"
                ++ nth (Z.to_nat (Gold.MonthlySales.Month r - 1))
                     two_digits "")%string) as Hlabel.
  { intros r Hr. unfold visualize.YearMonth.
    now rewrite (zfill_month _ (Hmonths r Hr)). }
  assert (forall r1 r2,
             In r1 monthly_sales_df -> In r2 monthly_sales_df ->
             visualize.YearMonth r1 = visualize.YearMonth r2 ->
             Gold.MonthlySales.Year r1 = Gold.MonthlySales.Year r2
             /\ Gold.MonthlySales.Month r1 = Gold.MonthlySales.Month r2)
    as Hinj.
  { intros r1 r2 H1 H2 Heq.
    rewrite (Hlabel r1 H1), (Hlabel r2 H2) in Heq.
    pose proof (Hmonths r1 H1) as Hm1. pose proof (Hmonths r2 H2) as Hm2.
    apply append_inj_suffix in Heq.
    - destruct Heq as [Hy Hm]. split; [now apply astype_str_inj|].
      apply (append_inj_suffix "-" "-") in Hm.
      + now apply two_digits_inj.
      + now rewrite (two_digits_length _ Hm1), (two_digits_length _ Hm2).
    - rewrite !append_length, (two_digits_length _ Hm1),
        (two_digits_length _ Hm2). reflexivity. }
  split; [exact Hlabel|]. split; [exact Hinj|].
  intros Hnd. unfold visualize.monthly_sales_trend. rewrite map_map.
  cbn [fst].
  apply (NoDup_map_by _ silver_to_gold.year_month); [|exact Hnd].
  intros r1 r2 H1 H2 Heq. destruct (Hinj r1 r2 H1 H2 Heq) as [Hy Hm].
  unfold silver_to_gold.year_month. now rewrite Hy, Hm.
Qed.

Lemma month_labels_witness :
  let rows :=
    [ Gold.MonthlySales.mk 2015 3 (F64.of_int 50) 2 (F64.of_int 25);
      Gold.MonthlySales.mk 2015 12 F64.zero 1 F64.zero;
      Gold.MonthlySales.mk 2016 3 F64.zero 1 F64.zero ] in
  map fst (visualize.monthly_sales_trend rows)
  = ["2015-03"; "2015-12"; "2016-03"]%string
  /\ NoDup (map fst (visualize.monthly_sales_trend rows)).
Proof.
  intros rows. split; [reflexivity|].
  apply (month_labels rows).
  - intros r Hr.
    repeat (destruct Hr as [<- | Hr]; [simpl; lia|]). contradiction.
  - repeat constructor; simpl; intuition discriminate.
Defined.

(** ** bronze_to_silver: the price of a sales row *)

Lemma filter_nil_false {A : Type} (f : A -> bool) (l : list A) :
  filter f l = [] -> forall x, In x l -> f x = false.
Proof.
  intros Hnil x Hx. destruct (f x) eqn:Hfx; [|reflexivity].
  assert (In x (filter f l)) as Hin by (apply filter_In; now split).
  rewrite Hnil in Hin. contradiction.
Qed.

(** X19: the UnitPrice of a row of the silver sales table is the
    ProductPrice of a line of the raw product file whose ProductKey matches
    the row's - a line of that very key when the keys of the product file
    are all integers - or it is null, no line of the product file matching
    the row's key. *)
Theorem sales_unit_price_is_product_price (w w' : world)
  (rows : list Silver.Sales.row) (product_df : list Bronze.Product.row) :
  bronze_to_silver.process_sales_data w = (Ok (Some rows), w') ->
  Data w "AdventureWorks_Products.csv" = Some (Bronze.Products product_df) ->
  let d := dtype_of (map Bronze.Product.ProductKey product_df) in
  (forall r,
      In r rows ->
      (exists p,
          In p product_df
          /\ bronze_to_silver.key_matches d (Silver.Sales.ProductKey r)
               (Bronze.Product.ProductKey p) = true
          /\ Silver.Sales.UnitPrice r = Bronze.Product.ProductPrice p)
      \/ ((forall p,
              In p product_df ->
              bronze_to_silver.key_matches d (Silver.Sales.ProductKey r)
                (Bronze.Product.ProductKey p) = false)
          /\ Silver.Sales.UnitPrice r = F64.nan))
  /\ (forall key p,
         In p product_df -> d = int64 ->
         (bronze_to_silver.key_matches d key (Bronze.Product.ProductKey p)
          = true
          <-> Bronze.Product.ProductKey p = PyInt key)).
Proof.
  intros Hrun Hdata d. split.
  - intros r Hr.
    destruct (process_sales_data_inv _ _ _ Hrun)
      as [_ [[_ [Hnone _]] | [_ Hsome]]]; [discriminate|].
    destruct Hsome as (od & sd & oq & ck & pk & product_df' & rows' & Hres
                       & _ & _ & _ & _ & _ & Hprod & _ & Hrows & _).
    injection Hres as <-. rewrite Hdata in Hprod. injection Hprod as <-.
    rewrite Hrows in Hr. unfold final_df in Hr.
    apply in_map_iff in Hr. destruct Hr as [[c p] [<- Hcp]].
    apply merge_left_In in Hcp. destruct Hcp as [_ Hmatches].
    destruct p as [p|].
    + left. destruct Hmatches as [Hp Hmatch]. exists p.
      split; [exact Hp|]. split; [exact Hmatch | reflexivity].
    + right. split; [|reflexivity].
      intros p Hp. exact (filter_nil_false _ _ Hmatches p Hp).
  - intros key p Hp Hd. rewrite Hd. simpl.
    assert (is_int (Bronze.Product.ProductKey p) = true) as Hint.
    { unfold d, dtype_of in Hd.
      destruct (forallb is_int (map Bronze.Product.ProductKey product_df))
        eqn:Hall.
      - rewrite forallb_forall in Hall. apply Hall. now apply in_map.
      - destruct (forallb is_number _); discriminate. }
    destruct (Bronze.Product.ProductKey p) as [z|f|s]; try discriminate.
    simpl. rewrite Z.eqb_eq. split; congruence.
Qed.

Lemma sales_unit_price_is_product_price_witness :
  exists rows w',
    bronze_to_silver.process_sales_data two_years_world = (Ok (Some rows), w')
    /\ map Silver.Sales.ProductKey rows = [1; 2; 7]
    /\ map Silver.Sales.UnitPrice rows
       = [F64.of_int 10; F64.of_int 25; F64.nan]
    /\ forall r,
         In r rows ->
         Silver.Sales.UnitPrice r = F64.nan
         \/ exists p,
              In p [ Bronze.Product.mk (PyInt 1) (F64.of_int 31)
                       (Some "Helmet"%string) (Some "Sport-100"%string)
                       (F64.of_int 10);
                     Bronze.Product.mk (PyInt 2) (F64.of_int 31)
                       (Some "Helmet"%string) (Some "Sport-100"%string)
                       (F64.of_int 25) ]
              /\ Silver.Sales.UnitPrice r = Bronze.Product.ProductPrice p.
Proof.
  destruct (bronze_to_silver.process_sales_data two_years_world)
    as [[[rows|]|e] w'] eqn:Hrun; try (vm_compute in Hrun; discriminate).
  exists rows, w'. split; [reflexivity|].
  destruct (sales_unit_price_is_product_price _ _ _ _ Hrun eq_refl)
    as [Hprice _].
  assert (map Silver.Sales.ProductKey rows = [1; 2; 7]
          /\ map Silver.Sales.UnitPrice rows
             = [F64.of_int 10; F64.of_int 25; F64.nan]) as [Hk Hu].
  { vm_compute in Hrun. injection Hrun as <- _. split; reflexivity. }
  split; [exact Hk|]. split; [exact Hu|].
  intros r Hr. destruct (Hprice r Hr) as [(p & Hp & _ & Hu') | [_ Hnan]].
  - right. now exists p.
  - now left.
Defined.

(** ** silver_to_gold: the month of a sale *)

(** The rows of an inner join that pass a test, when a left row has at
    most one match: the left rows whose match passes it. *)
Lemma filter_merge_length {L R KL KR : Type} (eqb : KL -> KR -> bool)
  (left_on : L -> KL) (right_on : R -> KR) (test : L * R -> bool)
  (left : list L) (right : list R) :
  (forall l, (length (matches eqb left_on right_on right l) <= 1)%nat) ->
  length (filter test (merge eqb left_on right_on left right))
  = length
      (filter
         (fun l =>
            existsb
              (fun r => eqb (left_on l) (right_on r) && test (l, r)) right)
         left).
Proof.
  intros Hone. unfold merge. induction left as [|l left IH].
  - reflexivity.
  - cbn [flat_map]. rewrite filter_app, length_app, IH. cbn [filter].
    specialize (Hone l). unfold matches in *.
    assert (forall r,
               In r right -> eqb (left_on l) (right_on r) = true ->
               In r (filter (fun r => eqb (left_on l) (right_on r)) right))
      as Hin by (intros r Hr He; apply filter_In; now split).
    destruct (filter (fun r => eqb (left_on l) (right_on r)) right)
      as [|r0 [|r1 rest]] eqn:Hf; [| |simpl in Hone; lia].
    + assert (existsb
                (fun r => eqb (left_on l) (right_on r) && test (l, r)) right
              = false) as ->; [|reflexivity].
      apply not_true_is_false. intros Hex. apply existsb_exists in Hex.
      destruct Hex as [r [Hr Hand]]. apply andb_true_iff in Hand.
      exact (Hin r Hr (proj1 Hand)).
    + assert (In r0 (filter (fun r => eqb (left_on l) (right_on r)) right))
        as Hr0 by (rewrite Hf; now left).
      apply filter_In in Hr0. destruct Hr0 as [Hr0 He0].
      assert (existsb
                (fun r => eqb (left_on l) (right_on r) && test (l, r)) right
              = test (l, r0)) as ->.
      { destruct (test (l, r0)) eqn:Ht.
        - apply existsb_exists. exists r0. split; [exact Hr0|].
          now rewrite He0, Ht.
        - apply not_true_is_false. intros Hex. apply existsb_exists in Hex.
          destruct Hex as [r [Hr Hand]]. apply andb_true_iff in Hand.
          destruct (Hin r Hr (proj1 Hand)) as [<- | []].
          rewrite Ht in Hand. now destruct Hand. }
      cbn [map filter]. destruct (test (l, r0)); reflexivity.
Qed.

Lemma datetime_eqb_eq (a b : datetime) :
  silver_to_gold.datetime_eqb a b = true <-> a = b.
Proof.
  destruct a as [x|], b as [y|]; simpl; split; try congruence;
    try discriminate.
  - intros H. apply Z.eqb_eq in H. now subst.
  - intros [= ->]. apply Z.eqb_refl.
Qed.

(** A date matches at most one row of a calendar of different dates. *)
Lemma calendar_matches_unique (dates : list datetime) (d : datetime) :
  NoDup dates ->
  (length
     (filter
        (fun c => silver_to_gold.datetime_eqb d (Silver.Calendar.Date c))
        (map bronze_to_silver.calendar_row dates))
   <= 1)%nat.
Proof.
  induction dates as [|x dates IH]; simpl; intros Hnd.
  - lia.
  - inversion Hnd as [|? ? Hx Hl]; subst. specialize (IH Hl).
    destruct (silver_to_gold.datetime_eqb d x) eqn:Hdx; [|exact IH].
    apply datetime_eqb_eq in Hdx. subst x.
    destruct (filter _ (map bronze_to_silver.calendar_row dates))
      as [|c rest] eqn:Hf; [simpl; lia|].
    assert (In c (filter
                    (fun c =>
                       silver_to_gold.datetime_eqb d (Silver.Calendar.Date c))
                    (map bronze_to_silver.calendar_row dates))) as Hc
      by (rewrite Hf; now left).
    apply filter_In in Hc. destruct Hc as [Hc Heq].
    apply datetime_eqb_eq in Heq. apply in_map_iff in Hc.
    destruct Hc as [y [<- Hy]]. simpl in Heq. subst y. contradiction.
Qed.

(** A sales row whose order date the calendar has, in a month of a
    year. *)
Definition ordered_in (dates : list datetime) (y m : Z)
  (s : Silver.Sales.row) : bool :=
  match Silver.Sales.OrderDate s with
  | Some ns =>
      existsb (silver_to_gold.datetime_eqb (Some ns)) dates
      && (dt.year ns =? y) && (dt.month ns =? m)
  | None => false
  end.

Lemma month_group_calendar_row (s : Silver.Sales.row) (d : datetime)
  (k : Z * Z) :
  silver_to_gold.month_group (s, bronze_to_silver.calendar_row d) = Some k
  <-> exists ns, d = Some ns /\ k = (dt.year ns, dt.month ns).
Proof.
  unfold silver_to_gold.month_group. destruct d as [ns|]; simpl.
  - split.
    + intros [= <-]. now exists ns.
    + intros [ns' [[= <-] ->]]. reflexivity.
  - split; [discriminate|]. intros [ns [Hd _]]. discriminate.
Qed.

Lemma ordered_in_calendar (dates : list datetime) (y m : Z)
  (s : Silver.Sales.row) :
  existsb
    (fun c =>
       silver_to_gold.datetime_eqb (Silver.Sales.OrderDate s)
         (Silver.Calendar.Date c)
       && in_group silver_to_gold.month_group (y, m) (s, c))
    (map bronze_to_silver.calendar_row dates)
  = ordered_in dates y m s.
Proof.
  apply eq_true_iff_eq. unfold ordered_in. rewrite existsb_exists. split.
  - intros [c [Hc Hand]]. apply andb_true_iff in Hand.
    destruct Hand as [Heq Hgroup]. apply datetime_eqb_eq in Heq.
    apply in_map_iff in Hc. destruct Hc as [d [<- Hd]].
    apply in_group_iff in Hgroup. apply month_group_calendar_row in Hgroup.
    destruct Hgroup as [ns [-> [= -> ->]]]. simpl in Heq. rewrite Heq.
    rewrite !Z.eqb_refl, !andb_true_r. apply existsb_exists.
    exists (Some ns). split; [exact Hd | now apply datetime_eqb_eq].
  - destruct (Silver.Sales.OrderDate s) as [ns|]; [|discriminate].
    intros Hand. apply andb_true_iff in Hand. destruct Hand as [Hand Hm].
    apply andb_true_iff in Hand. destruct Hand as [Hex Hy].
    apply existsb_exists in Hex. destruct Hex as [d [Hd Heq]].
    apply datetime_eqb_eq in Heq. subst d.
    apply Z.eqb_eq in Hy, Hm. subst y m.
    exists (bronze_to_silver.calendar_row (Some ns)). split.
    + now apply in_map.
    + apply andb_true_iff. split; [now apply datetime_eqb_eq|].
      apply in_group_iff. apply month_group_calendar_row. now exists ns.
Qed.

(** X20: on the calendar table the calendar transformer writes for a file
    of different dates, the monthly view counts a sale in the month of its
    order date: the OrderCount of the row of a month is the number of
    sales rows whose OrderDate is a date of the calendar in that month of
    that year, and the view has a row for a month exactly when there is
    such a sale.  A sale without an order date, or ordered on a date the
    calendar lacks, is counted nowhere. *)
Theorem monthly_sales_count_order_months (w : world)
  (sales_df : list Silver.Sales.row) (dates : list datetime) :
  silver w "AdventureWorks_Sales.parquet" = Some (Silver.Sales sales_df) ->
  silver w "AdventureWorks_Calendar.parquet"
  = Some (Silver.Calendar (map bronze_to_silver.calendar_row dates)) ->
  NoDup dates ->
  exists monthly_sales w',
    silver_to_gold.create_time_series_analysis w = (Ok monthly_sales, w')
    /\ (forall r,
           In r monthly_sales ->
           Gold.MonthlySales.OrderCount r
           = Z.of_nat
               (length
                  (filter
                     (ordered_in dates (Gold.MonthlySales.Year r)
                        (Gold.MonthlySales.Month r))
                     sales_df)))
    /\ (forall y m,
           In (y, m) (map silver_to_gold.year_month monthly_sales)
           <-> exists s, In s sales_df /\ ordered_in dates y m s = true).
Proof.
  intros Hs Hc Hnd. eexists _, _.
  split; [apply (create_time_series_analysis_runs w _ _ Hs Hc)|].
  set (calendar_df := map bronze_to_silver.calendar_row dates).
  set (joined_df := sales_calendar sales_df calendar_df).
  rewrite monthly_sales_sorted_as_grouped.
  set (view := map _ (groupby _ joined_df)).
  assert (Permutation view view) as Hperm by reflexivity.
  split.
  - intros r Hr.
    destruct (view_row _ _ _ year_month_row _ _ Hperm r Hr) as [Hrow _].
    rewrite Hrow at 1.
    destruct (silver_to_gold.year_month r) as [y m] eqn:Hk.
    assert (Gold.MonthlySales.Year r = y /\ Gold.MonthlySales.Month r = m)
      as [-> ->] by (unfold silver_to_gold.year_month in Hk;
                     now injection Hk).
    simpl. unfold agg_count. rewrite length_map. f_equal.
    unfold joined_df, sales_calendar.
    rewrite (filter_merge_length silver_to_gold.datetime_eqb
               Silver.Sales.OrderDate Silver.Calendar.Date
               (in_group silver_to_gold.month_group (y, m))
               sales_df calendar_df)
      by (intros l; apply calendar_matches_unique; exact Hnd).
    f_equal. apply filter_ext. intros s. apply ordered_in_calendar.
  - intros y m.
    rewrite (view_key_iff _ _ _ year_month_row _ _ Hperm (y, m)). split.
    + intros [[s c] [Hj Hgroup]]. apply merge_In in Hj.
      destruct Hj as [Hsin [Hcin Heq]]. exists s. split; [exact Hsin|].
      rewrite <- ordered_in_calendar. apply existsb_exists. exists c.
      split; [exact Hcin|]. apply andb_true_iff. split; [exact Heq|].
      now apply in_group_iff.
    + intros [s [Hsin Hin]]. rewrite <- ordered_in_calendar in Hin.
      apply existsb_exists in Hin. destruct Hin as [c [Hcin Hand]].
      apply andb_true_iff in Hand. destruct Hand as [Heq Hgroup].
      exists (s, c). split.
      * apply merge_In. now repeat split.
      * now apply in_group_iff.
Qed.

(** Sales of the first of January 2015, of the leap day of 2016 and of no
    date, and the calendar of the examples, which lacks the first. *)
Definition dated_world : world :=
  let sale (OrderDate : datetime) :=
    Silver.Sales.mk OrderDate None (Some "SO1"%string) 1 11000 (PyInt 1)
      (PyInt 1) 1 (F64.of_int 10) (F64.of_int 10) (F64.of_int 7)
      (F64.of_int 3) (F64.div (F64.of_int 3) (F64.of_int 10)) in
  mkWorld empty_dir
    (put
       (put empty_dir "AdventureWorks_Sales.parquet"
          (Silver.Sales
             [ sale (Some 1420070400000000000);
               sale (Some 1456704000000000000);
               sale (Some 1456704000000000000); sale None ]))
       "AdventureWorks_Calendar.parquet"
       (Silver.Calendar
          (map bronze_to_silver.calendar_row
             [ Some 0; Some 1456704000000000000; Some 1514721600000000000;
               None ])))
    empty_dir [] [].

Lemma monthly_sales_count_order_months_witness :
  exists monthly_sales,
    fst (silver_to_gold.create_time_series_analysis dated_world)
    = Ok monthly_sales
    /\ map silver_to_gold.year_month monthly_sales = [(2016, 2)]
    /\ map Gold.MonthlySales.OrderCount monthly_sales = [2].
Proof.
  assert (NoDup [ Some 0; Some 1456704000000000000;
                  Some 1514721600000000000; @None Z ]) as Hnd.
  { repeat constructor; simpl; intuition discriminate. }
  destruct (monthly_sales_count_order_months dated_world _ _ eq_refl eq_refl
              Hnd)
    as (view & w' & Hrun & _).
  exists view. rewrite Hrun. split; [reflexivity|].
  vm_compute in Hrun. injection Hrun as <- _. split; reflexivity.
Defined.
